(** * Document question answering assistant: retrieval policy, context
      assembly, answer engine and graph construction

    A shallow embedding of [QAEngine] with [buildContext] (the question
    answering engine) and of the [GET] handler of [app/api/graph/route.ts]
    (the graph builder), followed by the properties of the specification
    that are settled against them.  The decisions of the client components
    that call them ([GraphView], [ChatWindow], [MessageBubble],
    [RelatedDocuments] and the graph page) are embedded as pure functions,
    with the properties that hold of them and of their composition with
    the two programs.

    Conventions of the embedding.
    - A JavaScript number is an exact rational [Q]: every finite double is
      one and [<], [>=] agree with the rational order; sums and products are
      taken exactly.  Where the code tests [Number.isFinite], a number that
      may fail the test is an [option Q], [None] standing for [NaN] and the
      infinities.
    - A JavaScript string is a [string] that holds the UTF-8 form of its
      characters, which are taken from the Basic Multilingual Plane; on
      such strings equality and the order [<] of JavaScript are those of
      the bytes.
    - [Map] and plain objects used as maps are association lists kept in
      insertion order, since the code enumerates them.
    - Remote calls ([store.search], the completion calls, [getPineconeStore])
      are answered by an environment and recorded, in order, in an event
      log; a thrown [Error] is its message. *)

From Stdlib Require Import List String Ascii Bool Arith NArith ZArith QArith
  Qround Qabs Qminmax Lia Lqa Sorted Permutation DecimalString.
Import ListNotations.

Local Open Scope string_scope.
Local Open Scope list_scope.
Local Open Scope Q_scope.

(* ================================================================= *)
(** ** JavaScript values used by both programs *)

(** [a >= b] and [a < b] on finite numbers. *)
Definition geq (a b : Q) : bool := Qle_bool b a.
Definition lt (a b : Q) : bool := negb (Qle_bool b a).

(** [x ?? d]. *)
Definition nullish {A : Type} (x : option A) (d : A) : A :=
  match x with Some a => a | None => d end.

(** The white space and the line terminators that [String.prototype.trim]
    strips, by code point: TAB, LF, VT, FF, CR, SP, NBSP, U+1680, U+2000 to
    U+200A, U+2028, U+2029, U+202F, U+205F, U+3000 and U+FEFF. *)
Definition isWhiteSpace (codePoint : N) : bool :=
  ((0x09 <=? codePoint) && (codePoint <=? 0x0D))%N
  || (codePoint =? 0x20)%N || (codePoint =? 0xA0)%N || (codePoint =? 0x1680)%N
  || ((0x2000 <=? codePoint) && (codePoint <=? 0x200A))%N
  || (codePoint =? 0x2028)%N || (codePoint =? 0x2029)%N || (codePoint =? 0x202F)%N
  || (codePoint =? 0x205F)%N || (codePoint =? 0x3000)%N || (codePoint =? 0xFEFF)%N.

(** The code point that one, two or three bytes write in UTF-8, if they
    write one. *)
Definition continuation (b : ascii) : option N :=
  let y := N_of_ascii b in
  if ((0x80 <=? y) && (y <? 0xC0))%N then Some (y - 0x80)%N else None.

Definition utf8_1 (a : ascii) : option N :=
  let x := N_of_ascii a in
  if (x <? 0x80)%N then Some x else None.

Definition utf8_2 (a b : ascii) : option N :=
  let x := N_of_ascii a in
  if ((0xC2 <=? x) && (x <? 0xE0))%N
  then match continuation b with
       | Some y => Some ((x - 0xC0) * 0x40 + y)%N
       | None => None
       end
  else None.

Definition utf8_3 (a b c : ascii) : option N :=
  let x := N_of_ascii a in
  if ((0xE0 <=? x) && (x <? 0xF0))%N
  then match continuation b, continuation c with
       | Some y, Some z =>
           let codePoint := ((x - 0xE0) * 0x1000 + y * 0x40 + z)%N in
           if (0x800 <=? codePoint)%N then Some codePoint else None
       | _, _ => None
       end
  else None.

Definition whiteSpace (codePoint : option N) : bool :=
  match codePoint with
  | Some n => isWhiteSpace n
  | None => false
  end.

(** [trimStart] drops the white-space characters that the string starts
    with, each of one, two or three bytes. *)
Fixpoint trimStart (s : string) : string :=
  match s with
  | EmptyString => s
  | String a r1 =>
      if whiteSpace (utf8_1 a) then trimStart r1
      else match r1 with
           | EmptyString => s
           | String b r2 =>
               if whiteSpace (utf8_2 a b) then trimStart r2
               else match r2 with
                    | EmptyString => s
                    | String c r3 =>
                        if whiteSpace (utf8_3 a b c) then trimStart r3 else s
                    end
           end
  end.

(** A string is falsy exactly when it is empty. *)
Definition truthy (s : string) : bool :=
  match s with EmptyString => false | _ => true end.

(** The question "is empty or consists only of white space": every
    character of the string is a white-space character. *)
Fixpoint blank (s : string) : bool :=
  match s with
  | EmptyString => true
  | String a r1 =>
      if whiteSpace (utf8_1 a) then blank r1
      else match r1 with
           | EmptyString => false
           | String b r2 =>
               if whiteSpace (utf8_2 a b) then blank r2
               else match r2 with
                    | EmptyString => false
                    | String c r3 =>
                        if whiteSpace (utf8_3 a b c) then blank r3 else false
                    end
           end
  end.

(** [trimEnd] keeps the string up to the point from which only white space
    follows.  No character is cut in two: what follows a byte inside a
    character starts with a continuation byte, with which no white-space
    character starts. *)
Fixpoint trimEnd (s : string) : string :=
  match s with
  | EmptyString => EmptyString
  | String a r => if blank s then EmptyString else String a (trimEnd r)
  end.

Definition trim (s : string) : string := trimEnd (trimStart s).

(** [`${n}`] for a non-negative integer. *)
Definition showNat (n : nat) : string := NilZero.string_of_uint (Nat.to_uint n).

(** [Array.prototype.join]. *)
Fixpoint join (sep : string) (l : list string) : string :=
  match l with
  | [] => ""
  | [x] => x
  | x :: r => (x ++ sep ++ join sep r)%string
  end.

(** [ToIntegerOrInfinity] of a finite number: truncation towards zero. *)
Definition toInteger (x : Q) : Z :=
  if Qle_bool 0 x then Qfloor x else Qceiling x.

(** [l.slice(0, e)]: a negative end counts from the end of the array. *)
Definition slice0 {A : Type} (e : Q) (l : list A) : list A :=
  let t := toInteger e in
  if (t <? 0)%Z
  then firstn (Z.to_nat (Z.max (Z.of_nat (List.length l) + t) 0)) l
  else firstn (Z.to_nat t) l.

(* ----------------------------------------------------------------- *)
(** *** [Map<string, V>] in insertion order *)

Section JsMap.
Context {V : Type}.

Definition JsMap := list (string * V).

Fixpoint map_get (k : string) (m : JsMap) : option V :=
  match m with
  | [] => None
  | (k', v) :: r => if String.eqb k k' then Some v else map_get k r
  end.

Definition map_has (k : string) (m : JsMap) : bool :=
  match map_get k m with Some _ => true | None => false end.

(** [m.set(k, v)]: an existing key keeps its place, a new one goes last. *)
Fixpoint map_set (k : string) (v : V) (m : JsMap) : JsMap :=
  match m with
  | [] => [(k, v)]
  | (k', v') :: r =>
      if String.eqb k k' then (k', v) :: r else (k', v') :: map_set k v r
  end.

Definition map_keys (m : JsMap) : list string := map fst m.
Definition map_values (m : JsMap) : list V := map snd m.
End JsMap.
Arguments JsMap : clear implicits.

(* ----------------------------------------------------------------- *)
(** *** Effects: an event log and thrown errors *)

Section Effects.
Context {E : Type}.

(** A computation reads the log written so far, appends its own events
    and either throws a message or returns a value. *)
Definition M (A : Type) : Type := list E -> (string + A) * list E.

Definition ret {A} (a : A) : M A := fun log => (inr a, log).

Definition throw {A} (msg : string) : M A := fun log => (inl msg, log).

Definition bind {A B} (m : M A) (f : A -> M B) : M B :=
  fun log =>
    match m log with
    | (inl e, log') => (inl e, log')
    | (inr a, log') => f a log'
    end.

(** An external call: the event is logged, and the environment answers
    from the number of events logged before it. *)
Definition call {A} (ev : E) (answer : nat -> string + A) : M A :=
  fun log => (answer (List.length log), log ++ [ev]).

(** An effect that cannot fail. *)
Definition emit (ev : E) : M unit := fun log => (inr tt, log ++ [ev]).

(** [for (const x of l) { body }] over a loop state. *)
Fixpoint forOf {A S} (l : list A) (body : S -> A -> M S) (s : S) : M S :=
  match l with
  | [] => ret s
  | x :: r => bind (body s x) (forOf r body)
  end.
End Effects.
Arguments M : clear implicits.

Declare Scope monad_scope.
Delimit Scope monad_scope with monad.
Notation "x <- m ;; k" := (bind m (fun x => k))
  (at level 61, m at next level, right associativity) : monad_scope.
Notation "m ;;; k" := (bind m (fun _ => k))
  (at level 61, right associativity) : monad_scope.

(* ================================================================= *)
(** ** The question answering engine *)

(** *** Data model *)

Module Chunk.
Record t := mk {
  id : string;
  pageId : option string;
  title : string;
  heading : option string;
  headingPath : option string;
  spaceKey : option string;
  sourceUrl : option string;
  content : string }.
End Chunk.

Module SearchResult.
Record t := mk { chunk : Chunk.t; score : Q }.
End SearchResult.

Module AnswerReferences.
Record t := mk {
  index : nat;
  title : string;
  url : option string;
  score : option Q;
  pageId : option string }.
End AnswerReferences.

Module RetrievalTraceEntry.
Record t := mk {
  index : nat;
  id : string;
  score : Q;
  title : string;
  heading : option string;
  headingPath : option string;
  spaceKey : option string;
  included : bool }.
End RetrievalTraceEntry.

Module RetrievalTrace.
Record t := mk {
  threshold : Q;
  fallbackApplied : bool;
  fallbackThreshold : option Q;
  results : list RetrievalTraceEntry.t }.
End RetrievalTrace.

Module AnswerResponse.
Record t := mk {
  answer : string;
  references : list AnswerReferences.t;
  retrievalTrace : option RetrievalTrace.t }.
End AnswerResponse.

Module PromptTraceMetadata.
Record t := mk { label : option string; requestId : option string }.
End PromptTraceMetadata.

Definition DEFAULT_TEMPERATURE : Q := 4 # 10.

(** *** [buildContext] *)

Definition newline : string := String (ascii_of_nat 10) EmptyString.

(** U+2014, the dash of the section header. *)
Definition emDash : string := "—".

(** [result.chunk.pageId ?? result.chunk.id]. *)
Definition referenceKey (result : SearchResult.t) : string :=
  nullish (Chunk.pageId (SearchResult.chunk result))
          (Chunk.id (SearchResult.chunk result)).

(** [[...].filter(Boolean)] on strings that may be [undefined]. *)
Definition filterBoolean (l : list (option string)) : list string :=
  flat_map (fun o => match o with
                     | Some s => if truthy s then [s] else []
                     | None => []
                     end) l.

(** The text returned by the callback of [results.map]. *)
Definition sectionText (referenceIndex : nat) (result : SearchResult.t) : string :=
  let c := SearchResult.chunk result in
  join newline
    (filterBoolean
       [ Some ("Reference [" ++ showNat referenceIndex ++ "] " ++ emDash ++ " "
                 ++ Chunk.title c)%string;
         match Chunk.sourceUrl c with
         | Some u => if truthy u then Some ("Source: " ++ u)%string else None
         | None => None
         end;
         Some (Chunk.content c) ]).

(** The two mutable locals of [buildContext]. *)
Definition ContextState : Type := list AnswerReferences.t * JsMap nat.

(** One call of the callback: [(!referenceIndex)] holds for [undefined]
    and for [0]. *)
Definition visit (st : ContextState) (result : SearchResult.t)
  : ContextState * string :=
  let '(references, seen) := st in
  let pageId := referenceKey result in
  let fresh :=
    let referenceIndex := (List.length references + 1)%nat in
    (referenceIndex,
     (references ++
        [ AnswerReferences.mk referenceIndex
            (Chunk.title (SearchResult.chunk result))
            (Chunk.sourceUrl (SearchResult.chunk result))
            (Some (SearchResult.score result))
            (Some pageId) ],
      map_set pageId referenceIndex seen)) in
  let '(referenceIndex, st') :=
    match map_get pageId seen with
    | Some i => if (i =? 0)%nat then fresh else (i, (references, seen))
    | None => fresh
    end in
  (st', sectionText referenceIndex result).

Fixpoint visitAll (results : list SearchResult.t) (st : ContextState)
  : ContextState * list string :=
  match results with
  | [] => (st, [])
  | result :: rest =>
      let '(st1, s) := visit st result in
      let '(st2, ss) := visitAll rest st1 in
      (st2, s :: ss)
  end.

Definition contextSeparator : string :=
  (newline ++ newline ++ "---" ++ newline ++ newline)%string.

(** Returns [(context, references)]. *)
Definition buildContext (results : list SearchResult.t)
  : string * list AnswerReferences.t :=
  let '((references, _), sections) := visitAll results ([], []) in
  (join contextSeparator sections, references).

(** *** Retrieval policy: the filtering block of [prepare] *)

(** [Number(result.score.toFixed(4))]: [toFixed] rounds the magnitude to the
    nearest multiple of 1/10^4, the larger one on a tie, and prints numbers
    of magnitude 10^21 and more unchanged.  The decimal printed is kept as
    it is, where [Number] takes the double nearest to it. *)
Definition toFixed4 (x : Q) : Q :=
  if Qle_bool (inject_Z (10 ^ 21)) (Qabs x) then x
  else if Qle_bool 0 x
       then Qfloor (x * 10000 + (1 # 2)) # 10000
       else - (Qfloor ((- x) * 10000 + (1 # 2)) # 10000).

Section Policy.
(** [this.similarityThreshold] and the module constant
    [FALLBACK_SIMILARITY_THRESHOLD = Number(process.env...)]. *)
Variable similarityThreshold : Q.
Variable FALLBACK_SIMILARITY_THRESHOLD : option Q.

Definition fallbackThresholdValid : bool :=
  match FALLBACK_SIMILARITY_THRESHOLD with
  | Some f => lt 0 f && lt f 1
  | None => false
  end.

(** [result.score >= FALLBACK_SIMILARITY_THRESHOLD]; a comparison with
    [NaN] is false, and the test is only reached with a finite value. *)
Definition passesFallback (result : SearchResult.t) : bool :=
  match FALLBACK_SIMILARITY_THRESHOLD with
  | Some f => geq (SearchResult.score result) f
  | None => false
  end.

(** Lines 151-167: the final values of [relevantResults] and
    [fallbackApplied]. *)
Definition relevantResults (rawResults : list SearchResult.t)
  : list SearchResult.t * bool :=
  let relevant :=
    filter (fun result => geq (SearchResult.score result) similarityThreshold)
           rawResults in
  if (List.length relevant =? 0)%nat && (0 <? List.length rawResults)%nat
     && fallbackThresholdValid
  then
    let fallbackResults := filter passesFallback rawResults in
    if (0 <? List.length fallbackResults)%nat
    then (fallbackResults, true)
    else (firstn 1 rawResults, true)   (* [rawResults[0]], non-empty here *)
  else (relevant, false).

(** Lines 169-184: [includedIds] is the set of chunk ids of the results
    kept; the trace runs over all of [rawResults]. *)
Definition includedIds (relevant : list SearchResult.t) : list string :=
  map (fun result => Chunk.id (SearchResult.chunk result)) relevant.

Definition set_has (x : string) (s : list string) : bool :=
  existsb (String.eqb x) s.

Fixpoint traceEntries (ids : list string) (idx : nat)
         (rawResults : list SearchResult.t) : list RetrievalTraceEntry.t :=
  match rawResults with
  | [] => []
  | result :: rest =>
      let c := SearchResult.chunk result in
      RetrievalTraceEntry.mk (idx + 1) (Chunk.id c)
        (toFixed4 (SearchResult.score result)) (Chunk.title c)
        (Chunk.heading c) (Chunk.headingPath c) (Chunk.spaceKey c)
        (set_has (Chunk.id c) ids)
      :: traceEntries ids (S idx) rest
  end.

Definition retrievalTrace (rawResults : list SearchResult.t) : RetrievalTrace.t :=
  let '(relevant, fallbackApplied) := relevantResults rawResults in
  RetrievalTrace.mk similarityThreshold fallbackApplied
    (if fallbackApplied && fallbackThresholdValid
     then FALLBACK_SIMILARITY_THRESHOLD else None)
    (traceEntries (includedIds relevant) 0 rawResults).
End Policy.

(** *** [QAEngine] *)

(** The constructor's default for [similarityThreshold], from
    [DEFAULT_SIMILARITY_THRESHOLD = Number(process.env...)]. *)
Definition defaultSimilarityThreshold (DEFAULT_SIMILARITY_THRESHOLD : option Q) : Q :=
  match DEFAULT_SIMILARITY_THRESHOLD with
  | Some d => Qmin (Qmax d 0) 1
  | None => 2 # 10
  end.

Section QAEngine.
(** Imported from [prompts/unifiedPrompt] and [providers/modelProvider],
    which are not part of the sources at hand: the builder of the message
    set and the resolution of the provider name are taken as functions,
    and [tracePrompt], like [console.debug], as an effect that returns. *)
Variable Messages : Type.
Variable buildProviderMessages :
  string -> option string -> string -> list (string * string) -> Messages.
Variable QA_USER_PROMPT_INSTRUCTIONS : string.
Variable resolveProvider : string -> string.
Variable Stream : Type.

(** Module constants read from the process environment. *)
Variable TRACE_RETRIEVAL : bool.
Variable FALLBACK_SIMILARITY_THRESHOLD : option Q.

(** The fields of the engine. *)
Variable topK : Q.
Variable defaultProvider : string.
Variable similarityThreshold : Q.

(** What leaves the process, in order. *)
Inductive Event : Type :=
| Search (query : string) (k : Q)
| ConsoleDebug (trace : RetrievalTrace.t)
| TracePrompt (label : string) (requestId : option string) (messages : Messages)
| ChatCompletion (messages : Messages) (temperature : Q) (provider : string)
| ChatCompletionStream (messages : Messages) (temperature : Q) (provider : string).

(** The remote calls among them. *)
Definition isRemoteCall (ev : Event) : bool :=
  match ev with
  | Search _ _ | ChatCompletion _ _ _ | ChatCompletionStream _ _ _ => true
  | ConsoleDebug _ | TracePrompt _ _ _ => false
  end.

(** The answers of the vector store and of the model provider; the first
    argument is the number of events that precede the call. *)
Variable store_search : nat -> string -> Q -> string + list SearchResult.t.
Variable chatCompletion : nat -> Messages -> Q -> string -> string + string.
Variable chatCompletionStream : nat -> Messages -> Q -> string -> string + Stream.

Definition FALLBACK_INSTRUCTIONS : string :=
  (QA_USER_PROMPT_INSTRUCTIONS ++ newline ++
   "- Retrieval context was empty; inform the user before answering from general knowledge.")%string.

Record Prepared := mkPrepared {
  messages : Messages;
  references : list AnswerReferences.t;
  preparedTrace : RetrievalTrace.t }.

Definition traceLabel (trace : option PromptTraceMetadata.t) (d : string) : string :=
  nullish (match trace with
           | Some t => PromptTraceMetadata.label t
           | None => None
           end) d.

Definition traceRequestId (trace : option PromptTraceMetadata.t) : option string :=
  match trace with
  | Some t => PromptTraceMetadata.requestId t
  | None => None
  end.

Definition prepare (question : string) (chatHistory : option string)
           (trace : option PromptTraceMetadata.t) : M Event Prepared :=
  (if negb (truthy (trim question))
   then throw "Question must not be empty"
   else
     rawResults <- call (Search question topK)
                        (fun i => store_search i question topK) ;;
     let '(relevant, fallbackApplied) :=
       relevantResults similarityThreshold FALLBACK_SIMILARITY_THRESHOLD rawResults in
     let rt := retrievalTrace similarityThreshold FALLBACK_SIMILARITY_THRESHOLD rawResults in
     (if TRACE_RETRIEVAL then emit (ConsoleDebug rt) else ret tt) ;;;
     if (List.length relevant =? 0)%nat
     then
       let msgs :=
         buildProviderMessages question chatHistory FALLBACK_INSTRUCTIONS
           [ ("Retrieval Context",
              "No relevant Confluence context was retrieved above the similarity threshold.") ] in
       emit (TracePrompt (traceLabel trace "qa.prompt.fallback")
                         (traceRequestId trace) msgs) ;;;
       ret (mkPrepared msgs [] rt)
     else
       let '(context, refs) := buildContext relevant in
       let instructions :=
         if fallbackApplied
         then (QA_USER_PROMPT_INSTRUCTIONS ++ newline ++
               "- Retrieved context scored below the usual similarity threshold; treat it as suggestive, not definitive.")%string
         else QA_USER_PROMPT_INSTRUCTIONS in
       let msgs :=
         buildProviderMessages question chatHistory instructions
           [ ("Retrieval Context", context) ] in
       emit (TracePrompt
               (traceLabel trace
                  (if fallbackApplied then "qa.prompt.fallback-context" else "qa.prompt"))
               (traceRequestId trace) msgs) ;;;
       ret (mkPrepared msgs refs rt))%monad.

Definition answerQuestion (question : string) (chatHistory : option string)
           (providerOverride : option string)
           (trace : option PromptTraceMetadata.t) : M Event AnswerResponse.t :=
  (p <- prepare question chatHistory trace ;;
   let provider := resolveProvider (nullish providerOverride defaultProvider) in
   text <- call (ChatCompletion (messages p) DEFAULT_TEMPERATURE provider)
                (fun i => chatCompletion i (messages p) DEFAULT_TEMPERATURE provider) ;;
   let answer :=
     if truthy text then text
     else "I do not have enough information to answer that." in
   ret (AnswerResponse.mk answer (references p) (Some (preparedTrace p))))%monad.

Record StreamingCompletion := mkStreamingCompletion {
  streamReferences : list AnswerReferences.t;
  stream : Stream;
  streamRetrievalTrace : RetrievalTrace.t }.

Definition createStreamingCompletion (question : string) (chatHistory : option string)
           (providerOverride : option string)
           (trace : option PromptTraceMetadata.t) : M Event StreamingCompletion :=
  (p <- prepare question chatHistory trace ;;
   let provider := resolveProvider (nullish providerOverride defaultProvider) in
   s <- call (ChatCompletionStream (messages p) DEFAULT_TEMPERATURE provider)
             (fun i => chatCompletionStream i (messages p) DEFAULT_TEMPERATURE provider) ;;
   ret (mkStreamingCompletion (references p) s (preparedTrace p)))%monad.
End QAEngine.

Arguments isRemoteCall {Messages} ev.
Arguments messages {Messages} p.
Arguments references {Messages} p.
Arguments preparedTrace {Messages} p.
Arguments streamReferences {Stream} s.
Arguments stream {Stream} s.
Arguments streamRetrievalTrace {Stream} s.
Arguments prepare {Messages}.
Arguments answerQuestion {Messages}.
Arguments createStreamingCompletion {Messages} _ _ _ {Stream}.

(* ================================================================= *)
(** ** The graph builder: [GET] of [app/api/graph/route.ts] *)

(** *** Data model *)

(** The fields of a cache entry that the route reads. *)
Module VectorCacheEntry.
Record t := mk {
  pageId : string;
  pageTitle : string;
  spaceKey : option string;
  chunkCount : nat;
  chunkIds : list string }.
End VectorCacheEntry.

Module GraphNode.
Record t := mk {
  id : string;
  label : string;
  size : Q;
  chunkCount : nat;
  spaceKey : option string }.
End GraphNode.

Module GraphEdge.
Record t := mk { source : string; target : string; weight : Q }.
End GraphEdge.

(** What the route reads of a search result: [r.chunk.pageId], which it
    uses as a property key, and [r.score], which it guards with [?? 0]. *)
Module Hit.
Record t := mk { pageId : string; score : option Q }.
End Hit.

(** [cache.pages]: a plain object made by [JSON.parse] (or the literal
    [{}]), its entries listed in enumeration order. *)
Definition Pages : Type := JsMap VectorCacheEntry.t.

(** The outcome of the property read [pages[k]].  The object inherits from
    [Object.prototype], so a key that names one of its members reads that
    member, a function or an object and hence truthy, on which every field
    of a cache entry is [undefined]. *)
Inductive Property : Type :=
| Own (entry : VectorCacheEntry.t)
| Inherited
| Undefined.

Definition objectPrototypeMembers : list string :=
  [ "constructor"; "__proto__"; "hasOwnProperty"; "isPrototypeOf";
    "propertyIsEnumerable"; "toLocaleString"; "toString"; "valueOf";
    "__defineGetter__"; "__defineSetter__"; "__lookupGetter__";
    "__lookupSetter__" ].

Definition getProperty (pages : Pages) (k : string) : Property :=
  match map_get k pages with
  | Some entry => Own entry
  | None => if existsb (String.eqb k) objectPrototypeMembers
            then Inherited else Undefined
  end.

(** A value of [nodeMap].  [Untyped] is the object built from an inherited
    member: its [id], [label], [chunkCount] and [spaceKey] are [undefined]
    and its [size] is [NaN], before and after the final sizing. *)
Inductive NodeValue : Type :=
| Node (n : GraphNode.t)
| Untyped.

Definition nodeId (v : NodeValue) : option string :=
  match v with
  | Node n => Some (GraphNode.id n)
  | Untyped => None
  end.

Inductive Response : Type :=
| Json200 (nodes : list NodeValue) (edges : list GraphEdge.t)
| Json404 (error : string)
| Json500 (error : string).

Inductive GraphEvent : Type :=
| GetPineconeStore
| StoreSearch (query : option string) (k : Q).

Module SearchParams.
Record t := mk {
  seedPageId : option string;
  maxSeeds : option string;
  topK : option string;
  threshold : option string;
  maxNodes : option string }.
End SearchParams.

(** *** Pure parts of the route *)

Definition ofNat (n : nat) : Q := inject_Z (Z.of_nat n).

(** [Math.max(1, Math.min(10, chunkCount))]. *)
Definition initialSize (chunkCount : nat) : Q := Qmax 1 (Qmin 10 (ofNat chunkCount)).

Definition nodeOfEntry (p : VectorCacheEntry.t) : GraphNode.t :=
  GraphNode.mk (VectorCacheEntry.pageId p) (VectorCacheEntry.pageTitle p)
    (initialSize (VectorCacheEntry.chunkCount p))
    (VectorCacheEntry.chunkCount p) (VectorCacheEntry.spaceKey p).

(** The node built from a truthy [pages[k]]. *)
Definition nodeOfProperty (p : Property) : NodeValue :=
  match p with
  | Own entry => Node (nodeOfEntry entry)
  | Inherited | Undefined => Untyped
  end.

(** [a < b ? `${a}|${b}` : `${b}|${a}`]. *)
Definition edgeKey (a b : string) : string :=
  if String.ltb a b then (a ++ "|" ++ b)%string else (b ++ "|" ++ a)%string.

(** [pageEdges.set(key, (pageEdges.get(key) ?? 0) + w)]. *)
Definition addWeight (key : string) (w : Q) (pageEdges : JsMap Q) : JsMap Q :=
  map_set key (nullish (map_get key pageEdges) 0 + w) pageEdges.

(** [s.split(sep)] for a one-character separator. *)
Fixpoint split (sep : ascii) (s : string) : list string :=
  match s with
  | EmptyString => [EmptyString]
  | String c r =>
      if Ascii.eqb c sep then EmptyString :: split sep r
      else match split sep r with
           | p :: ps => String c p :: ps
           | [] => [String c EmptyString]
           end
  end.

(** [const [a, b] = key.split('|')].  Every key of [pageEdges] comes from
    [edgeKey] and holds a bar, so [b] is defined ([edgeKey_split] below);
    on a key without bar the second part is left empty here. *)
Definition keyEndpoints (key : string) : string * string :=
  let parts := split "|"%char key in
  (nth 0 parts EmptyString, nth 1 parts EmptyString).

Definition edgeOfEntry (kw : string * Q) : GraphEdge.t :=
  let '(a, b) := keyEndpoints (fst kw) in GraphEdge.mk a b (snd kw).

(** [edges.sort((a, b) => b.weight - a.weight)]: the stable sort by
    descending weight, here by insertion. *)
Fixpoint insertEdge (e : GraphEdge.t) (l : list GraphEdge.t) : list GraphEdge.t :=
  match l with
  | [] => [e]
  | x :: r =>
      if Qle_bool (GraphEdge.weight x) (GraphEdge.weight e)
      then e :: x :: r
      else x :: insertEdge e r
  end.

Definition sortByWeight (l : list GraphEdge.t) : list GraphEdge.t :=
  fold_right insertEdge [] l.

(** [allowed.has(x)] for the set of the ids of the nodes kept. *)
Definition allowedHas (x : string) (allowed : list (option string)) : bool :=
  existsb (fun o => match o with
                    | Some i => String.eqb x i
                    | None => false
                    end) allowed.

(** The loop that fills [degree]. *)
Definition countEdge (degree : JsMap nat) (e : GraphEdge.t) : JsMap nat :=
  let d1 := map_set (GraphEdge.source e)
                    (nullish (map_get (GraphEdge.source e) degree) 0 + 1)%nat degree in
  map_set (GraphEdge.target e)
          (nullish (map_get (GraphEdge.target e) d1) 0 + 1)%nat d1.

Definition degreeMap (edges : list GraphEdge.t) : JsMap nat :=
  fold_left countEdge edges [].

Section Graph.
(** [Number(value)] on a non-empty string, [None] for [NaN] and the
    infinities, and [Math.log10]: both are left to the environment. *)
Variable toNumber : string -> option Q.
Variable log10 : Q -> Q.

(** The page cache as read by [readVectorCache], and the answers of
    [getPineconeStore] and of [store.search]; the first argument is the
    number of events that precede the call. *)
Variable pages : Pages.
Variable getPineconeStore : nat -> string + unit.
Variable store_search : nat -> option string -> Q -> string + list Hit.t.

Definition parseNumber (value : option string) (fallback : Q) : Q :=
  match value with
  | None => fallback
  | Some s =>
      if negb (truthy s) then fallback
      else match toNumber s with
           | Some n => if lt 0 n then n else fallback
           | None => fallback
           end
  end.

Definition parseFloatInRange (value : option string) (fallback min max : Q) : Q :=
  match value with
  | None => fallback
  | Some s =>
      if negb (truthy s) then fallback
      else match toNumber s with
           | Some n => Qmax min (Qmin max n)
           | None => fallback
           end
  end.

(** The body of [for (const r of results)] in the first loop. *)
Definition expandNeighbor (threshold : Q) (seed : VectorCacheEntry.t)
           (st : JsMap Q * JsMap NodeValue) (r : Hit.t)
  : JsMap Q * JsMap NodeValue :=
  let '(pageEdges, nodeMap) := st in
  let neighborPageId := Hit.pageId r in
  if String.eqb neighborPageId (VectorCacheEntry.pageId seed) then st
  else
    let score := nullish (Hit.score r) 0 in
    if lt score threshold then st
    else
      let key := edgeKey (VectorCacheEntry.pageId seed) neighborPageId in
      let pageEdges' := addWeight key score pageEdges in
      match getProperty pages neighborPageId with
      | Undefined => (pageEdges', nodeMap)
      | neighborCache =>
          if map_has neighborPageId nodeMap then (pageEdges', nodeMap)
          else (pageEdges',
                map_set neighborPageId (nodeOfProperty neighborCache) nodeMap)
      end.

(** The body of [for (const r of results)] in the second loop. *)
Definition connectNeighbor (threshold : Q) (nodeMap : JsMap NodeValue)
           (neighborId : string) (pageEdges : JsMap Q) (r : Hit.t) : JsMap Q :=
  let otherId := Hit.pageId r in
  if String.eqb otherId neighborId || negb (map_has otherId nodeMap)
  then pageEdges
  else
    let score := nullish (Hit.score r) 0 in
    if lt score threshold then pageEdges
    else addWeight (edgeKey neighborId otherId) (score * (5 # 10)) pageEdges.

(** [neighborCache.pageTitle]. *)
Definition propertyTitle (p : Property) : option string :=
  match p with
  | Own entry => Some (VectorCacheEntry.pageTitle entry)
  | Inherited | Undefined => None
  end.

(** The new [size] of a node of [limitedNodes]. *)
Definition finalSize (degree : JsMap nat) (n : GraphNode.t) : Q :=
  Qmin 18
    (Qmax 6
       (ofNat (nullish (map_get (GraphNode.id n) degree) 1%nat)
        + log10 (ofNat (GraphNode.chunkCount n) + 1) * 2)).

Definition resize (degree : JsMap nat) (v : NodeValue) : NodeValue :=
  match v with
  | Node n =>
      Node (GraphNode.mk (GraphNode.id n) (GraphNode.label n) (finalSize degree n)
              (GraphNode.chunkCount n) (GraphNode.spaceKey n))
  | Untyped => Untyped
  end.

(** Lines 165-189: from the maps filled by the two loops to the response. *)
Definition limitGraph (maxNodes : Q) (nodeMap : JsMap NodeValue)
           (pageEdges : JsMap Q) : Response :=
  let limitedNodes := slice0 maxNodes (map_values nodeMap) in
  let allowed := map nodeId limitedNodes in
  let edges :=
    slice0 (Qmax 20 (maxNodes * 2))
      (sortByWeight
         (filter (fun e => allowedHas (GraphEdge.source e) allowed
                           && allowedHas (GraphEdge.target e) allowed)
                 (map edgeOfEntry pageEdges))) in
  let degree := degreeMap edges in
  Json200 (map (resize degree) limitedNodes) edges.

(** The two probe loops, lines 117-163. *)
Definition syntheticQueries (seed : VectorCacheEntry.t) : list string :=
  [ VectorCacheEntry.pageTitle seed;
    match VectorCacheEntry.spaceKey seed with
    | Some k => if truthy k
                then (VectorCacheEntry.pageTitle seed ++ " " ++ k)%string
                else VectorCacheEntry.pageTitle seed
    | None => VectorCacheEntry.pageTitle seed
    end ].

Definition search (q : option string) (k : Q) : M GraphEvent (list Hit.t) :=
  call (StoreSearch q k) (fun i => store_search i q k).

Definition expandLoop (topK threshold : Q) (seed : VectorCacheEntry.t)
  : JsMap Q * JsMap NodeValue -> M GraphEvent (JsMap Q * JsMap NodeValue) :=
  forOf (syntheticQueries seed)
    (fun st q =>
       (results <- search (Some q) topK ;;
        ret (fold_left (expandNeighbor threshold seed) results st))%monad).

Definition neighborIds (seed : VectorCacheEntry.t) (nodeMap : JsMap NodeValue)
  : list string :=
  slice0 10
    (filter (fun id => negb (String.eqb id (VectorCacheEntry.pageId seed)))
            (map_keys nodeMap)).

Definition egoLoop (topK threshold : Q) (seed : VectorCacheEntry.t)
           (nodeMap : JsMap NodeValue) : JsMap Q -> M GraphEvent (JsMap Q) :=
  forOf (neighborIds seed nodeMap)
    (fun pageEdges neighborId =>
       match getProperty pages neighborId with
       | Undefined => ret pageEdges
       | neighborCache =>
           (results <- search (propertyTitle neighborCache)
                              (Qmax 3 (inject_Z (Qfloor (topK / 2)))) ;;
            ret (fold_left (connectNeighbor threshold nodeMap neighborId)
                           results pageEdges))%monad
       end).

(** The [try] block once the parameters are parsed. *)
Definition buildGraph (seedPageId : option string)
           (maxSeeds topK threshold maxNodes : Q) : M GraphEvent Response :=
  match seedPageId with
  | None | Some EmptyString =>
      let pageEntries := slice0 (Qmin maxNodes 25) (map_values pages) in
      ret (Json200 (map (fun p => Node (nodeOfEntry p)) pageEntries) [])
  | Some seedId =>
      match getProperty pages seedId with
      | Undefined => ret (Json404 "seedPageId not found in vector cache")
      | Inherited =>
          (* [seed.chunkIds] is [undefined] *)
          (call GetPineconeStore getPineconeStore ;;;
           throw "Cannot read properties of undefined (reading 'slice')")%monad
      | Own seed =>
          (call GetPineconeStore getPineconeStore ;;;
           let seedChunkIds := slice0 maxSeeds (VectorCacheEntry.chunkIds seed) in
           let nodeMap0 : JsMap NodeValue :=
             map_set (VectorCacheEntry.pageId seed) (Node (nodeOfEntry seed)) [] in
           st <- expandLoop topK threshold seed ([], nodeMap0) ;;
           let '(pageEdges, nodeMap) := st in
           pageEdges' <- egoLoop topK threshold seed nodeMap pageEdges ;;
           ret (limitGraph maxNodes nodeMap pageEdges'))%monad
      end
  end.

(** The handler: parameters, [try] and [catch]. *)
Definition GET (searchParams : SearchParams.t) (log : list GraphEvent)
  : Response * list GraphEvent :=
  let seedPageId := SearchParams.seedPageId searchParams in
  let maxSeeds := parseNumber (SearchParams.maxSeeds searchParams) 5 in
  let topK := parseNumber (SearchParams.topK searchParams) 5 in
  let threshold := parseFloatInRange (SearchParams.threshold searchParams) (25 # 100) 0 1 in
  let maxNodes := parseNumber (SearchParams.maxNodes searchParams) 50 in
  match buildGraph seedPageId maxSeeds topK threshold maxNodes log with
  | (inr response, log') => (response, log')
  | (inl message, log') => (Json500 message, log')
  end.
End Graph.

(* ================================================================= *)
(** ** The graph view *)

(** The component reads the response of the graph route after a trip
    through JSON, in which a node built from an inherited member keeps
    [size: null] alone: it is [Untyped] here too, with [id] and [label]
    [undefined].  The positions of the layout, which go through [Math.cos]
    and [Math.sin], are not modelled. *)

(** The query string built by [fetchData]. *)
Definition graphViewRequest (seedPageId : option string) : SearchParams.t :=
  SearchParams.mk
    (match seedPageId with
     | Some s => if truthy s then Some s else None
     | None => None
     end)
    None (Some "6") None (Some "60").

(** [nodes.find((n) => n.id === id)]. *)
Definition findNode (id : string) (nodes : list NodeValue) : option NodeValue :=
  find (fun n => match nodeId n with
                 | Some i => String.eqb i id
                 | None => false
                 end) nodes.

(** [seedPageId && nodes.find(...) ? seedPageId : nodes[0]?.id]. *)
Definition mainNodeId (seedPageId : option string) (nodes : list NodeValue)
  : option string :=
  let first := match nodes with n :: _ => nodeId n | [] => None end in
  match seedPageId with
  | Some s =>
      if truthy s
      then match findNode s nodes with Some _ => Some s | None => first end
      else first
  | None => first
  end.

(** [n.id === mainNodeId], both possibly [undefined]. *)
Definition isMainNode (main : option string) (n : NodeValue) : bool :=
  match nodeId n, main with
  | Some i, Some m => String.eqb i m
  | None, None => true
  | _, _ => false
  end.

(** [Math.max(15, Math.min(30, n.size))], where [null] counts as 0. *)
Definition nodeRadius (n : NodeValue) : Q :=
  Qmax 15 (Qmin 30 (match n with Node g => GraphNode.size g | Untyped => 0 end)).

(** [Math.min(0.8, 0.3 + e.weight)] and [Math.max(1, e.weight * 2)]. *)
Definition edgeOpacity (e : GraphEdge.t) : Q :=
  Qmin (8 # 10) ((3 # 10) + GraphEdge.weight e).

Definition edgeStrokeWidth (e : GraphEdge.t) : Q :=
  Qmax 1 (GraphEdge.weight e * 2).

(** The edges for which a line is drawn: both ends are found. *)
Definition drawnEdges (nodes : list NodeValue) (edges : list GraphEdge.t)
  : list GraphEdge.t :=
  filter (fun e => match findNode (GraphEdge.source e) nodes,
                         findNode (GraphEdge.target e) nodes with
                   | Some _, Some _ => true
                   | _, _ => false
                   end) edges.

(* ================================================================= *)
(** ** The chat window *)

(** The three ways to send: the form's [handleSubmit], [Enter] without
    [Shift] in the text area, and the click on the send button.  Each
    returns the new content of the input and the message passed to
    [sendMessage], if any. *)
Definition handleSubmit (input : string) (isLoading : bool)
  : string * option string :=
  if negb (truthy (trim input)) || isLoading then (input, None)
  else let messageToSend := trim input in (EmptyString, Some messageToSend).

Definition onKeyDown (key : string) (shiftKey : bool) (input : string)
           (isLoading : bool) : string * option string :=
  if String.eqb key "Enter" && negb shiftKey
  then if truthy (trim input) && negb isLoading
       then let messageToSend := trim input in (EmptyString, Some messageToSend)
       else (input, None)
  else (input, None).

Definition onClick (input : string) (isLoading : bool) : string * option string :=
  if truthy (trim input) && negb isLoading
  then let messageToSend := trim input in (EmptyString, Some messageToSend)
  else (input, None).

(* ================================================================= *)
(** ** The related documents *)

(** A reference as read from the metadata of the answer stream, and a
    related page as shown. *)
Module StreamReference.
Record t := mk {
  pageId : option string;
  id : option string;
  title : option string;
  label : option string;
  score : option Q }.
End StreamReference.

Module RelatedPage.
Record t := mk {
  pageId : option string;
  title : option string;
  score : Q;
  content : string }.
End RelatedPage.

(** [a || b] on strings that may be [undefined]. *)
Definition orElse (a b : option string) : option string :=
  match a with
  | Some s => if truthy s then a else b
  | None => b
  end.

(** [ref.score || 0.5]. *)
Definition scoreOr (score : option Q) (d : Q) : Q :=
  match score with
  | Some q => if Qeq_bool q 0 then d else q
  | None => d
  end.

Definition relatedFromReferences (references : list StreamReference.t)
  : list RelatedPage.t :=
  map (fun ref =>
         RelatedPage.mk
           (orElse (StreamReference.pageId ref) (StreamReference.id ref))
           (orElse (StreamReference.title ref) (StreamReference.label ref))
           (scoreOr (StreamReference.score ref) (5 # 10))
           "文档包含相关信息")
      (slice0 5 references).

(** [`文档包含 ${node.chunkCount} 个知识块`]. *)
Definition nodeContent (n : NodeValue) : string :=
  ("文档包含 "
   ++ match n with
      | Node g => showNat (GraphNode.chunkCount g)
      | Untyped => "undefined"
      end
   ++ " 个知识块")%string.

Definition relatedFromNodes (nodes : list NodeValue) : list RelatedPage.t :=
  map (fun node =>
         RelatedPage.mk
           (nodeId node)
           (match node with Node g => Some (GraphNode.label g) | Untyped => None end)
           (5 # 10)
           (nodeContent node))
      (slice0 5 nodes).

(** The request of the fallback, [/api/graph?maxNodes=5]. *)
Definition fallbackRequest : SearchParams.t :=
  SearchParams.mk None None None None (Some "5").

(** The seed handed to the graph view, [relatedPages[0].pageId]; the view
    is rendered only when there is a related page. *)
Definition viewSeed (relatedPages : list RelatedPage.t) : option (option string) :=
  match relatedPages with
  | p :: _ => Some (RelatedPage.pageId p)
  | [] => None
  end.

(* ================================================================= *)
(** ** The message bubble and the graph page *)

(** The [isStreaming] computed by the chat window for the message at
    [index] among [count] messages. *)
Definition isStreamingAt (isLoading : bool) (count index : nat) (role : string)
  : bool :=
  isLoading && (index =? count - 1)%nat && String.eqb role "assistant".

(** The two props that [defaultRenderMessage], and the [renderMessage] of
    the QA page, hand to the bubble. *)
Definition bubbleIsStreaming (isStreaming : bool) (role : string) : bool :=
  isStreaming && String.eqb role "assistant".

Definition bubbleShowRelatedDocuments (isStreaming : bool) (role : string) : bool :=
  String.eqb role "assistant" && negb isStreaming.

(** What the bubble renders beside the text: the cursor, the related
    documents and the action bar; none of them for a user message. *)
Definition rendersCursor (role : string) (isStreaming : bool) : bool :=
  if String.eqb role "user" then false else isStreaming.

Definition rendersRelatedDocuments (role : string)
           (isStreaming showRelatedDocuments : bool) : bool :=
  if String.eqb role "user" then false
  else negb isStreaming && showRelatedDocuments.

Definition rendersActions (role : string) (isStreaming : bool) : bool :=
  if String.eqb role "user" then false else negb isStreaming.

(** The bubble of the message at [index], as the chat window renders it. *)
Definition relatedDocumentsAt (isLoading : bool) (count index : nat)
           (role : string) : bool :=
  let isStreaming := isStreamingAt isLoading count index role in
  rendersRelatedDocuments role (bubbleIsStreaming isStreaming role)
                          (bubbleShowRelatedDocuments isStreaming role).

Definition cursorAt (isLoading : bool) (count index : nat) (role : string) : bool :=
  rendersCursor role
    (bubbleIsStreaming (isStreamingAt isLoading count index role) role).

(** [RelatedDocuments] fetches only for a query that is not blank. *)
Definition fetchesRelated (query : string) : bool := truthy (trim query).

(** The seed that the graph page hands to the view, [seedPageId || undefined]. *)
Definition graphPageSeed (input : string) : option string :=
  if truthy input then Some input else None.

(* ================================================================= *)
(** ** Notions used by the properties *)

(** The rest of a string after the white-space character it starts with,
    if it starts with one. *)
Definition stripWhiteSpace (s : string) : option string :=
  match s with
  | EmptyString => None
  | String a r1 =>
      if whiteSpace (utf8_1 a) then Some r1
      else match r1 with
           | EmptyString => None
           | String b r2 =>
               if whiteSpace (utf8_2 a b) then Some r2
               else match r2 with
                    | EmptyString => None
                    | String c r3 =>
                        if whiteSpace (utf8_3 a b c) then Some r3 else None
                    end
           end
  end.

(** A result list ranked by the vector store: scores never increase. *)
Definition ranked (rawResults : list SearchResult.t) : Prop :=
  Sorted (fun a b => SearchResult.score b <= SearchResult.score a) rawResults.

Definition chunkId (r : SearchResult.t) : string := Chunk.id (SearchResult.chunk r).

(** The distinct elements of a list, each at its first occurrence. *)
Fixpoint distinct (ks : list string) : list string :=
  match ks with
  | [] => []
  | k :: r => k :: filter (fun x => negb (String.eqb x k)) (distinct r)
  end.

(** The first result of a list filed under the key [k]. *)
Definition firstWithKey (k : string) (results : list SearchResult.t)
  : option SearchResult.t :=
  find (fun r => String.eqb (referenceKey r) k) results.

(** The keys met so far, in the order met. *)
Definition addKey (keys : list string) (k : string) : list string :=
  if set_has k keys then keys else keys ++ [k].

(** The reference allocated for [result] under the index [i]. *)
Definition referenceOf (i : nat) (result : SearchResult.t) : AnswerReferences.t :=
  AnswerReferences.mk i
    (Chunk.title (SearchResult.chunk result))
    (Chunk.sourceUrl (SearchResult.chunk result))
    (Some (SearchResult.score result))
    (Some (referenceKey result)).

(** What holds of the locals of [buildContext] once the results [done] have
    been visited, [keys] being the keys met so far. *)
Record ContextInv (keys : list string) (done : list SearchResult.t)
       (st : ContextState) : Prop := {
  inv_seen : snd st = combine keys (seq 1 (List.length keys));
  inv_keys : map AnswerReferences.pageId (fst st) = map Some keys;
  inv_index : map AnswerReferences.index (fst st) = seq 1 (List.length keys);
  inv_first : forall ref, In ref (fst st) ->
     exists r, firstWithKey (referenceKey r) done = Some r
               /\ ref = referenceOf (AnswerReferences.index ref) r;
  inv_done : forall k, In k keys <-> In k (map referenceKey done) }.

(** An id without bar is read back from a key as it was written. *)
Definition barFree (s : string) : Prop := split "|"%char s = [s].

(** The score read from a hit, [r.score ?? 0]. *)
Definition hitScore (r : Hit.t) : Q := nullish (Hit.score r) 0.

(** Heavier edges first. *)
Definition heavierFirst (a b : GraphEdge.t) : Prop :=
  GraphEdge.weight b <= GraphEdge.weight a.

(** The number of ends that the edges of a list have at the page [id]. *)
Definition finalDegree (edges : list GraphEdge.t) (id : string) : nat :=
  List.length (filter (fun e => String.eqb (GraphEdge.source e) id) edges)
  + List.length (filter (fun e => String.eqb (GraphEdge.target e) id) edges).

(** The fields of a node other than its size. *)
Definition unsized (v : NodeValue) : option (string * string * nat * option string) :=
  match v with
  | Node n => Some (GraphNode.id n, GraphNode.label n,
                    GraphNode.chunkCount n, GraphNode.spaceKey n)
  | Untyped => None
  end.

(** Both ends of the edge are nodes of the list. *)
Definition joins (nodes : list NodeValue) (e : GraphEdge.t) : bool :=
  allowedHas (GraphEdge.source e) (map nodeId nodes)
  && allowedHas (GraphEdge.target e) (map nodeId nodes).

(** The size the route gives to a node of degree [d]. *)
Definition sizeFor (log10 : Q -> Q) (d chunkCount : nat) : Q :=
  Qmin 18 (Qmax 6 (ofNat d + log10 (ofNat chunkCount + 1) * 2)).

(** The searches for [queries], made one after the other from the [i]-th
    event on, are answered with [answers]. *)
Fixpoint answered (store_search : nat -> option string -> Q -> string + list Hit.t)
         (i : nat) (queries : list (option string)) (k : Q)
         (answers : list (list Hit.t)) : Prop :=
  match queries, answers with
  | [], [] => True
  | q :: queries', hits :: answers' =>
      store_search i q k = inr hits
      /\ answered store_search (S i) queries' k answers'
  | _, _ => False
  end.

(** The neighbours that the second loop probes: those for which the cache
    object reads a truthy value. *)
Definition probed (pages : Pages) (ids : list string) : list string :=
  filter (fun id => match getProperty pages id with
                    | Undefined => false
                    | _ => true
                    end) ids.

(** The maps left by the two loops, given the hits of each probe. *)
Definition expanded (pages : Pages) (threshold : Q) (seed : VectorCacheEntry.t)
           (answers : list (list Hit.t)) : JsMap Q * JsMap NodeValue :=
  fold_left (fun st hits => fold_left (expandNeighbor pages threshold seed) hits st)
            answers
            ([], [(VectorCacheEntry.pageId seed, Node (nodeOfEntry seed))]).

Definition connected (threshold : Q) (nodeMap : JsMap NodeValue)
           (probes : list (string * list Hit.t)) (pageEdges : JsMap Q) : JsMap Q :=
  fold_left (fun pe p => fold_left (connectNeighbor threshold nodeMap (fst p))
                                   (snd p) pe)
            probes pageEdges.

(** No event of [evs] is a remote call. *)
Definition local {Messages : Type} (evs : list (Event Messages)) : Prop :=
  Forall (fun ev => isRemoteCall ev = false) evs.

(** The message with which the call logged as the [i]-th event failed. *)
Definition failure (getPineconeStore : nat -> string + unit)
           (store_search : nat -> option string -> Q -> string + list Hit.t)
           (ev : GraphEvent) (i : nat) : option string :=
  match ev with
  | GetPineconeStore =>
      match getPineconeStore i with inl m => Some m | inr _ => None end
  | StoreSearch q k =>
      match store_search i q k with inl m => Some m | inr _ => None end
  end.

(** A run from [log] only appends events, and a failed call is the last
    event of the run, whose outcome is the error of that call. *)
Definition abortsOnFailure (getPineconeStore : nat -> string + unit)
           (store_search : nat -> option string -> Q -> string + list Hit.t)
           {A} (log : list GraphEvent)
           (out : (string + A) * list GraphEvent) : Prop :=
  (exists evs, snd out = log ++ evs)
  /\ forall i ev m,
       nth_error (snd out) i = Some ev -> (List.length log <= i)%nat ->
       failure getPineconeStore store_search ev i = Some m ->
       fst out = inl m /\ List.length (snd out) = S i.

(** Every call is answered, and a run returns a value that satisfies [P]. *)
Definition allAnswer (getPineconeStore : nat -> string + unit)
           (store_search : nat -> option string -> Q -> string + list Hit.t)
  : Prop :=
  (forall i, exists u, getPineconeStore i = inr u)
  /\ (forall i q k, exists hits, store_search i q k = inr hits).

Definition returnsWith {A} (P : A -> Prop)
           (out : (string + A) * list GraphEvent) : Prop :=
  exists a, fst out = inr a /\ P a.

(** A run from [log] appends events that all satisfy [P]. *)
Definition emitsOnly {A} (P : GraphEvent -> Prop) (log : list GraphEvent)
           (out : (string + A) * list GraphEvent) : Prop :=
  exists evs, snd out = log ++ evs /\ Forall P evs.

(** The events of a build for the cached page [seed]: the request for the
    store, and searches for a synthetic query of the seed or for the title
    read from the cache under some page id. *)
Definition buildEvent (pages : Pages) (seed : VectorCacheEntry.t)
           (ev : GraphEvent) : Prop :=
  match ev with
  | GetPineconeStore => True
  | StoreSearch q _ =>
      (exists t, In t (syntheticQueries seed) /\ q = Some t)
      \/ (exists id, q = propertyTitle (getProperty pages id))
  end.

(** The remote calls of a log, in order. *)
Definition remoteCalls {Messages : Type} (log : list (Event Messages))
  : list (Event Messages) :=
  filter isRemoteCall log.

(** The sentence that stands for an empty completion. *)
Definition NO_ANSWER : string :=
  "I do not have enough information to answer that.".

(** The place of a key in a list of keys, counted from 1; one past the end
    for a key that is not there. *)
Fixpoint keyIndex (keys : list string) (k : string) : nat :=
  match keys with
  | [] => 1
  | k0 :: r => if String.eqb k k0 then 1 else S (keyIndex r k)
  end.

(** A request without seed: the parameter is absent or empty. *)
Definition seedless (params : SearchParams.t) : Prop :=
  SearchParams.seedPageId params = None
  \/ SearchParams.seedPageId params = Some EmptyString.

(** The ids of the nodes of a list that have one. *)
Definition nodeIds (nodes : list NodeValue) : list string :=
  flat_map (fun v => match nodeId v with Some i => [i] | None => [] end) nodes.

(** A cache whose entries are filed under their own page id, once each. *)
Definition wellFormed (pages : Pages) : Prop :=
  NoDup (map_keys pages)
  /\ Forall (fun ke => VectorCacheEntry.pageId (snd ke) = fst ke) pages.

(** A value of [nodeMap] filed under the id it shows, if it shows one. *)
Definition filedUnderId (kv : string * NodeValue) : Prop :=
  nodeId (snd kv) = Some (fst kv) \/ snd kv = Untyped.

(** A run from [log] appends at most [n] events. *)
Definition emitsAtMost {A} (n : nat) (log : list GraphEvent)
           (out : (string + A) * list GraphEvent) : Prop :=
  exists evs, snd out = log ++ evs /\ (List.length evs <= n)%nat.

(* ================================================================= *)
(** ** Inputs on which the programs are run *)

(** Stand-ins for [Number] and [Math.log10] with which examples are run:
    the first reads unsigned decimal numerals, the second is exact on the
    powers of ten (it counts the digits of the integer part). *)
Definition decimalNumber (s : string) : option Q :=
  match NilEmpty.uint_of_string s with
  | Some u => Some (inject_Z (Z.of_uint u))
  | None => None
  end.

Definition wholeLog10 (x : Q) : Q :=
  match Qfloor x with
  | Zpos p => ofNat (Decimal.nb_digits (Pos.to_uint p) - 1)
  | _ => 0
  end.

Definition examplePage (id title : string) (chunkCount : nat)
  : string * VectorCacheEntry.t :=
  (id, VectorCacheEntry.mk id title None chunkCount []).

Definition twoPages : Pages :=
  [ examplePage "S" "Seed" 4; examplePage "N" "Neighbour" 3 ].

Definition seedRequest (seed : string) : SearchParams.t :=
  SearchParams.mk (Some seed) None None None None.

(** The two synthetic queries are the second and third events; both return
    the neighbour, with scores 0.5 and 0.4; its own probe returns nothing. *)
Definition sameNeighbourTwice (i : nat) (q : option string) (k : Q)
  : string + list Hit.t :=
  match i with
  | 1%nat => inr [Hit.mk "N" (Some (5 # 10))]
  | 2%nat => inr [Hit.mk "N" (Some (4 # 10))]
  | _ => inr []
  end.

Definition storeReady (i : nat) : string + unit := inr tt.

(** *** An engine with threshold 0.75 and fallback threshold 0.6 *)

Definition ExampleMessages : Type := list (string * string).

Definition exampleBuildMessages (question : string) (chatHistory : option string)
           (instructions : string) (contextSections : list (string * string))
  : ExampleMessages :=
  ("instructions", instructions) :: ("question", question) :: contextSections.

Definition exampleResult (id page : string) (score : Q) : SearchResult.t :=
  SearchResult.mk
    (Chunk.mk id (Some page) ("Page " ++ page) None None None None ("Text " ++ id))
    score.

(** Raw scores [0.4, 0.3]: below both thresholds. *)
Definition weakResults : list SearchResult.t :=
  [ exampleResult "c1" "p1" (4 # 10); exampleResult "c2" "p2" (3 # 10) ].

(** Raw scores [0.9, 0.6, 0.3], the first and the last of one page. *)
Definition mixedResults : list SearchResult.t :=
  [ exampleResult "c1" "p1" (9 # 10); exampleResult "c2" "p2" (6 # 10);
    exampleResult "c3" "p1" (3 # 10) ].

Definition storeReturning (raw : list SearchResult.t)
           (i : nat) (query : string) (k : Q) : string + list SearchResult.t :=
  inr raw.

Definition exampleCompletion (i : nat) (messages : ExampleMessages)
           (temperature : Q) (provider : string) : string + string :=
  inr "An answer.".

Definition exampleStream (i : nat) (messages : ExampleMessages)
           (temperature : Q) (provider : string) : string + list string :=
  inr ["An "; "answer."].

Definition examplePrepare (raw : list SearchResult.t) :=
  prepare exampleBuildMessages "Instructions." false (Some (6 # 10)) 5 (75 # 100)
          (storeReturning raw).

(** *** Builds of the graph *)

(** A cache of one page of 999 chunks, and a store that finds nothing. *)
Definition lonePage : Pages := [ examplePage "S" "Seed" 999 ].

Definition noHits (i : nat) (q : option string) (k : Q) : string + list Hit.t :=
  inr [].

(** The first synthetic query finds the neighbour, the second one fails. *)
Definition secondProbeFails (i : nat) (q : option string) (k : Q)
  : string + list Hit.t :=
  match i with
  | 1%nat => inr [Hit.mk "N" (Some (5 # 10))]
  | 2%nat => inl "upstream unavailable"
  | _ => inr []
  end.

(** A cache of three pages, and a store that finds the pages [A] and [B]
    for the seed, [B] for the page [A] with the score 0.8, and [A] for the
    page [B] with the score 0.6. *)
Definition threePages : Pages :=
  [ examplePage "S" "Seed" 4; examplePage "A" "Alpha" 3; examplePage "B" "Beta" 2 ].

Definition crossProbes (i : nat) (q : option string) (k : Q)
  : string + list Hit.t :=
  match i with
  | 1%nat => inr [Hit.mk "A" (Some (5 # 10)); Hit.mk "B" (Some (5 # 10))]
  | 3%nat => inr [Hit.mk "B" (Some (8 # 10))]
  | 4%nat => inr [Hit.mk "A" (Some (6 # 10))]
  | _ => inr []
  end.

(** *** Stores that fail *)

Definition storeFailing (i : nat) (query : string) (k : Q)
  : string + list SearchResult.t :=
  inl "index unavailable".

Definition storeDown (i : nat) : string + unit := inl "store unavailable".

(** A cache of thirty pages, filed under the ids [p0] to [p29]. *)
Definition manyPages : Pages :=
  map (fun i => examplePage ("p" ++ showNat i) ("Page " ++ showNat i) i) (seq 0 30).

(* ================================================================= *)
(** ** Properties of the retrieval policy *)

Lemma length_zero_nil {A} (l : list A) : (List.length l =? 0)%nat = true <-> l = [].
Proof.
  destruct l; simpl; split; intro H; try reflexivity; discriminate.
Qed.

Lemma length_pos_cons {A} (l : list A) : (0 <? List.length l)%nat = true <-> l <> [].
Proof.
  destruct l; simpl; split; intro H; try discriminate; try congruence.
  reflexivity.
Qed.

Lemma geq_le (a b : Q) : geq a b = true <-> b <= a.
Proof. unfold geq. apply Qle_bool_iff. Qed.

Lemma lt_Qlt (a b : Q) : lt a b = true <-> a < b.
Proof.
  unfold lt. rewrite negb_true_iff. split; intro H.
  - apply Qnot_le_lt. intro L. apply Qle_bool_iff in L. congruence.
  - destruct (Qle_bool b a) eqn:E; [|reflexivity].
    apply Qle_bool_iff in E. exfalso. exact (Qlt_not_le _ _ H E).
Qed.

Lemma fallbackThresholdValid_iff (F : option Q) :
  fallbackThresholdValid F = true <-> exists f, F = Some f /\ 0 < f /\ f < 1.
Proof.
  unfold fallbackThresholdValid. destruct F as [f|].
  - rewrite andb_true_iff, !lt_Qlt. split.
    + intros [H0 H1]. exists f. auto.
    + intros (f' & E & H0 & H1). inversion E; subst. auto.
  - split; [discriminate|]. intros (f & E & _). discriminate.
Qed.

Lemma ranked_head_max (top : SearchResult.t) (rest : list SearchResult.t) :
  ranked (top :: rest) ->
  forall r, In r (top :: rest) -> SearchResult.score r <= SearchResult.score top.
Proof.
  intros H r Hin.
  apply Sorted_StronglySorted in H.
  - inversion H as [|? ? _ Hall]; subst.
    destruct Hin as [<- | Hin]; [apply Qle_refl|].
    rewrite Forall_forall in Hall. auto.
  - intros a b c Hab Hbc. eapply Qle_trans; eauto.
Qed.

(** The three outcomes of the filtering block. *)
Lemma relevantResults_primary (thr : Q) (F : option Q) (raw : list SearchResult.t) :
  filter (fun r => geq (SearchResult.score r) thr) raw <> [] ->
  relevantResults thr F raw =
    (filter (fun r => geq (SearchResult.score r) thr) raw, false).
Proof.
  intro H. unfold relevantResults.
  destruct (List.length _ =? 0)%nat eqn:E; [|reflexivity].
  apply length_zero_nil in E. contradiction.
Qed.

Lemma relevantResults_invalid (thr : Q) (F : option Q) (raw : list SearchResult.t) :
  fallbackThresholdValid F = false ->
  relevantResults thr F raw =
    (filter (fun r => geq (SearchResult.score r) thr) raw, false).
Proof.
  intro H. unfold relevantResults. rewrite H, andb_false_r. reflexivity.
Qed.

Lemma relevantResults_fallback (thr : Q) (F : option Q) (raw : list SearchResult.t) :
  filter (fun r => geq (SearchResult.score r) thr) raw = [] ->
  raw <> [] ->
  fallbackThresholdValid F = true ->
  relevantResults thr F raw =
    match filter (passesFallback F) raw with
    | [] => (firstn 1 raw, true)
    | kept => (kept, true)
    end.
Proof.
  intros Hp Hraw Hv. unfold relevantResults. rewrite Hp, Hv.
  apply length_pos_cons in Hraw. rewrite Hraw. simpl.
  destruct (filter (passesFallback F) raw); reflexivity.
Qed.

Lemma relevantResults_nil (thr : Q) (F : option Q) :
  relevantResults thr F [] = ([], false).
Proof. reflexivity. Qed.

Lemma retrievalTrace_fallbackApplied (thr : Q) (F : option Q) (raw : list SearchResult.t) :
  RetrievalTrace.fallbackApplied (retrievalTrace thr F raw)
  = snd (relevantResults thr F raw).
Proof.
  unfold retrievalTrace. destruct (relevantResults thr F raw). reflexivity.
Qed.

Lemma retrievalTrace_results (thr : Q) (F : option Q) (raw : list SearchResult.t) :
  RetrievalTrace.results (retrievalTrace thr F raw)
  = traceEntries (includedIds (fst (relevantResults thr F raw))) 0 raw.
Proof.
  unfold retrievalTrace. destruct (relevantResults thr F raw). reflexivity.
Qed.

(* ================================================================= *)
(** ** Properties of the engine's preparation step *)

Ltac by_cases_of_bytes :=
  repeat (match goal with
          | |- context [if ?t then _ else _] => destruct t
          end; try reflexivity).

Lemma trimStart_strip s :
  trimStart s = match stripWhiteSpace s with
                | Some r => trimStart r
                | None => s
                end.
Proof.
  destruct s as [|a [|b [|c r]]]; simpl; try reflexivity; by_cases_of_bytes.
Qed.

Lemma blank_strip s :
  blank s = match stripWhiteSpace s with
            | Some r => blank r
            | None => negb (truthy s)
            end.
Proof.
  destruct s as [|a [|b [|c r]]]; simpl; try reflexivity; by_cases_of_bytes.
Qed.

Lemma strip_shorter s r :
  stripWhiteSpace s = Some r -> (String.length r < String.length s)%nat.
Proof.
  destruct s as [|a [|b [|c r3]]]; simpl;
    repeat (match goal with |- context [if ?t then _ else _] => destruct t end);
    intro H; inversion H; subst; simpl; lia.
Qed.

Lemma strip_app s r t :
  stripWhiteSpace s = Some r ->
  stripWhiteSpace (s ++ t)%string = Some (r ++ t)%string.
Proof.
  destruct s as [|a [|b [|c r3]]]; simpl;
    repeat (match goal with |- context [if ?t then _ else _] => destruct t end);
    intro H; inversion H; subst; reflexivity.
Qed.

(** Induction on the length of a string. *)
Lemma by_length (P : string -> Prop) :
  (forall s, (forall r, (String.length r < String.length s)%nat -> P r) -> P s) ->
  forall s, P s.
Proof.
  intros H s.
  assert (G : forall n r, (String.length r < n)%nat -> P r).
  { induction n as [|n IH]; intros r Hr; [lia|].
    apply H. intros r' Hr'. apply IH. lia. }
  apply (G (S (String.length s))). lia.
Qed.

(** What [trimStart] returns starts with no white space. *)
Lemma strip_trimStart s : stripWhiteSpace (trimStart s) = None.
Proof.
  induction s as [s IH] using by_length.
  rewrite trimStart_strip.
  destruct (stripWhiteSpace s) as [r|] eqn:E; [|exact E].
  apply IH. exact (strip_shorter s r E).
Qed.

Lemma blank_trimStart (s : string) : blank (trimStart s) = blank s.
Proof.
  induction s as [s IH] using by_length.
  rewrite (trimStart_strip s), (blank_strip s).
  destruct (stripWhiteSpace s) as [r|] eqn:E.
  - apply IH. exact (strip_shorter s r E).
  - rewrite blank_strip, E. reflexivity.
Qed.

Lemma trimEnd_cons a r :
  trimEnd (String a r)
  = if blank (String a r) then EmptyString else String a (trimEnd r).
Proof. reflexivity. Qed.

Lemma trimEnd_empty (s : string) : trimEnd s = EmptyString <-> blank s = true.
Proof.
  destruct s as [|a r]; [split; reflexivity|].
  rewrite trimEnd_cons. destruct (blank (String a r)); split; try reflexivity;
    discriminate.
Qed.

Lemma trim_empty (s : string) : trim s = EmptyString <-> blank s = true.
Proof. unfold trim. rewrite trimEnd_empty, blank_trimStart. reflexivity. Qed.

Lemma truthy_trim (s : string) : truthy (trim s) = negb (blank s).
Proof.
  destruct (blank s) eqn:E; simpl.
  - apply trim_empty in E. rewrite E. reflexivity.
  - destruct (trim s) eqn:T; [|reflexivity].
    apply trim_empty in T. congruence.
Qed.

Lemma buildContext_nil : buildContext [] = (EmptyString, []).
Proof. reflexivity. Qed.

Section QAEngineProperties.
Variable Messages : Type.
Variable buildProviderMessages :
  string -> option string -> string -> list (string * string) -> Messages.
Variable QA_USER_PROMPT_INSTRUCTIONS : string.
Variable resolveProvider : string -> string.
Variable Stream : Type.
Variable TRACE_RETRIEVAL : bool.
Variable FALLBACK_SIMILARITY_THRESHOLD : option Q.
Variable topK : Q.
Variable defaultProvider : string.
Variable similarityThreshold : Q.
Variable store_search : nat -> string -> Q -> string + list SearchResult.t.
Variable chatCompletion : nat -> Messages -> Q -> string -> string + string.
Variable chatCompletionStream : nat -> Messages -> Q -> string -> string + Stream.

Local Abbreviation prepare' :=
  (prepare buildProviderMessages QA_USER_PROMPT_INSTRUCTIONS TRACE_RETRIEVAL
           FALLBACK_SIMILARITY_THRESHOLD topK similarityThreshold store_search).
Local Abbreviation used raw :=
  (fst (relevantResults similarityThreshold FALLBACK_SIMILARITY_THRESHOLD raw)).
Local Abbreviation trace raw :=
  (retrievalTrace similarityThreshold FALLBACK_SIMILARITY_THRESHOLD raw).

Lemma prepare_blank question chatHistory meta log :
  blank question = true ->
  prepare' question chatHistory meta log = (inl "Question must not be empty", log).
Proof.
  intro H. unfold prepare. rewrite truthy_trim, H. reflexivity.
Qed.

Lemma prepare_search_fails question chatHistory meta log e :
  blank question = false ->
  store_search (List.length log) question topK = inl e ->
  prepare' question chatHistory meta log = (inl e, log ++ [Search Messages question topK]).
Proof.
  intros H S. unfold prepare. rewrite truthy_trim, H. simpl.
  unfold bind, call. rewrite S. reflexivity.
Qed.

Lemma prepare_returns question chatHistory meta log raw :
  blank question = false ->
  store_search (List.length log) question topK = inr raw ->
  exists p evs,
    prepare' question chatHistory meta log
      = (inr p, log ++ Search Messages question topK :: evs)
    /\ local evs
    /\ references p = snd (buildContext (used raw))
    /\ preparedTrace p = trace raw.
Proof.
  intros H S. unfold prepare. rewrite truthy_trim, H. simpl.
  unfold bind at 1. unfold call at 1. rewrite S.
  destruct (relevantResults similarityThreshold FALLBACK_SIMILARITY_THRESHOLD raw)
    as [relevant applied] eqn:R. simpl fst.
  destruct TRACE_RETRIEVAL;
    (destruct (List.length relevant =? 0)%nat eqn:L;
     [ apply length_zero_nil in L; subst relevant
     | destruct (buildContext relevant) as [context refs] eqn:B ]);
    unfold bind, emit, ret; simpl;
    eexists; eexists;
    (split; [ rewrite <- !app_assoc; simpl; reflexivity | ]);
    (split; [ repeat constructor | ]);
    simpl; try rewrite B; split; reflexivity.
Qed.

(** C1.  Whenever the vector search answers a non-blank question with the
    raw list [raw], [prepare] returns, and the results it builds the answer
    from ([kept], whose context gives the references) are: the results
    with score >= [similarityThreshold] when there are some; otherwise, if
    [raw] is non-empty and a fallback threshold strictly between 0 and 1 is
    configured, the results with score >= that threshold when there are
    some, and else exactly the first raw result, which is a highest-scoring
    one of a ranked list; [fallbackApplied] is true in both fallback
    branches; without a valid fallback threshold the first filter stands;
    an empty [raw] gives no results and [fallbackApplied] false. *)
Theorem C1_retrieval_policy question chatHistory meta log raw :
  blank question = false ->
  store_search (List.length log) question topK = inr raw ->
  let kept := fst (relevantResults similarityThreshold FALLBACK_SIMILARITY_THRESHOLD raw) in
  exists p evs,
    prepare buildProviderMessages QA_USER_PROMPT_INSTRUCTIONS TRACE_RETRIEVAL
            FALLBACK_SIMILARITY_THRESHOLD topK similarityThreshold store_search
            question chatHistory meta log
    = (inr p, log ++ Search Messages question topK :: evs)
    /\ references p = snd (buildContext kept)
    /\ let primary :=
         filter (fun r => geq (SearchResult.score r) similarityThreshold) raw in
       let applied := RetrievalTrace.fallbackApplied (preparedTrace p) in
       (forall r, In r primary <-> In r raw /\ similarityThreshold <= SearchResult.score r)
       /\ (primary <> [] -> kept = primary /\ applied = false)
       /\ (forall f,
             FALLBACK_SIMILARITY_THRESHOLD = Some f -> 0 < f -> f < 1 ->
             primary = [] -> raw <> [] ->
             let fallback := filter (fun r => geq (SearchResult.score r) f) raw in
             applied = true
             /\ (forall r, In r fallback <-> In r raw /\ f <= SearchResult.score r)
             /\ (fallback <> [] -> kept = fallback)
             /\ (fallback = [] ->
                 exists top rest,
                   raw = top :: rest /\ kept = [top]
                   /\ (ranked raw ->
                       forall r, In r raw ->
                         SearchResult.score r <= SearchResult.score top)))
       /\ ((forall f, FALLBACK_SIMILARITY_THRESHOLD = Some f -> 0 < f -> f < 1 -> False) ->
           kept = primary /\ applied = false)
       /\ (raw = [] -> kept = [] /\ applied = false).
Proof.
  intros Hq Hs kept. subst kept.
  destruct (prepare_returns question chatHistory meta log raw Hq Hs)
    as (p & evs & Hrun & _ & Hrefs & Htrace).
  exists p, evs. split; [exact Hrun|]. split; [exact Hrefs|].
  cbv zeta. rewrite Htrace, retrievalTrace_fallbackApplied.
  split; [|split; [|split; [|split]]].
  - intro r. rewrite filter_In, geq_le. reflexivity.
  - intro Hne. rewrite (relevantResults_primary _ _ _ Hne). split; reflexivity.
  - intros f HF H0 H1 Hnil Hraw.
    assert (Hv : fallbackThresholdValid FALLBACK_SIMILARITY_THRESHOLD = true).
    { apply fallbackThresholdValid_iff. exists f. auto. }
    rewrite (relevantResults_fallback _ _ _ Hnil Hraw Hv).
    assert (Hf : filter (passesFallback FALLBACK_SIMILARITY_THRESHOLD) raw
                 = filter (fun r => geq (SearchResult.score r) f) raw).
    { apply filter_ext. intro r. unfold passesFallback. rewrite HF. reflexivity. }
    rewrite Hf. cbv zeta.
    split; [|split; [|split]].
    + destruct (filter (fun r => geq (SearchResult.score r) f) raw); reflexivity.
    + intro r. rewrite filter_In, geq_le. reflexivity.
    + intro Hne.
      destruct (filter (fun r => geq (SearchResult.score r) f) raw);
        [congruence|reflexivity].
    + intro He. rewrite He. destruct raw as [|top rest]; [congruence|].
      exists top, rest. split; [reflexivity|]. split; [reflexivity|].
      intros Hr r Hin. exact (ranked_head_max _ _ Hr r Hin).
  - intro Hinvalid. rewrite relevantResults_invalid; [split; reflexivity|].
    destruct (fallbackThresholdValid FALLBACK_SIMILARITY_THRESHOLD) eqn:V;
      [|reflexivity].
    apply fallbackThresholdValid_iff in V. destruct V as (f & E & H0 & H1).
    exfalso. exact (Hinvalid f E H0 H1).
  - intros ->. split; reflexivity.
Qed.

Local Abbreviation answerQuestion' :=
  (answerQuestion buildProviderMessages QA_USER_PROMPT_INSTRUCTIONS resolveProvider
     TRACE_RETRIEVAL FALLBACK_SIMILARITY_THRESHOLD topK defaultProvider
     similarityThreshold store_search chatCompletion).
Local Abbreviation createStreamingCompletion' :=
  (createStreamingCompletion buildProviderMessages QA_USER_PROMPT_INSTRUCTIONS
     resolveProvider TRACE_RETRIEVAL FALLBACK_SIMILARITY_THRESHOLD topK
     defaultProvider similarityThreshold store_search chatCompletionStream).

(** C7.  For a question that is empty or made of white space only, both
    [answerQuestion] and [createStreamingCompletion] throw the input error
    and leave the event log as it was: neither the search client nor the
    model provider is called, and no response is returned. *)
Theorem C7_blank_question question chatHistory providerOverride meta log :
  blank question = true ->
  answerQuestion buildProviderMessages QA_USER_PROMPT_INSTRUCTIONS resolveProvider
      TRACE_RETRIEVAL FALLBACK_SIMILARITY_THRESHOLD topK defaultProvider
      similarityThreshold store_search chatCompletion
      question chatHistory providerOverride meta log
    = (inl "Question must not be empty", log)
  /\ createStreamingCompletion buildProviderMessages QA_USER_PROMPT_INSTRUCTIONS
      resolveProvider TRACE_RETRIEVAL FALLBACK_SIMILARITY_THRESHOLD topK
      defaultProvider similarityThreshold store_search chatCompletionStream
      question chatHistory providerOverride meta log
    = (inl "Question must not be empty", log).
Proof.
  intro H. unfold answerQuestion, createStreamingCompletion, bind.
  rewrite (prepare_blank question chatHistory meta log H). split; reflexivity.
Qed.

(** C9.  For a non-blank question answered by the vector search with [raw],
    [createStreamingCompletion] first completes [prepare], whose events are
    the search and local traces; only then is the stream requested, and the
    structure returned pairs the provider's stream handle with the
    references and the retrieval trace of [prepare], which are the
    references of [buildContext] on the results kept from [raw] and the
    trace of [raw]: neither the stream, nor the chat history, enters them. *)
Theorem C9_metadata_before_stream question chatHistory providerOverride meta log raw :
  blank question = false ->
  store_search (List.length log) question topK = inr raw ->
  let kept := fst (relevantResults similarityThreshold FALLBACK_SIMILARITY_THRESHOLD raw) in
  let rt := retrievalTrace similarityThreshold FALLBACK_SIMILARITY_THRESHOLD raw in
  exists p evs,
    let log1 := log ++ Search Messages question topK :: evs in
    let provider := resolveProvider (nullish providerOverride defaultProvider) in
    let request :=
      ChatCompletionStream Messages (messages p) DEFAULT_TEMPERATURE provider in
    prepare buildProviderMessages QA_USER_PROMPT_INSTRUCTIONS TRACE_RETRIEVAL
            FALLBACK_SIMILARITY_THRESHOLD topK similarityThreshold store_search
            question chatHistory meta log
    = (inr p, log1)
    /\ local evs
    /\ references p = snd (buildContext kept)
    /\ preparedTrace p = rt
    /\ createStreamingCompletion buildProviderMessages QA_USER_PROMPT_INSTRUCTIONS
         resolveProvider TRACE_RETRIEVAL FALLBACK_SIMILARITY_THRESHOLD topK
         defaultProvider similarityThreshold store_search chatCompletionStream
         question chatHistory providerOverride meta log
       = match chatCompletionStream (List.length log1) (messages p)
                 DEFAULT_TEMPERATURE provider with
         | inr s =>
             (inr (mkStreamingCompletion Stream (snd (buildContext kept)) s rt),
              log1 ++ [request])
         | inl e => (inl e, log1 ++ [request])
         end.
Proof.
  intros Hq Hs kept rt. subst kept rt.
  destruct (prepare_returns question chatHistory meta log raw Hq Hs)
    as (p & evs & Hrun & Hlocal & Hrefs & Htrace).
  exists p, evs. cbv zeta.
  repeat (split; [assumption|]).
  unfold createStreamingCompletion, bind. rewrite Hrun.
  unfold call. rewrite Hrefs, Htrace.
  destruct (chatCompletionStream _ _ _ _); reflexivity.
Qed.

End QAEngineProperties.

(* ================================================================= *)
(** ** Properties of the retrieval trace *)

Lemma round_to_4 (y : Q) :
  let n := Qfloor (y * 10000 + (1 # 2)) in
  - (1 # 20000) < (n # 10000) - y /\ (n # 10000) - y <= 1 # 20000.
Proof.
  intro n.
  pose proof (Qfloor_le (y * 10000 + (1 # 2))) as Hle.
  pose proof (Qlt_floor (y * 10000 + (1 # 2))) as Hlt.
  fold n in Hle, Hlt.
  rewrite (Qmake_Qdiv n 10000).
  rewrite inject_Z_plus in Hlt.
  change (inject_Z 1) with 1 in Hlt.
  change (inject_Z (Z.pos 10000)) with 10000.
  unfold Qdiv.
  assert (E : / 10000 == 1 # 10000) by reflexivity.
  rewrite E. split; lra.
Qed.

(** Below 10^21 in magnitude, [toFixed4] gives a multiple of 1/10^4 at
    distance at most half of 1/10^4. *)
Lemma toFixed4_rounds (x : Q) :
  Qabs x < inject_Z (10 ^ 21) ->
  exists n : Z, toFixed4 x == n # 10000 /\ Qabs (toFixed4 x - x) <= 1 # 20000.
Proof.
  intro Hb. unfold toFixed4.
  destruct (Qle_bool (inject_Z (10 ^ 21)) (Qabs x)) eqn:E.
  - apply Qle_bool_iff in E. exfalso. exact (Qlt_not_le _ _ Hb E).
  - destruct (Qle_bool 0 x) eqn:P.
    + exists (Qfloor (x * 10000 + (1 # 2))). split; [reflexivity|].
      destruct (round_to_4 x) as [H1 H2].
      apply Qabs_Qle_condition. split; lra.
    + exists (- Qfloor ((- x) * 10000 + (1 # 2)))%Z. split; [reflexivity|].
      destruct (round_to_4 (- x)) as [H1 H2].
      apply Qabs_Qle_condition. split; lra.
Qed.

Lemma traceEntries_length ids idx raw :
  List.length (traceEntries ids idx raw) = List.length raw.
Proof.
  revert idx. induction raw as [|r rest IH]; intro idx; simpl; [reflexivity|].
  rewrite IH. reflexivity.
Qed.

Lemma traceEntries_nth ids raw : forall idx i r,
  nth_error raw i = Some r ->
  nth_error (traceEntries ids idx raw) i =
    Some (RetrievalTraceEntry.mk (idx + i + 1) (chunkId r)
            (toFixed4 (SearchResult.score r))
            (Chunk.title (SearchResult.chunk r))
            (Chunk.heading (SearchResult.chunk r))
            (Chunk.headingPath (SearchResult.chunk r))
            (Chunk.spaceKey (SearchResult.chunk r))
            (set_has (chunkId r) ids)).
Proof.
  induction raw as [|r0 rest IH]; intros idx i r H.
  - destruct i; discriminate.
  - destruct i as [|i]; simpl in *.
    + inversion H; subst. rewrite Nat.add_0_r. reflexivity.
    + rewrite (IH (S idx) i r H).
      replace (S idx + i + 1)%nat with (idx + S i + 1)%nat by lia. reflexivity.
Qed.

Lemma set_has_includedIds x used :
  set_has x (includedIds used) = true <-> exists r, In r used /\ chunkId r = x.
Proof.
  unfold set_has, includedIds. rewrite existsb_exists. split.
  - intros (y & Hin & Heq). apply in_map_iff in Hin. destruct Hin as (r & <- & Hr).
    apply String.eqb_eq in Heq. exists r. split; [assumption|]. symmetry. exact Heq.
  - intros (r & Hr & <-). exists (chunkId r). split.
    + apply in_map_iff. exists r. split; [reflexivity|assumption].
    + apply String.eqb_refl.
Qed.

Lemma NoDup_map_injective {A B} (f : A -> B) (l : list A) :
  NoDup (map f l) -> forall a b, In a l -> In b l -> f a = f b -> a = b.
Proof.
  induction l as [|x l IH]; simpl; intros H a b Ha Hb E; [contradiction|].
  inversion H as [|? ? Hnin Hnd]; subst.
  destruct Ha as [<-|Ha], Hb as [<-|Hb]; try reflexivity.
  - exfalso. apply Hnin. rewrite E. apply in_map. assumption.
  - exfalso. apply Hnin. rewrite <- E. apply in_map. assumption.
  - apply IH; assumption.
Qed.

Lemma relevantResults_incl thr F raw :
  incl (fst (relevantResults thr F raw)) raw.
Proof.
  unfold relevantResults.
  destruct (_ && _ && _).
  - destruct (0 <? _)%nat; simpl.
    + intros r Hr. apply filter_In in Hr. tauto.
    + intros r Hr. destruct raw as [|r0 rest]; simpl in Hr; [contradiction|].
      destruct Hr as [<-|[]]. left. reflexivity.
  - simpl. intros r Hr. apply filter_In in Hr. tauto.
Qed.

(** C2.  The trace holds one entry per raw result, in raw order and
    numbered from 1; an entry carries the id and title of its result and
    its score rounded by [toFixed(4)], which below 10^21 is a multiple of
    1/10^4 within half of 1/10^4 of the score; and its [included] flag is
    true exactly when the chunk of the result is the chunk of a result kept
    by [relevantResults], whichever branch produced them: chunk ids being
    unique, exactly when the result itself is one of those kept. *)
Theorem C2_retrieval_trace thr F raw :
  let t := retrievalTrace thr F raw in
  let used := fst (relevantResults thr F raw) in
  List.length (RetrievalTrace.results t) = List.length raw
  /\ forall i r,
      nth_error raw i = Some r ->
      exists e,
        nth_error (RetrievalTrace.results t) i = Some e
        /\ RetrievalTraceEntry.index e = (i + 1)%nat
        /\ RetrievalTraceEntry.id e = chunkId r
        /\ RetrievalTraceEntry.title e = Chunk.title (SearchResult.chunk r)
        /\ RetrievalTraceEntry.score e = toFixed4 (SearchResult.score r)
        /\ (Qabs (SearchResult.score r) < inject_Z (10 ^ 21) ->
            exists n : Z,
              RetrievalTraceEntry.score e == n # 10000
              /\ Qabs (RetrievalTraceEntry.score e - SearchResult.score r)
                 <= 1 # 20000)
        /\ (RetrievalTraceEntry.included e = true <->
            exists r', In r' used /\ chunkId r' = chunkId r)
        /\ (NoDup (map chunkId raw) ->
            (RetrievalTraceEntry.included e = true <-> In r used)).
Proof.
  intros t used. subst t. rewrite retrievalTrace_results. fold used.
  split; [apply traceEntries_length|].
  intros i r Hi.
  eexists. split; [apply (traceEntries_nth _ raw 0 i r Hi)|]. simpl.
  repeat (split; [reflexivity|]).
  split; [apply toFixed4_rounds|].
  split; [apply set_has_includedIds|].
  intro Hnd. rewrite set_has_includedIds. split.
  - intros (r' & Hr' & E).
    assert (r' = r) as <-; [|assumption].
    apply (NoDup_map_injective chunkId raw Hnd); try assumption.
    + apply (relevantResults_incl thr F raw). exact Hr'.
    + eapply nth_error_In; eassumption.
  - intro Hr. exists r. split; [assumption|reflexivity].
Qed.

(* ================================================================= *)
(** ** Properties of the context assembler *)

Lemma set_has_In k keys : set_has k keys = true <-> In k keys.
Proof.
  unfold set_has. rewrite existsb_exists. split.
  - intros (y & Hy & E). apply String.eqb_eq in E. subst. assumption.
  - intro H. exists k. split; [assumption|apply String.eqb_refl].
Qed.

Lemma set_has_notIn k keys : set_has k keys = false <-> ~ In k keys.
Proof.
  rewrite <- set_has_In. destruct (set_has k keys); split; congruence.
Qed.

Lemma distinct_In ks : forall k, In k (distinct ks) <-> In k ks.
Proof.
  induction ks as [|k0 r IH]; intro k; simpl; [reflexivity|].
  rewrite filter_In, IH, negb_true_iff, String.eqb_neq.
  destruct (String.eqb_spec k k0) as [->|Hne].
  - split; auto.
  - split.
    + intros [E|[H _]]; auto.
    + intros [E|H]; [auto|]. right. split; assumption.
Qed.


Lemma filter_twice {A} (f g : A -> bool) (l : list A) :
  filter f (filter g l) = filter (fun x => g x && f x) l.
Proof.
  induction l as [|x l IH]; simpl; [reflexivity|].
  destruct (g x); simpl; [destruct (f x)|]; rewrite IH; reflexivity.
Qed.

Lemma fold_addKey keys ks :
  fold_left addKey ks keys
  = keys ++ filter (fun x => negb (set_has x keys)) (distinct ks).
Proof.
  revert keys. induction ks as [|k r IH]; intro keys; simpl.
  - rewrite app_nil_r. reflexivity.
  - rewrite IH. unfold addKey. destruct (set_has k keys) eqn:E; simpl.
    + f_equal. rewrite filter_twice. apply filter_ext. intro x.
      destruct (String.eqb_spec x k) as [->|Hne]; simpl.
      * rewrite E. reflexivity.
      * reflexivity.
    + rewrite <- app_assoc. simpl. f_equal. f_equal.
      rewrite filter_twice. apply filter_ext. intro x.
      unfold set_has. rewrite existsb_app. simpl. rewrite orb_false_r.
      rewrite negb_orb. apply andb_comm.
Qed.

Lemma fold_addKey_distinct ks : fold_left addKey ks [] = distinct ks.
Proof.
  rewrite fold_addKey. simpl. induction (distinct ks) as [|x l IH]; simpl; congruence.
Qed.

Section MapCombine.
Context {V : Type}.

Lemma map_get_combine_notin k keys : forall vs : list V,
  ~ In k keys -> map_get k (combine keys vs) = None.
Proof.
  induction keys as [|k0 r IH]; intros vs H; simpl; [reflexivity|].
  destruct vs as [|v vs]; [reflexivity|]. simpl.
  destruct (String.eqb_spec k k0) as [->|Hne].
  - exfalso. apply H. left. reflexivity.
  - apply IH. intro Hin. apply H. right. assumption.
Qed.

Lemma map_get_combine_in k keys : forall vs : list V,
  List.length vs = List.length keys -> In k keys ->
  exists v, map_get k (combine keys vs) = Some v /\ In v vs.
Proof.
  induction keys as [|k0 r IH]; intros vs L H; [contradiction|].
  destruct vs as [|v vs]; [discriminate|]. simpl.
  destruct (String.eqb_spec k k0) as [->|Hne].
  - exists v. split; [reflexivity|left; reflexivity].
  - destruct H as [E|H]; [congruence|].
    destruct (IH vs) as (w & Hw & Hin); [simpl in L; lia|assumption|].
    exists w. split; [assumption|right; assumption].
Qed.

Lemma map_set_combine_notin k (v : V) keys : forall vs : list V,
  List.length vs = List.length keys -> ~ In k keys ->
  map_set k v (combine keys vs) = combine (keys ++ [k]) (vs ++ [v]).
Proof.
  induction keys as [|k0 r IH]; intros vs L H.
  - destruct vs; [reflexivity|discriminate].
  - destruct vs as [|v0 vs]; [discriminate|]. simpl.
    destruct (String.eqb_spec k k0) as [->|Hne].
    + exfalso. apply H. left. reflexivity.
    + f_equal. apply IH; [simpl in L; lia|].
      intro Hin. apply H. right. assumption.
Qed.
End MapCombine.

Lemma firstWithKey_app_found k done r rest :
  firstWithKey k done = Some r -> firstWithKey k (done ++ rest) = Some r.
Proof.
  unfold firstWithKey. induction done as [|x l IH]; simpl; [discriminate|].
  destruct (String.eqb (referenceKey x) k); auto.
Qed.

Lemma firstWithKey_app_new done r :
  ~ In (referenceKey r) (map referenceKey done) ->
  firstWithKey (referenceKey r) (done ++ [r]) = Some r.
Proof.
  unfold firstWithKey. induction done as [|x l IH]; simpl; intro H.
  - rewrite String.eqb_refl. reflexivity.
  - destruct (String.eqb_spec (referenceKey x) (referenceKey r)) as [E|_].
    + exfalso. apply H. left. assumption.
    + apply IH. intro Hin. apply H. right. assumption.
Qed.

Lemma seq_snoc n : seq 1 (n + 1) = seq 1 n ++ [(n + 1)%nat].
Proof. rewrite Nat.add_1_r, seq_S. reflexivity. Qed.

Lemma visit_state keys done st result :
  ContextInv keys done st ->
  fst (visit st result) =
    if set_has (referenceKey result) keys then st
    else (fst st ++ [referenceOf (List.length keys + 1) result],
          map_set (referenceKey result) (List.length keys + 1)%nat (snd st)).
Proof.
  intros [Hseen Hkeys Hidx _ _]. destruct st as [refs seen]. simpl in *.
  assert (Hlen : List.length refs = List.length keys).
  { rewrite <- (length_map AnswerReferences.pageId), Hkeys. apply length_map. }
  unfold visit. rewrite Hlen.
  destruct (set_has (referenceKey result) keys) eqn:E.
  - apply set_has_In in E.
    destruct (map_get_combine_in (referenceKey result) keys (seq 1 (List.length keys)))
      as (i & Hi & Hin); [apply length_seq|assumption|].
    rewrite Hseen, Hi. apply in_seq in Hin.
    destruct i as [|i]; [lia|]. reflexivity.
  - apply set_has_notIn in E.
    rewrite Hseen, (map_get_combine_notin _ _ _ E). reflexivity.
Qed.

Lemma visit_inv keys done st result :
  ContextInv keys done st ->
  ContextInv (addKey keys (referenceKey result)) (done ++ [result])
             (fst (visit st result)).
Proof.
  intro H. rewrite (visit_state keys done st result H). unfold addKey.
  destruct H as [Hseen Hkeys Hidx Hfirst Hdone].
  destruct (set_has (referenceKey result) keys) eqn:E.
  - constructor; try assumption.
    + intros ref Hin. destruct (Hfirst ref Hin) as (r & Hr & Href).
      exists r. split; [apply firstWithKey_app_found|]; assumption.
    + intro k. rewrite map_app, in_app_iff, Hdone. simpl.
      apply set_has_In in E. apply Hdone in E. split; [tauto|].
      intros [Hk|[<-|[]]]; assumption.
  - apply set_has_notIn in E. constructor; simpl.
    + rewrite Hseen, length_app. simpl List.length. rewrite seq_snoc.
      apply map_set_combine_notin; [apply length_seq|assumption].
    + rewrite !map_app, Hkeys. reflexivity.
    + rewrite map_app, Hidx, length_app. simpl List.length. rewrite seq_snoc.
      reflexivity.
    + intros ref Hin. apply in_app_iff in Hin. destruct Hin as [Hin|[<-|[]]].
      * destruct (Hfirst ref Hin) as (r & Hr & Href).
        exists r. split; [apply firstWithKey_app_found|]; assumption.
      * exists result. split; [|reflexivity].
        apply firstWithKey_app_new. rewrite <- Hdone. assumption.
    + intro k. rewrite map_app, !in_app_iff, Hdone. simpl. tauto.
Qed.

Lemma visitAll_inv todo : forall keys done st,
  ContextInv keys done st ->
  ContextInv (fold_left addKey (map referenceKey todo) keys) (done ++ todo)
             (fst (visitAll todo st)).
Proof.
  induction todo as [|r rest IH]; intros keys done st H; simpl.
  - rewrite app_nil_r. assumption.
  - pose proof (visit_inv keys done st r H) as H1.
    destruct (visit st r) as [st1 s] eqn:V. simpl in H1.
    specialize (IH _ _ _ H1). 
    destruct (visitAll rest st1) as [st2 ss] eqn:W. simpl in *.
    rewrite <- app_assoc in IH. exact IH.
Qed.

Lemma buildContext_inv results :
  ContextInv (distinct (map referenceKey results)) results
             (snd (buildContext results), 
              combine (distinct (map referenceKey results))
                      (seq 1 (List.length (distinct (map referenceKey results))))).
Proof.
  assert (H0 : ContextInv [] [] ([], [])).
  { constructor; simpl; try reflexivity; intros; contradiction. }
  pose proof (visitAll_inv results [] [] ([], []) H0) as H.
  rewrite fold_addKey_distinct in H. simpl in H.
  unfold buildContext.
  destruct (visitAll results ([], [])) as [[refs seen] sections]. simpl in *.
  destruct H as [Hseen Hkeys Hidx Hfirst Hdone]. simpl in *.
  rewrite <- Hseen. constructor; assumption.
Qed.




(* ================================================================= *)
(** ** Properties of the graph builder: edge keys and weights *)

Lemma edgeKey_sym a b : edgeKey a b = edgeKey b a.
Proof.
  unfold edgeKey, String.ltb. rewrite (String.compare_antisym b a).
  destruct (String.compare a b) eqn:E; simpl; try reflexivity.
  apply String.compare_eq_iff in E. subst. reflexivity.
Qed.

(** The smaller id comes first. *)
Lemma edgeKey_ordered a b :
  exists x y,
    edgeKey a b = (x ++ "|" ++ y)%string
    /\ String.leb x y = true
    /\ ((x = a /\ y = b) \/ (x = b /\ y = a)).
Proof.
  unfold edgeKey, String.ltb, String.leb.
  destruct (String.compare a b) eqn:E.
  - exists b, a. split; [reflexivity|]. split; [|right; auto].
    rewrite String.compare_antisym, E. reflexivity.
  - exists a, b. split; [reflexivity|]. rewrite E. auto.
  - exists b, a. split; [reflexivity|]. split; [|right; auto].
    rewrite String.compare_antisym, E. reflexivity.
Qed.

Lemma split_bar a b :
  barFree a -> split "|"%char (a ++ "|" ++ b) = a :: split "|"%char b.
Proof.
  unfold barFree. change (a ++ "|" ++ b)%string with (a ++ String "|"%char b)%string.
  induction a as [|c a IH]; simpl; intro H; [reflexivity|].
  destruct (Ascii.eqb c "|"%char) eqn:E; [discriminate|].
  destruct (split "|"%char a) as [|p ps] eqn:S.
  - inversion H; subst. discriminate.
  - inversion H; subst. rewrite IH; reflexivity.
Qed.

Lemma keyEndpoints_bar a b :
  barFree a -> barFree b -> keyEndpoints (a ++ "|" ++ b) = (a, b).
Proof.
  intros Ha Hb. unfold keyEndpoints. rewrite (split_bar a b Ha), Hb. reflexivity.
Qed.

Lemma split_two_parts a b :
  exists x y rest, split "|"%char (a ++ "|" ++ b) = x :: y :: rest.
Proof.
  change (a ++ "|" ++ b)%string with (a ++ String "|"%char b)%string.
  induction a as [|c a IH]; simpl.
  - destruct (split "|"%char b) as [|y rest] eqn:S.
    + destruct b; simpl in S; [discriminate|].
      destruct (Ascii.eqb _ _); [discriminate|].
      destruct (split "|"%char b); discriminate.
    + eauto.
  - destruct IH as (x & y & rest & ->).
    destruct (Ascii.eqb c "|"%char); eauto.
Qed.

(** Every key written by the route has its two parts. *)
Lemma edgeKey_split a b :
  exists x y rest, split "|"%char (edgeKey a b) = x :: y :: rest.
Proof.
  unfold edgeKey. destruct (String.ltb a b); apply split_two_parts.
Qed.

Section MapFacts.
Context {V : Type}.
Implicit Types (m : JsMap V) (k : string) (v : V).

Lemma map_get_set k k' v m :
  map_get k' (map_set k v m) = if String.eqb k' k then Some v else map_get k' m.
Proof.
  induction m as [|[k0 v0] r IH]; simpl.
  - reflexivity.
  - destruct (String.eqb_spec k k0) as [->|Hne]; simpl.
    + destruct (String.eqb k' k0); reflexivity.
    + rewrite IH. destruct (String.eqb_spec k' k0) as [->|Hne'].
      * destruct (String.eqb_spec k0 k); [congruence|reflexivity].
      * reflexivity.
Qed.

Lemma map_get_In k m : map_get k m <> None <-> In k (map_keys m).
Proof.
  induction m as [|[k0 v0] r IH]; simpl.
  - split; [congruence|contradiction].
  - destruct (String.eqb_spec k k0) as [->|Hne].
    + split; [auto|discriminate].
    + rewrite IH. split; [auto|]. intros [E|H]; [congruence|assumption].
Qed.

Lemma map_keys_set k v m :
  map_keys (map_set k v m)
  = if map_has k m then map_keys m else map_keys m ++ [k].
Proof.
  unfold map_has. induction m as [|[k0 v0] r IH]; simpl; [reflexivity|].
  destruct (String.eqb_spec k k0) as [->|Hne]; simpl; [reflexivity|].
  rewrite IH. destruct (map_get k r); reflexivity.
Qed.

Lemma map_has_In k m : map_has k m = true <-> In k (map_keys m).
Proof.
  rewrite <- map_get_In. unfold map_has.
  destruct (map_get k m); split; congruence.
Qed.

Lemma map_keys_set_NoDup k v m :
  NoDup (map_keys m) -> NoDup (map_keys (map_set k v m)).
Proof.
  intro H. rewrite map_keys_set. destruct (map_has k m) eqn:E; [assumption|].
  apply NoDup_app; [assumption|repeat constructor; simpl; tauto|].
  intros x Hx Hx'. destruct Hx' as [<-|[]].
  apply map_has_In in Hx. congruence.
Qed.
End MapFacts.

Lemma addWeight_get key w m :
  map_get key (addWeight key w m) = Some (nullish (map_get key m) 0 + w).
Proof. unfold addWeight. rewrite map_get_set, String.eqb_refl. reflexivity. Qed.

Lemma addWeight_other key k w m :
  k <> key -> map_get k (addWeight key w m) = map_get k m.
Proof.
  intro H. unfold addWeight. rewrite map_get_set.
  destruct (String.eqb_spec k key); [contradiction|reflexivity].
Qed.

(** Two contributions to one pair of pages, in either order of the pair,
    land on one entry. *)
Lemma addWeight_twice a b s1 s2 m :
  let m' := addWeight (edgeKey b a) s2 (addWeight (edgeKey a b) s1 m) in
  map_get (edgeKey a b) m' = Some (nullish (map_get (edgeKey a b) m) 0 + s1 + s2)
  /\ map_keys m' =
       (if map_has (edgeKey a b) m then map_keys m else map_keys m ++ [edgeKey a b])
  /\ (forall k, k <> edgeKey a b -> map_get k m' = map_get k m).
Proof.
  intro m'. subst m'. rewrite (edgeKey_sym b a). split; [|split].
  - rewrite addWeight_get, addWeight_get. reflexivity.
  - unfold addWeight at 1. rewrite map_keys_set.
    replace (map_has (edgeKey a b) (addWeight (edgeKey a b) s1 m)) with true.
    + unfold addWeight. apply map_keys_set.
    + symmetry. unfold map_has. rewrite addWeight_get. reflexivity.
  - intros k Hk. rewrite !addWeight_other by assumption. reflexivity.
Qed.

Lemma expandNeighbor_edges pages threshold seed pageEdges nodeMap r :
  Hit.pageId r <> VectorCacheEntry.pageId seed ->
  threshold <= hitScore r ->
  fst (expandNeighbor pages threshold seed (pageEdges, nodeMap) r)
  = addWeight (edgeKey (VectorCacheEntry.pageId seed) (Hit.pageId r))
              (hitScore r) pageEdges.
Proof.
  intros Hne Hs. unfold expandNeighbor.
  destruct (String.eqb_spec (Hit.pageId r) (VectorCacheEntry.pageId seed));
    [contradiction|].
  fold (hitScore r).
  destruct (lt (hitScore r) threshold) eqn:L.
  - apply lt_Qlt in L. exfalso. exact (Qlt_not_le _ _ L Hs).
  - destruct (getProperty pages (Hit.pageId r));
      try destruct (map_has (Hit.pageId r) nodeMap); reflexivity.
Qed.

Lemma connectNeighbor_edges threshold nodeMap neighborId pageEdges r :
  Hit.pageId r <> neighborId ->
  map_has (Hit.pageId r) nodeMap = true ->
  threshold <= hitScore r ->
  connectNeighbor threshold nodeMap neighborId pageEdges r
  = addWeight (edgeKey neighborId (Hit.pageId r)) (hitScore r * (5 # 10)) pageEdges.
Proof.
  intros Hne Hin Hs. unfold connectNeighbor.
  destruct (String.eqb_spec (Hit.pageId r) neighborId); [contradiction|].
  rewrite Hin. simpl. fold (hitScore r).
  destruct (lt (hitScore r) threshold) eqn:L; [|reflexivity].
  apply lt_Qlt in L. exfalso. exact (Qlt_not_le _ _ L Hs).
Qed.

(** *** A run of the route on a two-page cache *)

Lemma sameNeighbourTwice_run :
  GET decimalNumber wholeLog10 twoPages storeReady sameNeighbourTwice
      (seedRequest "S") []
  = (Json200
       [ Node (GraphNode.mk "S" "Seed" 6 4 None);
         Node (GraphNode.mk "N" "Neighbour" 6 3 None) ]
       [ GraphEdge.mk "N" "S" (90 # 100) ],
     [ GetPineconeStore;
       StoreSearch (Some "Seed") 5;
       StoreSearch (Some "Seed") 5;
       StoreSearch (Some "Neighbour") 3 ]).
Proof. vm_compute. reflexivity. Qed.

(* ================================================================= *)
(** ** Properties of the graph builder: the final response *)

Lemma insertEdge_perm e l : Permutation (insertEdge e l) (e :: l).
Proof.
  induction l as [|x r IH]; simpl; [apply Permutation_refl|].
  destruct (Qle_bool (GraphEdge.weight x) (GraphEdge.weight e)).
  - apply Permutation_refl.
  - eapply perm_trans; [apply perm_skip, IH|apply perm_swap].
Qed.

Lemma sortByWeight_perm l : Permutation (sortByWeight l) l.
Proof.
  induction l as [|x r IH]; simpl; [constructor|].
  eapply perm_trans; [apply insertEdge_perm|apply perm_skip, IH].
Qed.

Lemma insertEdge_sorted e l :
  StronglySorted heavierFirst l -> StronglySorted heavierFirst (insertEdge e l).
Proof.
  induction 1 as [|x r Hs IH Hall]; simpl.
  - repeat constructor.
  - destruct (Qle_bool (GraphEdge.weight x) (GraphEdge.weight e)) eqn:E.
    + apply Qle_bool_iff in E. constructor; [constructor; assumption|].
      constructor; [exact E|].
      rewrite Forall_forall in Hall |- *. intros y Hy.
      unfold heavierFirst in *. eapply Qle_trans; [apply Hall, Hy|exact E].
    + constructor; [exact IH|].
      rewrite Forall_forall in Hall |- *. intros y Hy.
      apply (Permutation_in _ (insertEdge_perm e r)) in Hy.
      destruct Hy as [<-|Hy]; [|apply Hall, Hy].
      unfold heavierFirst. apply Qlt_le_weak. apply Qnot_le_lt.
      intro L. apply Qle_bool_iff in L. congruence.
Qed.

Lemma sortByWeight_sorted l : StronglySorted heavierFirst (sortByWeight l).
Proof.
  induction l as [|x r IH]; simpl; [constructor|].
  apply insertEdge_sorted, IH.
Qed.

Lemma In_firstn {A} n (l : list A) x : In x (firstn n l) -> In x l.
Proof. intro H. rewrite <- (firstn_skipn n l). apply in_or_app. auto. Qed.

Lemma In_skipn {A} n (l : list A) x : In x (skipn n l) -> In x l.
Proof. intro H. rewrite <- (firstn_skipn n l). apply in_or_app. auto. Qed.

Lemma sorted_split (l : list GraphEdge.t) n :
  StronglySorted heavierFirst l ->
  StronglySorted heavierFirst (firstn n l)
  /\ forall e d, In e (firstn n l) -> In d (skipn n l) -> heavierFirst e d.
Proof.
  intro H. revert n. induction H as [|x r Hs IH Hall]; intro n.
  - rewrite firstn_nil. split; [constructor|]. intros e d [].
  - destruct n as [|n]; simpl.
    + split; [constructor|]. intros e d [].
    + destruct (IH n) as [IH1 IH2]. rewrite Forall_forall in Hall. split.
      * constructor; [exact IH1|]. apply Forall_forall.
        intros y Hy. apply Hall. exact (In_firstn n r y Hy).
      * intros e d [<-|He] Hd; [|apply IH2; assumption].
        apply Hall. exact (In_skipn n r d Hd).
Qed.

Lemma toInteger_nonneg e : 0 <= e -> toInteger e = Qfloor e /\ (0 <= Qfloor e)%Z.
Proof.
  intro H. unfold toInteger.
  assert (Hb : Qle_bool 0 e = true) by (apply Qle_bool_iff; exact H).
  rewrite Hb. split; [reflexivity|].
  change 0%Z with (Qfloor 0). apply Qfloor_resp_le. exact H.
Qed.

Lemma slice0_firstn {A} e (l : list A) :
  0 <= e -> slice0 e l = firstn (Z.to_nat (Qfloor e)) l.
Proof.
  intro H. unfold slice0. destruct (toInteger_nonneg e H) as [-> Hz].
  destruct (Z.ltb_spec (Qfloor e) 0); [lia|reflexivity].
Qed.

Lemma countEdge_get degree e id :
  map_get id (countEdge degree e) =
    let s := if String.eqb (GraphEdge.source e) id then 1%nat else 0%nat in
    let t := if String.eqb (GraphEdge.target e) id then 1%nat else 0%nat in
    if (s + t =? 0)%nat then map_get id degree
    else Some (nullish (map_get id degree) 0%nat + s + t)%nat.
Proof.
  unfold countEdge. rewrite !map_get_set.
  rewrite (String.eqb_sym id (GraphEdge.target e)), (String.eqb_sym id (GraphEdge.source e)).
  destruct (String.eqb_spec (GraphEdge.target e) id) as [Et|Et];
    destruct (String.eqb_spec (GraphEdge.source e) id) as [Es|Es]; simpl.
  - rewrite Et, Es, String.eqb_refl. simpl. f_equal; lia.
  - destruct (String.eqb_spec (GraphEdge.target e) (GraphEdge.source e));
      [congruence|].
    rewrite Et. f_equal; lia.
  - rewrite Es. f_equal; lia.
  - reflexivity.
Qed.

Lemma degree_fold edges : forall degree id (d : nat),
  nullish (map_get id (fold_left countEdge edges degree)) d
  = if (finalDegree edges id =? 0)%nat then nullish (map_get id degree) d
    else (nullish (map_get id degree) 0%nat + finalDegree edges id)%nat.
Proof.
  unfold finalDegree.
  induction edges as [|e r IH]; intros degree id d; simpl; [reflexivity|].
  rewrite IH, countEdge_get. cbv zeta.
  destruct (String.eqb (GraphEdge.source e) id), (String.eqb (GraphEdge.target e) id);
    simpl;
    repeat match goal with
           | |- context [(?n =? 0)%nat] => destruct (Nat.eqb_spec n 0)
           end; simpl; try lia;
    destruct (map_get id degree); simpl; lia.
Qed.

(** The degree used by the sizing: the count over the final edges, and 1
    for a node that has none. *)
Lemma degreeMap_get edges id :
  nullish (map_get id (degreeMap edges)) 1%nat
  = if (finalDegree edges id =? 0)%nat then 1%nat else finalDegree edges id.
Proof. unfold degreeMap. rewrite degree_fold. reflexivity. Qed.

Lemma allowedHas_In x allowed : allowedHas x allowed = true <-> In (Some x) allowed.
Proof.
  unfold allowedHas. rewrite existsb_exists. split.
  - intros ([i|] & Hin & E); [|discriminate].
    apply String.eqb_eq in E. subst. assumption.
  - intro H. exists (Some x). split; [assumption|apply String.eqb_refl].
Qed.

Lemma joins_In nodes e :
  joins nodes e = true <->
  In (Some (GraphEdge.source e)) (map nodeId nodes)
  /\ In (Some (GraphEdge.target e)) (map nodeId nodes).
Proof. unfold joins. rewrite andb_true_iff, !allowedHas_In. reflexivity. Qed.

Lemma resize_nodeId log10 degree l :
  map nodeId (map (resize log10 degree) l) = map nodeId l.
Proof.
  rewrite map_map. apply map_ext. intros [n|]; reflexivity.
Qed.

Lemma resize_unsized log10 degree l :
  map unsized (map (resize log10 degree) l) = map unsized l.
Proof.
  rewrite map_map. apply map_ext. intros [n|]; reflexivity.
Qed.

Lemma resize_size log10 degree l n :
  In (Node n) (map (resize log10 degree) l) ->
  GraphNode.size n =
    sizeFor log10 (nullish (map_get (GraphNode.id n) degree) 1%nat)
            (GraphNode.chunkCount n).
Proof.
  rewrite in_map_iff. intros ([m|] & E & _); [|discriminate].
  simpl in E. inversion E; subst. reflexivity.
Qed.

(** The final stage: truncation of the nodes, filtering, ordering and
    capping of the edges, sizing of the nodes from the edges returned. *)
Lemma limitGraph_spec log10 maxNodes nodeMap pageEdges :
  0 < maxNodes ->
  exists nodes edges dropped,
    limitGraph log10 maxNodes nodeMap pageEdges = Json200 nodes edges
    /\ map unsized nodes
       = firstn (Z.to_nat (Qfloor maxNodes)) (map unsized (map_values nodeMap))
    /\ Permutation (edges ++ dropped)
                   (filter (joins nodes) (map edgeOfEntry pageEdges))
    /\ StronglySorted heavierFirst edges
    /\ (forall e d, In e edges -> In d dropped -> heavierFirst e d)
    /\ List.length edges
       = Nat.min (Z.to_nat (Qfloor (Qmax 20 (maxNodes * 2))))
                 (List.length (filter (joins nodes) (map edgeOfEntry pageEdges)))
    /\ forall n, In (Node n) nodes ->
         GraphNode.size n =
           sizeFor log10
             (if (finalDegree edges (GraphNode.id n) =? 0)%nat then 1%nat
              else finalDegree edges (GraphNode.id n))
             (GraphNode.chunkCount n).
Proof.
  intro Hpos. unfold limitGraph.
  assert (Hn : 0 <= maxNodes) by (apply Qlt_le_weak; exact Hpos).
  assert (Hc : 0 <= Qmax 20 (maxNodes * 2)).
  { apply Qle_trans with 20; [discriminate|apply Q.le_max_l]. }
  rewrite (slice0_firstn maxNodes _ Hn), (slice0_firstn _ _ Hc).
  set (limited := firstn (Z.to_nat (Qfloor maxNodes)) (map_values nodeMap)).
  set (cap := Z.to_nat (Qfloor (Qmax 20 (maxNodes * 2)))).
  set (kept := filter _ (map edgeOfEntry pageEdges)).
  set (edges := firstn cap (sortByWeight kept)).
  exists (map (resize log10 (degreeMap edges)) limited), edges,
         (skipn cap (sortByWeight kept)).
  assert (Hkept : kept = filter (joins (map (resize log10 (degreeMap edges)) limited))
                                (map edgeOfEntry pageEdges)).
  { unfold kept. apply filter_ext. intro e. unfold joins.
    rewrite resize_nodeId. reflexivity. }
  rewrite <- Hkept.
  destruct (sorted_split (sortByWeight kept) cap (sortByWeight_sorted kept))
    as [Hsorted Hsplit].
  split; [reflexivity|].
  split; [rewrite resize_unsized; unfold limited; symmetry; apply firstn_map|].
  split; [unfold edges; rewrite firstn_skipn; apply sortByWeight_perm|].
  split; [exact Hsorted|].
  split; [exact Hsplit|].
  split.
  - unfold edges. rewrite length_firstn.
    rewrite (Permutation_length (sortByWeight_perm kept)). reflexivity.
  - intros n Hin. rewrite (resize_size _ _ _ _ Hin), degreeMap_get. reflexivity.
Qed.

(* ================================================================= *)
(** ** Properties of the graph builder: runs of the route *)

Lemma nth_error_lt {A} (l : list A) i x : nth_error l i = Some x -> (i < List.length l)%nat.
Proof. intro H. apply nth_error_Some. congruence. Qed.

Section GraphRuns.
Variable toNumber : string -> option Q.
Variable log10 : Q -> Q.
Variable pages : Pages.
Variable getPineconeStore : nat -> string + unit.
Variable store_search : nat -> option string -> Q -> string + list Hit.t.

Local Abbreviation buildGraph' :=
  (buildGraph log10 pages getPineconeStore store_search).
Local Abbreviation GET' :=
  (GET toNumber log10 pages getPineconeStore store_search).
Local Abbreviation expandLoop' := (expandLoop pages store_search).
Local Abbreviation egoLoop' := (egoLoop pages store_search).
Local Abbreviation failure' := (failure getPineconeStore store_search).
Local Abbreviation abortsOnFailure' := (abortsOnFailure getPineconeStore store_search).

Lemma aborts_ret {A} (a : A) log : abortsOnFailure' log (ret a log).
Proof.
  split; [exists []; simpl; rewrite app_nil_r; reflexivity|].
  simpl. intros i ev m Hn Hi _. apply nth_error_lt in Hn. lia.
Qed.

Lemma aborts_throw {A} msg log : abortsOnFailure' log (@throw GraphEvent A msg log).
Proof.
  split; [exists []; simpl; rewrite app_nil_r; reflexivity|].
  simpl. intros i ev m Hn Hi _. apply nth_error_lt in Hn. lia.
Qed.

Lemma aborts_bind {A B} (m : M GraphEvent A) (f : A -> M GraphEvent B) log :
  (forall l, abortsOnFailure' l (m l)) ->
  (forall a l, abortsOnFailure' l (f a l)) ->
  abortsOnFailure' log (bind m f log).
Proof.
  intros Hm Hf. unfold bind.
  destruct (Hm log) as [[e1 E1] F1]. destruct (m log) as [[e|a] l1]; simpl in *.
  - split; [exists e1; exact E1|].
    intros i ev msg Hn Hi Hfail.
    destruct (F1 i ev msg Hn Hi Hfail) as [Heq Hlen].
    inversion Heq; subst. split; [reflexivity|exact Hlen].
  - destruct (Hf a l1) as [[e2 E2] F2]. destruct (f a l1) as [r2 l2]; simpl in *.
    subst l1 l2. split; [exists (e1 ++ e2); symmetry; apply app_assoc|].
    simpl. intros i ev msg Hn Hi Hfail.
    destruct (Nat.lt_ge_cases i (List.length (log ++ e1))) as [Hlt|Hge].
    + rewrite nth_error_app1 in Hn by exact Hlt.
      destruct (F1 i ev msg Hn Hi Hfail) as [Habs _]. discriminate.
    + exact (F2 i ev msg Hn Hge Hfail).
Qed.

Lemma aborts_call {A} ev (answer : nat -> string + A) log :
  (forall i, failure' ev i
             = match answer i with inl m => Some m | inr _ => None end) ->
  abortsOnFailure' log (call ev answer log).
Proof.
  intro Hev. unfold call. split; [exists [ev]; reflexivity|]. simpl.
  intros i ev' m Hn Hi Hfail.
  assert (Hlt := nth_error_lt _ _ _ Hn). rewrite length_app in *. simpl in *.
  assert (i = List.length log) by lia. subst i.
  rewrite nth_error_app2, Nat.sub_diag in Hn by lia. simpl in Hn.
  inversion Hn; subst ev'. rewrite Hev in Hfail.
  destruct (answer (List.length log)); inversion Hfail; subst.
  split; [reflexivity|lia].
Qed.

Lemma aborts_getStore log :
  abortsOnFailure' log (call GetPineconeStore getPineconeStore log).
Proof. apply aborts_call. intro i. reflexivity. Qed.

Lemma aborts_search q k log :
  abortsOnFailure' log (search store_search q k log).
Proof. apply aborts_call. intro i. reflexivity. Qed.

Lemma aborts_forOf {A S} (l : list A) (body : S -> A -> M GraphEvent S) :
  (forall s x log, abortsOnFailure' log (body s x log)) ->
  forall s log, abortsOnFailure' log (forOf l body s log).
Proof.
  intro Hbody. induction l as [|x r IH]; intros s log; simpl.
  - apply aborts_ret.
  - apply aborts_bind; [intro; apply Hbody|intros; apply IH].
Qed.

(** Decomposes a run of the route into its calls and loops. *)
Ltac aborts :=
  repeat first
    [ apply aborts_ret
    | apply aborts_throw
    | apply aborts_search
    | apply aborts_getStore
    | apply aborts_forOf; intros
    | apply aborts_bind; intros
    | match goal with
      | |- context [match getProperty ?p ?k with _ => _ end] =>
          destruct (getProperty p k)
      | x : (_ * _)%type |- _ => destruct x
      end ].

Lemma aborts_buildGraph seedPageId maxSeeds topK threshold maxNodes log :
  abortsOnFailure' log (buildGraph' seedPageId maxSeeds topK threshold maxNodes log).
Proof.
  unfold buildGraph, expandLoop, egoLoop.
  destruct seedPageId as [[|c s]|]; aborts.
Qed.

Lemma parseNumber_pos value fallback :
  0 < fallback -> 0 < parseNumber toNumber value fallback.
Proof.
  intro H. unfold parseNumber. destruct value as [s|]; [|exact H].
  destruct (negb (truthy s)); [exact H|].
  destruct (toNumber s) as [n|]; [|exact H].
  destruct (lt 0 n) eqn:L; [|exact H]. apply lt_Qlt. exact L.
Qed.

Lemma GET_aborts params log i ev m :
  nth_error (snd (GET' params log)) i = Some ev ->
  (List.length log <= i)%nat ->
  failure' ev i = Some m ->
  fst (GET' params log) = Json500 m
  /\ List.length (snd (GET' params log)) = S i.
Proof.
  unfold GET.
  pose proof (aborts_buildGraph (SearchParams.seedPageId params)
                (parseNumber toNumber (SearchParams.maxSeeds params) 5)
                (parseNumber toNumber (SearchParams.topK params) 5)
                (parseFloatInRange toNumber (SearchParams.threshold params) (25 # 100) 0 1)
                (parseNumber toNumber (SearchParams.maxNodes params) 50) log)
    as [_ H].
  destruct (buildGraph' _ _ _ _ _ log) as [[e|r] l]; simpl in *;
    intros Hn Hi Hfail; destruct (H i ev m Hn Hi Hfail) as [Heq Hlen];
    inversion Heq; subst; split; [reflexivity|exact Hlen].
Qed.

(** C6, as the code has it.  A probe that fails is the last call of the
    build: the request then answers with the 500 response carrying the
    error of that probe, and no graph. *)
Theorem C6_failed_probe_aborts params log i q k m :
  let run := GET toNumber log10 pages getPineconeStore store_search params log in
  nth_error (snd run) i = Some (StoreSearch q k) ->
  (List.length log <= i)%nat ->
  store_search i q k = inl m ->
  fst run = Json500 m /\ List.length (snd run) = S i.
Proof.
  intros run Hn Hi Hfail. subst run.
  apply (GET_aborts params log i (StoreSearch q k) m Hn Hi).
  simpl. rewrite Hfail. reflexivity.
Qed.

Lemma buildGraph_undefined c s maxSeeds topK threshold maxNodes log :
  getProperty pages (String c s) = Undefined ->
  buildGraph' (Some (String c s)) maxSeeds topK threshold maxNodes log
  = (inr (Json404 "seedPageId not found in vector cache"), log).
Proof. intro H. unfold buildGraph. rewrite H. reflexivity. Qed.

Lemma buildGraph_inherited c s maxSeeds topK threshold maxNodes log :
  getProperty pages (String c s) = Inherited ->
  buildGraph' (Some (String c s)) maxSeeds topK threshold maxNodes log
  = (inl (match getPineconeStore (List.length log) with
          | inl m => m
          | inr _ => "Cannot read properties of undefined (reading 'slice')"
          end),
     log ++ [GetPineconeStore]).
Proof.
  intro H. unfold buildGraph. rewrite H. unfold bind, call, throw.
  destruct (getPineconeStore (List.length log)); reflexivity.
Qed.

Lemma buildGraph_graph c s maxSeeds topK threshold maxNodes log nodes edges log' :
  buildGraph' (Some (String c s)) maxSeeds topK threshold maxNodes log
  = (inr (Json200 nodes edges), log') ->
  exists seed pageEdges nodeMap pageEdges' l2,
    getProperty pages (String c s) = Own seed
    /\ expandLoop' topK threshold seed
         ([], [(VectorCacheEntry.pageId seed, Node (nodeOfEntry seed))])
         (log ++ [GetPineconeStore])
       = (inr (pageEdges, nodeMap), l2)
    /\ egoLoop' topK threshold seed nodeMap pageEdges l2 = (inr pageEdges', log')
    /\ limitGraph log10 maxNodes nodeMap pageEdges' = Json200 nodes edges.
Proof.
  unfold buildGraph. destruct (getProperty pages (String c s)) as [seed| |].
  - unfold bind at 1. unfold call at 1.
    destruct (getPineconeStore (List.length log)) as [e|[]]; [discriminate|].
    unfold bind at 1. simpl map_set.
    destruct (expandLoop' topK threshold seed _ _) as [[e|[pe nm]] l2] eqn:X;
      [discriminate|].
    unfold bind at 1.
    destruct (egoLoop' topK threshold seed nm pe l2) as [[e|pe'] l3] eqn:Y;
      [discriminate|].
    unfold ret. intro H. inversion H; subst.
    exists seed, pe, nm, pe', l2. auto.
  - unfold bind, call, throw.
    destruct (getPineconeStore (List.length log)); discriminate.
  - discriminate.
Qed.

Lemma returns_ret {A} (P : A -> Prop) a log :
  P a -> returnsWith P (@ret GraphEvent A a log).
Proof. intro H. exists a. auto. Qed.

Lemma returns_bind {A B} (Q : A -> Prop) (P : B -> Prop)
      (m : M GraphEvent A) (f : A -> M GraphEvent B) log :
  returnsWith Q (m log) ->
  (forall a l, Q a -> returnsWith P (f a l)) ->
  returnsWith P (bind m f log).
Proof.
  intros (a & Ha & Qa) Hf. unfold bind.
  destruct (m log) as [[e|a'] l1]; simpl in Ha; inversion Ha; subst.
  apply Hf. exact Qa.
Qed.

Lemma returns_forOf {A S} (l : list A) (body : S -> A -> M GraphEvent S) :
  (forall s x log, returnsWith (fun _ => True) (body s x log)) ->
  forall s log, returnsWith (fun _ => True) (forOf l body s log).
Proof.
  intro Hbody. induction l as [|x r IH]; intros s log; simpl.
  - apply returns_ret. exact I.
  - eapply returns_bind; [apply Hbody|]. intros. apply IH.
Qed.

Lemma returns_search q k log :
  allAnswer getPineconeStore store_search ->
  returnsWith (fun _ => True) (search store_search q k log).
Proof.
  intros [_ Hs]. destruct (Hs (List.length log) q k) as [hits E].
  exists hits. unfold search, call. simpl. auto.
Qed.

(** When every call is answered, a build for a cached seed page returns a
    graph. *)
Lemma buildGraph_returns c s seed maxSeeds topK threshold maxNodes log :
  allAnswer getPineconeStore store_search ->
  getProperty pages (String c s) = Own seed ->
  returnsWith (fun r => exists nodes edges, r = Json200 nodes edges)
    (buildGraph' (Some (String c s)) maxSeeds topK threshold maxNodes log).
Proof.
  intros Hall Hown. unfold buildGraph. rewrite Hown.
  eapply (returns_bind (fun _ => True)).
  { destruct Hall as [Hg _]. destruct (Hg (List.length log)) as [u E].
    exists u. unfold call. simpl. auto. }
  intros _ l1 _.
  eapply (returns_bind (fun _ => True)).
  { unfold expandLoop. apply returns_forOf. intros st q l.
    eapply returns_bind; [apply returns_search, Hall|].
    intros. apply returns_ret. exact I. }
  intros [pe nm] l2 _.
  eapply (returns_bind (fun _ => True)).
  { unfold egoLoop. apply returns_forOf. intros pe0 n l.
    destruct (getProperty pages n); try (apply returns_ret; exact I);
      (eapply returns_bind; [apply returns_search, Hall|]);
      intros; apply returns_ret; exact I. }
  intros pe' l3 _. apply returns_ret. unfold limitGraph. eauto.
Qed.

(** C5, as the code has it.  A seeded build whose calls are all answered
    returns a graph when the seed is a page of the cache; and a seeded build
    that returns a graph returns the nodes found by the first loop, cut to
    the first [maxNodes] of them in the order found and with only their
    size changed; its edges are the accumulated edges whose two ends are
    among the nodes returned, heaviest first, cut to the first
    max(20, 2 * maxNodes); and the size of a node is
    clamp(6, 18, d + 2 * log10(chunkCount + 1)) where d is the number of
    ends of returned edges at the node, or 1 when there is none. *)
Theorem C5_final_response params c s :
  SearchParams.seedPageId params = Some (String c s) ->
  let topK := parseNumber toNumber (SearchParams.topK params) 5 in
  let threshold :=
    parseFloatInRange toNumber (SearchParams.threshold params) (25 # 100) 0 1 in
  let maxNodes := parseNumber toNumber (SearchParams.maxNodes params) 50 in
  (forall log seed,
     allAnswer getPineconeStore store_search ->
     getProperty pages (String c s) = Own seed ->
     exists nodes edges log',
       GET toNumber log10 pages getPineconeStore store_search params log
       = (Json200 nodes edges, log'))
  /\ forall log nodes edges log',
      GET toNumber log10 pages getPineconeStore store_search params log
      = (Json200 nodes edges, log') ->
      exists seed pageEdges nodeMap pageEdges' l2 dropped,
        getProperty pages (String c s) = Own seed
        /\ expandLoop pages store_search topK threshold seed
             ([], [(VectorCacheEntry.pageId seed, Node (nodeOfEntry seed))])
             (log ++ [GetPineconeStore])
           = (inr (pageEdges, nodeMap), l2)
        /\ egoLoop pages store_search topK threshold seed nodeMap pageEdges l2
           = (inr pageEdges', log')
        /\ map unsized nodes
           = firstn (Z.to_nat (Qfloor maxNodes)) (map unsized (map_values nodeMap))
        /\ Permutation (edges ++ dropped)
                       (filter (joins nodes) (map edgeOfEntry pageEdges'))
        /\ StronglySorted heavierFirst edges
        /\ (forall e d, In e edges -> In d dropped -> heavierFirst e d)
        /\ List.length edges
           = Nat.min (Z.to_nat (Qfloor (Qmax 20 (maxNodes * 2))))
                     (List.length (filter (joins nodes) (map edgeOfEntry pageEdges')))
        /\ forall n, In (Node n) nodes ->
             GraphNode.size n =
               sizeFor log10
                 (if (finalDegree edges (GraphNode.id n) =? 0)%nat then 1%nat
                  else finalDegree edges (GraphNode.id n))
                 (GraphNode.chunkCount n).
Proof.
  intros Hseed topK threshold maxNodes. split.
  - intros log seed Hall Hown. unfold GET. rewrite Hseed.
    destruct (buildGraph_returns c s seed
                (parseNumber toNumber (SearchParams.maxSeeds params) 5)
                topK threshold maxNodes log Hall Hown)
      as (r & Hr & nodes & edges & ->).
    fold topK threshold maxNodes.
    destruct (buildGraph' _ _ _ _ _ log) as [[e|r] l]; simpl in Hr;
      inversion Hr; subst. eauto.
  - intros log nodes edges log' Hrun.
    unfold GET in Hrun. rewrite Hseed in Hrun.
    fold topK threshold maxNodes in Hrun.
    destruct (buildGraph' _ _ _ _ _ log) as [[e|r] l] eqn:B;
      inversion Hrun; subst.
    destruct (buildGraph_graph _ _ _ _ _ _ _ _ _ _ B)
      as (seed & pe & nm & pe' & l2 & Hown & Hx & Hy & Hlimit).
    assert (Hpos : 0 < maxNodes) by (apply parseNumber_pos; reflexivity).
    destruct (limitGraph_spec log10 maxNodes nm pe' Hpos)
      as (nodes' & edges' & dropped & Hl & H1 & H2 & H3 & H4 & H5 & H6).
    rewrite Hlimit in Hl. inversion Hl; subst nodes' edges'.
    exists seed, pe, nm, pe', l2, dropped.
    repeat (split; [assumption|]). assumption.
Qed.

End GraphRuns.

(* ----------------------------------------------------------------- *)
(** *** What the two loops do with the hits of the probes *)

Section GraphLoops.
Variable pages : Pages.
Variable store_search : nat -> option string -> Q -> string + list Hit.t.

Lemma expandLoop_folds topK threshold seed st log st' log' :
  expandLoop pages store_search topK threshold seed st log = (inr st', log') ->
  exists answers,
    answered store_search (List.length log) (map Some (syntheticQueries seed))
             topK answers
    /\ st' = fold_left (fun st hits =>
                          fold_left (expandNeighbor pages threshold seed) hits st)
                       answers st
    /\ List.length log' = (List.length log + 2)%nat.
Proof.
  unfold expandLoop.
  assert (G : forall qs st log st' log',
             forOf qs
               (fun st q =>
                  bind (search store_search (Some q) topK)
                       (fun results =>
                          ret (fold_left (expandNeighbor pages threshold seed)
                                         results st)))
               st log = (inr st', log') ->
             exists answers,
               answered store_search (List.length log) (map Some qs) topK answers
               /\ st' = fold_left (fun st hits =>
                                     fold_left (expandNeighbor pages threshold seed)
                                               hits st)
                                  answers st
               /\ List.length log' = (List.length log + List.length qs)%nat).
  { clear. induction qs as [|q qs IH]; intros st log st' log'; simpl.
    - unfold ret. intro H. inversion H; subst. exists []. simpl.
      split; [exact I|]. split; [reflexivity|lia].
    - unfold bind at 1. unfold bind at 1. unfold search, call.
      destruct (store_search (List.length log) (Some q) topK) as [e|hits] eqn:A;
        [discriminate|].
      unfold ret at 1. intro H. apply IH in H.
      destruct H as (answers & Ha & Hst & Hlen).
      rewrite length_app in Ha, Hlen. simpl in Ha, Hlen.
      replace (List.length log + 1)%nat with (S (List.length log)) in Ha by lia.
      exists (hits :: answers). simpl.
      split; [split; [reflexivity|exact Ha]|].
      split; [exact Hst|lia]. }
  intro H. apply G in H. exact H.
Qed.

Lemma egoLoop_folds topK threshold seed nodeMap pageEdges log pageEdges' log' :
  egoLoop pages store_search topK threshold seed nodeMap pageEdges log
  = (inr pageEdges', log') ->
  exists answers,
    answered store_search (List.length log)
             (map (fun id => propertyTitle (getProperty pages id))
                  (probed pages (neighborIds seed nodeMap)))
             (Qmax 3 (inject_Z (Qfloor (topK / 2)))) answers
    /\ List.length answers = List.length (probed pages (neighborIds seed nodeMap))
    /\ pageEdges'
       = connected threshold nodeMap
           (combine (probed pages (neighborIds seed nodeMap)) answers) pageEdges.
Proof.
  unfold egoLoop. generalize (neighborIds seed nodeMap) as ids.
  generalize (Qmax 3 (inject_Z (Qfloor (topK / 2)))) as k.
  intros k ids. revert pageEdges log.
  induction ids as [|n ids IH]; intros pe log; [simpl|cbn [forOf]].
  - unfold ret. intro H. inversion H; subst. exists []. simpl. auto.
  - assert (E1 : getProperty pages n <> Undefined ->
                 probed pages (n :: ids) = n :: probed pages ids).
    { unfold probed. simpl. destruct (getProperty pages n); congruence. }
    assert (E0 : getProperty pages n = Undefined ->
                 probed pages (n :: ids) = probed pages ids).
    { unfold probed. simpl. intros ->. reflexivity. }
    unfold bind at 1.
    destruct (getProperty pages n) as [entry| |] eqn:P.
    1, 2: rewrite E1 by discriminate; simpl; rewrite P;
      unfold bind at 1; unfold search, call;
      match goal with
      | |- context [store_search ?i ?q ?k] =>
          destruct (store_search i q k) as [e|hits] eqn:A
      end; [discriminate|];
      unfold ret at 1; intro H; apply IH in H;
      destruct H as (answers & Ha & Hlen & Hpe);
      rewrite length_app in Ha; simpl in Ha;
      replace (List.length log + 1)%nat with (S (List.length log)) in Ha by lia;
      exists (hits :: answers); simpl;
      (split; [split; [first [reflexivity|exact A]|exact Ha]|]);
      (split; [f_equal; exact Hlen|exact Hpe]).
    rewrite E0 by reflexivity. unfold ret at 1. intro H. apply IH in H. exact H.
Qed.
End GraphLoops.

Lemma GET_loops toNumber log10 pages getPineconeStore store_search
      params c s log nodes edges log' :
  SearchParams.seedPageId params = Some (String c s) ->
  GET toNumber log10 pages getPineconeStore store_search params log
  = (Json200 nodes edges, log') ->
  let topK := parseNumber toNumber (SearchParams.topK params) 5 in
  let threshold :=
    parseFloatInRange toNumber (SearchParams.threshold params) (25 # 100) 0 1 in
  let maxNodes := parseNumber toNumber (SearchParams.maxNodes params) 50 in
  exists seed answers1 answers2,
    getProperty pages (String c s) = Own seed
    /\ answered store_search (S (List.length log))
                (map Some (syntheticQueries seed)) topK answers1
    /\ let nodeMap := snd (expanded pages threshold seed answers1) in
       let ids := probed pages (neighborIds seed nodeMap) in
       answered store_search (List.length log + 3)
                (map (fun id => propertyTitle (getProperty pages id)) ids)
                (Qmax 3 (inject_Z (Qfloor (topK / 2)))) answers2
       /\ List.length answers2 = List.length ids
       /\ limitGraph log10 maxNodes nodeMap
            (connected threshold nodeMap (combine ids answers2)
                       (fst (expanded pages threshold seed answers1)))
          = Json200 nodes edges.
Proof.
  intros Hseed Hrun topK threshold maxNodes.
  unfold GET in Hrun. rewrite Hseed in Hrun.
  fold topK threshold maxNodes in Hrun.
  destruct (buildGraph _ _ _ _ _ _ _ _ _ log) as [[e|r] l] eqn:B;
    inversion Hrun; subst r l. clear Hrun.
  destruct (buildGraph_graph _ _ _ _ _ _ _ _ _ _ _ _ _ _ B)
    as (seed & pe & nm & pe' & l2 & Hown & Hexp & Hego & Hlim).
  destruct (expandLoop_folds _ _ _ _ _ _ _ _ _ Hexp) as (answers1 & Ha1 & Hst & Hl2).
  destruct (egoLoop_folds _ _ _ _ _ _ _ _ _ _ Hego) as (answers2 & Ha2 & Hn2 & Hpe').
  rewrite length_app in Ha1, Hl2. simpl in Ha1, Hl2.
  replace (List.length log + 1)%nat with (S (List.length log)) in Ha1 by lia.
  replace (List.length l2) with (List.length log + 3)%nat in Ha2 by lia.
  fold (expanded pages threshold seed answers1) in Hst.
  exists seed, answers1, answers2. rewrite <- Hst. simpl.
  split; [exact Hown|]. split; [exact Ha1|]. split; [exact Ha2|].
  split; [exact Hn2|]. rewrite <- Hpe'. exact Hlim.
Qed.

(** Two hits of the second loop for one pair of pages, one from the probe
    of each, land on one entry. *)
Lemma connectNeighbor_pair threshold nodeMap a b pageEdges ra rb :
  Hit.pageId ra = a -> Hit.pageId rb = b -> a <> b ->
  map_has a nodeMap = true -> map_has b nodeMap = true ->
  threshold <= hitScore ra -> threshold <= hitScore rb ->
  let m' := connectNeighbor threshold nodeMap b
              (connectNeighbor threshold nodeMap a pageEdges rb) ra in
  map_get (edgeKey a b) m'
  = Some (nullish (map_get (edgeKey a b) pageEdges) 0
          + hitScore rb * (5 # 10) + hitScore ra * (5 # 10))
  /\ map_keys m' =
       (if map_has (edgeKey a b) pageEdges then map_keys pageEdges
        else map_keys pageEdges ++ [edgeKey a b]).
Proof.
  intros Ha Hb Hne Hina Hinb Hsa Hsb m'. subst m'.
  rewrite (connectNeighbor_edges threshold nodeMap a pageEdges rb)
    by (rewrite ?Hb; auto).
  rewrite (connectNeighbor_edges threshold nodeMap b _ ra)
    by (rewrite ?Ha; auto).
  rewrite Ha, Hb.
  destruct (addWeight_twice a b (hitScore rb * (5 # 10)) (hitScore ra * (5 # 10))
                            pageEdges) as (H1 & H2 & _).
  split; assumption.
Qed.

(** *** A run of the route on a three-page cache *)

Lemma crossProbes_run :
  GET decimalNumber wholeLog10 threePages storeReady crossProbes
      (seedRequest "S") []
  = (Json200
       [ Node (GraphNode.mk "S" "Seed" 6 4 None);
         Node (GraphNode.mk "A" "Alpha" 6 3 None);
         Node (GraphNode.mk "B" "Beta" 6 2 None) ]
       [ GraphEdge.mk "A" "B" (7000 # 10000);
         GraphEdge.mk "A" "S" (5 # 10);
         GraphEdge.mk "B" "S" (5 # 10) ],
     [ GetPineconeStore;
       StoreSearch (Some "Seed") 5;
       StoreSearch (Some "Seed") 5;
       StoreSearch (Some "Alpha") 3;
       StoreSearch (Some "Beta") 3 ]).
Proof. vm_compute. reflexivity. Qed.

(** C4.  The key of an edge does not depend on the order of its two page
    ids and writes the smaller id first; contributions to a pair of pages,
    in either order, add up on one entry of [pageEdges] and create at most
    one; the first loop adds the score of a hit at the key of seed and
    neighbour, the second loop adds half the score at the key of neighbour
    and other page; when the two synthetic queries return one neighbour
    with scores 0.5 and 0.4, the response has the single edge of weight
    0.9.  The response of a seeded request is made from the maps that the
    two loops leave when the body of the first is applied to every hit of
    the two synthetic queries and the body of the second to every hit of
    the probe of each neighbour, in the order of the probes; two hits of
    the second loop for one pair of pages, one from the probe of each,
    add half their scores on one entry; and when the probe of [A] finds
    [B] with 0.8 and the probe of [B] finds [A] with 0.6, the response has
    the single edge of weight 0.7 between them. *)
Theorem C4_canonical_edge_keys :
  (forall a b, edgeKey a b = edgeKey b a)
  /\ (forall a b, exists x y,
        edgeKey a b = (x ++ "|" ++ y)%string
        /\ String.leb x y = true
        /\ ((x = a /\ y = b) \/ (x = b /\ y = a)))
  /\ (forall a b s1 s2 m,
        let m' := addWeight (edgeKey b a) s2 (addWeight (edgeKey a b) s1 m) in
        map_get (edgeKey a b) m'
          = Some (nullish (map_get (edgeKey a b) m) 0 + s1 + s2)
        /\ map_keys m' =
             (if map_has (edgeKey a b) m then map_keys m
              else map_keys m ++ [edgeKey a b])
        /\ (forall k, k <> edgeKey a b -> map_get k m' = map_get k m))
  /\ (forall pages threshold seed pageEdges nodeMap r,
        Hit.pageId r <> VectorCacheEntry.pageId seed ->
        threshold <= hitScore r ->
        fst (expandNeighbor pages threshold seed (pageEdges, nodeMap) r)
        = addWeight (edgeKey (VectorCacheEntry.pageId seed) (Hit.pageId r))
                    (hitScore r) pageEdges)
  /\ (forall threshold nodeMap neighborId pageEdges r,
        Hit.pageId r <> neighborId ->
        map_has (Hit.pageId r) nodeMap = true ->
        threshold <= hitScore r ->
        connectNeighbor threshold nodeMap neighborId pageEdges r
        = addWeight (edgeKey neighborId (Hit.pageId r))
                    (hitScore r * (5 # 10)) pageEdges)
  /\ (exists nodes w,
        fst (GET decimalNumber wholeLog10 twoPages storeReady sameNeighbourTwice
                 (seedRequest "S") [])
        = Json200 nodes [GraphEdge.mk "N" "S" w]
        /\ w == 9 # 10)
  /\ (forall toNumber log10 pages getPineconeStore store_search
             params c s log nodes edges log',
        SearchParams.seedPageId params = Some (String c s) ->
        GET toNumber log10 pages getPineconeStore store_search params log
        = (Json200 nodes edges, log') ->
        let topK := parseNumber toNumber (SearchParams.topK params) 5 in
        let threshold :=
          parseFloatInRange toNumber (SearchParams.threshold params)
                            (25 # 100) 0 1 in
        let maxNodes := parseNumber toNumber (SearchParams.maxNodes params) 50 in
        exists seed answers1 answers2,
          getProperty pages (String c s) = Own seed
          /\ answered store_search (S (List.length log))
                      (map Some (syntheticQueries seed)) topK answers1
          /\ let nodeMap := snd (expanded pages threshold seed answers1) in
             let ids := probed pages (neighborIds seed nodeMap) in
             answered store_search (List.length log + 3)
                      (map (fun id => propertyTitle (getProperty pages id)) ids)
                      (Qmax 3 (inject_Z (Qfloor (topK / 2)))) answers2
             /\ List.length answers2 = List.length ids
             /\ limitGraph log10 maxNodes nodeMap
                  (connected threshold nodeMap (combine ids answers2)
                             (fst (expanded pages threshold seed answers1)))
                = Json200 nodes edges)
  /\ (forall threshold nodeMap a b pageEdges ra rb,
        Hit.pageId ra = a -> Hit.pageId rb = b -> a <> b ->
        map_has a nodeMap = true -> map_has b nodeMap = true ->
        threshold <= hitScore ra -> threshold <= hitScore rb ->
        let m' := connectNeighbor threshold nodeMap b
                    (connectNeighbor threshold nodeMap a pageEdges rb) ra in
        map_get (edgeKey a b) m'
        = Some (nullish (map_get (edgeKey a b) pageEdges) 0
                + hitScore rb * (5 # 10) + hitScore ra * (5 # 10))
        /\ map_keys m' =
             (if map_has (edgeKey a b) pageEdges then map_keys pageEdges
              else map_keys pageEdges ++ [edgeKey a b]))
  /\ (exists nodes w,
        fst (GET decimalNumber wholeLog10 threePages storeReady crossProbes
                 (seedRequest "S") [])
        = Json200 nodes [ GraphEdge.mk "A" "B" w;
                          GraphEdge.mk "A" "S" (5 # 10);
                          GraphEdge.mk "B" "S" (5 # 10) ]
        /\ w == 7 # 10).
Proof.
  split; [exact edgeKey_sym|].
  split; [exact edgeKey_ordered|].
  split; [exact addWeight_twice|].
  split; [exact expandNeighbor_edges|].
  split; [exact connectNeighbor_edges|].
  split.
  { rewrite sameNeighbourTwice_run. simpl.
    eexists. eexists. split; reflexivity. }
  split; [exact GET_loops|].
  split; [exact connectNeighbor_pair|].
  rewrite crossProbes_run. simpl.
  eexists. eexists. split; reflexivity.
Qed.

(** C8, at a failing input.  When the seed id is ["constructor"] and the
    cache has no page of that id, the route takes the inherited member for
    a cache entry: it asks for the store and answers with a 500 response,
    not with 404; no search is made. *)
Theorem C8_inherited_member_is_not_404 toNumber log10 pages getPineconeStore
        store_search log :
  map_get "constructor" pages = None ->
  exists message,
    GET toNumber log10 pages getPineconeStore store_search
        (seedRequest "constructor") log
    = (Json500 message, log ++ [GetPineconeStore]).
Proof.
  intro H. unfold GET, seedRequest. simpl SearchParams.seedPageId.
  rewrite buildGraph_inherited.
  - eexists. reflexivity.
  - unfold getProperty. rewrite H. reflexivity.
Qed.

(** A seed id that is neither a page of the cache nor a member inherited
    by the cache object is answered with 404, before any call. *)
Lemma unknown_seed_404 toNumber log10 pages getPineconeStore store_search
      params c s log :
  SearchParams.seedPageId params = Some (String c s) ->
  map_get (String c s) pages = None ->
  ~ In (String c s) objectPrototypeMembers ->
  GET toNumber log10 pages getPineconeStore store_search params log
  = (Json404 "seedPageId not found in vector cache", log).
Proof.
  intros Hseed Hnone Hnin. unfold GET. rewrite Hseed.
  rewrite buildGraph_undefined; [reflexivity|].
  unfold getProperty. rewrite Hnone.
  destruct (existsb _ objectPrototypeMembers) eqn:E; [|reflexivity].
  apply existsb_exists in E. destruct E as (x & Hx & E).
  apply String.eqb_eq in E. subst x. contradiction.
Qed.

(* ----------------------------------------------------------------- *)
(** *** The queries of a build *)

Section GraphQueries.
Variable toNumber : string -> option Q.
Variable log10 : Q -> Q.
Variable pages : Pages.
Variable getPineconeStore : nat -> string + unit.
Variable store_search : nat -> option string -> Q -> string + list Hit.t.

Lemma emits_ret {A} P (a : A) log : emitsOnly P log (ret a log).
Proof. exists []. simpl. rewrite app_nil_r. auto. Qed.

Lemma emits_throw {A} P msg log : emitsOnly P log (@throw GraphEvent A msg log).
Proof. exists []. simpl. rewrite app_nil_r. auto. Qed.

Lemma emits_call {A} (P : GraphEvent -> Prop) ev (answer : nat -> string + A) log :
  P ev -> emitsOnly P log (call ev answer log).
Proof. intro H. exists [ev]. simpl. auto. Qed.

Lemma emits_bind {A B} P (m : M GraphEvent A) (f : A -> M GraphEvent B) log :
  (forall l, emitsOnly P l (m l)) ->
  (forall a l, emitsOnly P l (f a l)) ->
  emitsOnly P log (bind m f log).
Proof.
  intros Hm Hf. unfold bind.
  destruct (Hm log) as (e1 & E1 & F1). destruct (m log) as [[e|a] l1]; simpl in *.
  - exists e1. auto.
  - destruct (Hf a l1) as (e2 & E2 & F2). destruct (f a l1) as [r2 l2]; simpl in *.
    subst. exists (e1 ++ e2). rewrite app_assoc. split; [reflexivity|].
    apply Forall_app. auto.
Qed.

Lemma emits_forOf {A S} P (l : list A) (body : S -> A -> M GraphEvent S) :
  (forall s x log, In x l -> emitsOnly P log (body s x log)) ->
  forall s log, emitsOnly P log (forOf l body s log).
Proof.
  induction l as [|x r IH]; intros Hbody s log; simpl.
  - apply emits_ret.
  - apply emits_bind.
    + intro. apply Hbody. left. reflexivity.
    + intros. apply IH. intros. apply Hbody. right. assumption.
Qed.

Lemma emits_buildGraph c s seed maxSeeds topK threshold maxNodes log :
  getProperty pages (String c s) = Own seed ->
  emitsOnly (buildEvent pages seed) log
    (buildGraph log10 pages getPineconeStore store_search
       (Some (String c s)) maxSeeds topK threshold maxNodes log).
Proof.
  intro Hown. unfold buildGraph. rewrite Hown.
  apply emits_bind; [intro; apply emits_call; exact I|]. intros _ l1.
  apply emits_bind.
  - intro l. unfold expandLoop. apply emits_forOf. intros st q l' Hq.
    apply emits_bind; [|intros; apply emits_ret].
    intro l''. apply emits_call. left. exists q. auto.
  - intros [pe nm] l2.
    apply emits_bind; [|intros; apply emits_ret].
    intro l. unfold egoLoop. apply emits_forOf. intros pe0 n l' Hn.
    destruct (getProperty pages n) eqn:P; try apply emits_ret;
      (apply emits_bind; [|intros; apply emits_ret]);
      intro l''; apply emits_call; right; exists n; rewrite P; reflexivity.
Qed.

(** C10.  Two requests that differ in [maxSeeds] only, and two builds that
    differ in its parsed value only, give the same response and make the
    same calls; and the searches of a build for a cached seed page are for
    a synthetic query of the seed or a page title read from the cache: the
    chunk ids sliced with [maxSeeds] enter none of them. *)
Theorem C10_maxSeeds_unused :
  (forall seedPageId topK threshold maxNodes maxSeeds1 maxSeeds2 log,
     GET toNumber log10 pages getPineconeStore store_search
         (SearchParams.mk seedPageId maxSeeds1 topK threshold maxNodes) log
     = GET toNumber log10 pages getPineconeStore store_search
         (SearchParams.mk seedPageId maxSeeds2 topK threshold maxNodes) log)
  /\ (forall seedPageId topK threshold maxNodes (maxSeeds1 maxSeeds2 : Q) log,
       buildGraph log10 pages getPineconeStore store_search
                  seedPageId maxSeeds1 topK threshold maxNodes log
       = buildGraph log10 pages getPineconeStore store_search
                  seedPageId maxSeeds2 topK threshold maxNodes log)
  /\ (forall c s seed maxSeeds topK threshold maxNodes log,
       getProperty pages (String c s) = Own seed ->
       exists evs,
         snd (buildGraph log10 pages getPineconeStore store_search
                (Some (String c s)) maxSeeds topK threshold maxNodes log)
         = log ++ evs
         /\ Forall (buildEvent pages seed) evs).
Proof.
  split; [reflexivity|]. split; [reflexivity|].
  intros c s seed maxSeeds topK threshold maxNodes log Hown.
  exact (emits_buildGraph c s seed maxSeeds topK threshold maxNodes log Hown).
Qed.

End GraphQueries.

(* ================================================================= *)
(** ** More on the retrieval policy and its trace *)

Lemma filter_nil_none {A} (f : A -> bool) (l : list A) :
  filter f l = [] -> forall x, In x l -> f x = false.
Proof.
  intros H x Hin. destruct (f x) eqn:E; [|reflexivity].
  assert (Hx : In x (filter f l)) by (apply filter_In; auto).
  rewrite H in Hx. contradiction.
Qed.

Lemma geq_false_lt (a b : Q) : geq a b = false <-> a < b.
Proof.
  unfold geq. split; intro H.
  - apply Qnot_le_lt. intro L. apply Qle_bool_iff in L. congruence.
  - destruct (Qle_bool b a) eqn:E; [|reflexivity].
    apply Qle_bool_iff in E. exfalso. exact (Qlt_not_le _ _ H E).
Qed.

(** X1.  The results kept are among the raw ones. Without fallback they are
    exactly the results that score at least the threshold. With fallback
    they are not empty, every raw result scores below the threshold, the
    fallback threshold is a number strictly between 0 and 1, and the results
    kept are those that score at least that number, or the first raw result
    alone when none does. Nothing is kept exactly when there is no raw
    result, or when no raw result reaches the threshold and the fallback
    threshold is not valid. *)
Theorem X1_kept_results_by_branch thr F raw :
  let kept := fst (relevantResults thr F raw) in
  let applied := snd (relevantResults thr F raw) in
  (forall r, In r kept -> In r raw)
  /\ (applied = false ->
      kept = filter (fun r => geq (SearchResult.score r) thr) raw
      /\ forall r, In r kept -> thr <= SearchResult.score r)
  /\ (applied = true ->
      kept <> []
      /\ (forall r, In r raw -> SearchResult.score r < thr)
      /\ exists f, F = Some f /\ 0 < f /\ f < 1
           /\ (kept = filter (fun r => geq (SearchResult.score r) f) raw
               \/ (kept = firstn 1 raw
                   /\ forall r, In r raw -> SearchResult.score r < f)))
  /\ (kept = [] <->
      raw = []
      \/ (fallbackThresholdValid F = false
          /\ forall r, In r raw -> SearchResult.score r < thr)).
Proof.
  intros kept applied. subst kept applied.
  split; [exact (relevantResults_incl thr F raw)|].
  assert (Hbelow : forall g (l : list SearchResult.t),
             filter (fun r => geq (SearchResult.score r) g) l = [] ->
             forall r, In r l -> SearchResult.score r < g).
  { intros g l Hp r Hr. apply geq_false_lt.
    exact (filter_nil_none (fun r => geq (SearchResult.score r) g) l Hp r Hr). }
  assert (Hprim : forall r,
             In r (filter (fun r => geq (SearchResult.score r) thr) raw) ->
             In r raw /\ thr <= SearchResult.score r).
  { intros r Hr. apply filter_In in Hr. rewrite geq_le in Hr. exact Hr. }
  assert (Hraw : raw = [] \/ raw <> []).
  { destruct raw; [left; reflexivity|right; discriminate]. }
  destruct (filter (fun r => geq (SearchResult.score r) thr) raw) as [|p0 ps] eqn:P.
  - (* the first filter keeps nothing *)
    destruct Hraw as [->|Hne].
    { simpl. split; [intros _; split; [reflexivity|intros r []]|].
      split; [intro H; discriminate H|].
      split; [intros _; left; reflexivity|reflexivity]. }
    destruct (fallbackThresholdValid F) eqn:V.
    + rewrite (relevantResults_fallback thr F raw P Hne V).
      destruct (proj1 (fallbackThresholdValid_iff F) V) as (f & HF & H0 & H1).
      assert (Hf : filter (passesFallback F) raw
                   = filter (fun r => geq (SearchResult.score r) f) raw).
      { apply filter_ext. intro r. unfold passesFallback. rewrite HF. reflexivity. }
      rewrite Hf.
      destruct (filter (fun r => geq (SearchResult.score r) f) raw)
        as [|k0 ks] eqn:K; simpl.
      * split; [intro H; discriminate H|]. split.
        -- intros _. split; [destruct raw; [congruence|discriminate]|].
           split; [exact (Hbelow thr raw P)|].
           exists f. repeat (split; [assumption|]).
           right. split; [reflexivity|exact (Hbelow f raw K)].
        -- split.
           ++ destruct raw; [congruence|discriminate].
           ++ intros [E|[E _]]; congruence.
      * split; [intro H; discriminate H|]. split.
        -- intros _. split; [discriminate|]. split; [exact (Hbelow thr raw P)|].
           exists f. repeat (split; [assumption|]). left. symmetry. exact K.
        -- split; [discriminate|]. intros [E|[E _]]; congruence.
    + rewrite (relevantResults_invalid thr F raw V), P. simpl.
      split; [intros _; split; [reflexivity|intros r []]|].
      split; [intro H; discriminate H|]. split; [|reflexivity].
      intros _. right. split; [reflexivity|exact (Hbelow thr raw P)].
  - (* the first filter keeps something *)
    assert (Hne : filter (fun r => geq (SearchResult.score r) thr) raw <> [])
      by (rewrite P; discriminate).
    rewrite (relevantResults_primary thr F raw Hne), P. simpl.
    split; [intros _; split; [reflexivity|]; intros r Hr; apply Hprim, Hr|].
    split; [intro H; discriminate H|]. split; [intro H; discriminate H|].
    destruct (Hprim p0 (or_introl eq_refl)) as [Hin Hle].
    intros [E|[_ Hall]].
    + subst raw. contradiction.
    + exfalso. exact (Qlt_not_le _ _ (Hall p0 Hin) Hle).
Qed.

Lemma fallbackApplied_valid thr F raw :
  snd (relevantResults thr F raw) = true -> fallbackThresholdValid F = true.
Proof.
  unfold relevantResults.
  destruct (fallbackThresholdValid F); [reflexivity|].
  rewrite andb_false_r. simpl. discriminate.
Qed.

Lemma traceEntries_index ids raw : forall idx,
  map RetrievalTraceEntry.index (traceEntries ids idx raw)
  = seq (idx + 1) (List.length raw).
Proof.
  induction raw as [|r rest IH]; intro idx; simpl; [reflexivity|].
  rewrite IH. replace (S idx + 1)%nat with (S (idx + 1)) by lia. reflexivity.
Qed.

(** X2.  The trace records the threshold of the engine; it records a
    fallback threshold exactly when the fallback was applied, and then the
    configured one, which lies strictly between 0 and 1; and its entries are
    numbered 1, 2, ... in the order of the raw results. *)
Theorem X2_trace_header thr F raw :
  let t := retrievalTrace thr F raw in
  RetrievalTrace.threshold t = thr
  /\ (forall f, RetrievalTrace.fallbackThreshold t = Some f <->
        RetrievalTrace.fallbackApplied t = true /\ F = Some f)
  /\ (forall f, RetrievalTrace.fallbackThreshold t = Some f -> 0 < f /\ f < 1)
  /\ map RetrievalTraceEntry.index (RetrievalTrace.results t)
     = seq 1 (List.length raw).
Proof.
  intro t. subst t. rewrite retrievalTrace_results, retrievalTrace_fallbackApplied.
  pose proof (fallbackApplied_valid thr F raw) as Hv.
  unfold retrievalTrace.
  destruct (relevantResults thr F raw) as [kept applied]. simpl in *.
  assert (Hiff : forall f,
             (if applied && fallbackThresholdValid F then F else None) = Some f
             <-> applied = true /\ F = Some f).
  { intro f. destruct applied; simpl.
    - rewrite (Hv eq_refl). split; [auto|tauto].
    - split; [discriminate|intros [H _]; discriminate H]. }
  split; [reflexivity|]. split; [exact Hiff|].
  split; [|apply traceEntries_index].
  intros f Hf. apply Hiff in Hf. destruct Hf as [Ha HF].
  destruct (proj1 (fallbackThresholdValid_iff F) (Hv Ha)) as (f' & E & H0 & H1).
  rewrite HF in E. inversion E; subst. auto.
Qed.

Lemma traceEntries_included ids raw : forall idx,
  List.length (filter RetrievalTraceEntry.included (traceEntries ids idx raw))
  = List.length (filter (fun r => set_has (chunkId r) ids) raw).
Proof.
  induction raw as [|r rest IH]; intro idx; simpl; [reflexivity|].
  unfold chunkId at 1. destruct (set_has _ ids); simpl; rewrite IH; reflexivity.
Qed.

Lemma relevantResults_NoDup thr F raw :
  NoDup raw -> NoDup (fst (relevantResults thr F raw)).
Proof.
  intro H. unfold relevantResults.
  destruct (_ && _ && _).
  - destruct (0 <? _)%nat; simpl; [apply NoDup_filter, H|].
    destruct raw as [|r0 rest]; simpl; [constructor|].
    constructor; [intros []|constructor].
  - simpl. apply NoDup_filter, H.
Qed.

(** X3.  When the raw results have distinct chunk ids, the trace marks as
    included as many entries as results were kept. *)
Theorem X3_trace_counts_kept_results thr F raw :
  NoDup (map chunkId raw) ->
  List.length (filter RetrievalTraceEntry.included
                      (RetrievalTrace.results (retrievalTrace thr F raw)))
  = List.length (fst (relevantResults thr F raw)).
Proof.
  intro Hnd. rewrite retrievalTrace_results, traceEntries_included.
  apply Permutation_length. apply NoDup_Permutation.
  - apply NoDup_filter. exact (NoDup_map_inv chunkId raw Hnd).
  - apply relevantResults_NoDup. exact (NoDup_map_inv chunkId raw Hnd).
  - intro r. rewrite filter_In, set_has_includedIds. split.
    + intros [Hr (r' & Hr' & E)].
      assert (r' = r) as <-; [|assumption].
      apply (NoDup_map_injective chunkId raw Hnd); try assumption.
      exact (relevantResults_incl thr F raw r' Hr').
    + intro Hr. split; [exact (relevantResults_incl thr F raw r Hr)|].
      exists r. auto.
Qed.

(* ================================================================= *)
(** ** The context and its references *)

Lemma keyIndex_app keys more k :
  In k keys -> keyIndex (keys ++ more) k = keyIndex keys k.
Proof.
  induction keys as [|k0 r IH]; simpl; intro H; [contradiction|].
  destruct (String.eqb_spec k k0) as [->|Hne]; [reflexivity|].
  destruct H as [E|H]; [congruence|]. rewrite IH; auto.
Qed.

Lemma keyIndex_new keys k :
  ~ In k keys -> keyIndex (keys ++ [k]) k = (List.length keys + 1)%nat.
Proof.
  induction keys as [|k0 r IH]; simpl; intro H.
  - rewrite String.eqb_refl. reflexivity.
  - destruct (String.eqb_spec k k0) as [->|Hne]; [exfalso; auto|].
    rewrite IH; auto.
Qed.

Lemma keyIndex_bounds keys k :
  In k keys -> (1 <= keyIndex keys k <= List.length keys)%nat.
Proof.
  induction keys as [|k0 r IH]; simpl; intro H; [contradiction|].
  destruct (String.eqb_spec k k0) as [->|Hne]; [lia|].
  destruct H as [E|H]; [congruence|]. specialize (IH H). lia.
Qed.

Lemma keyIndex_nth keys k :
  In k keys -> nth_error keys (keyIndex keys k - 1) = Some k.
Proof.
  induction keys as [|k0 r IH]; simpl; intro H; [contradiction|].
  destruct (String.eqb_spec k k0) as [->|Hne]; [reflexivity|].
  destruct H as [E|H]; [congruence|].
  pose proof (keyIndex_bounds r k H) as B.
  replace (S (keyIndex r k) - 1)%nat with (S (keyIndex r k - 1)) by lia.
  simpl. auto.
Qed.

Lemma map_get_combine_seq k keys : forall a,
  In k keys ->
  map_get k (combine keys (seq a (List.length keys)))
  = Some (a + keyIndex keys k - 1)%nat.
Proof.
  induction keys as [|k0 r IH]; intros a H; [contradiction|]. simpl.
  destruct (String.eqb_spec k k0) as [->|Hne]; [f_equal; lia|].
  destruct H as [E|H]; [congruence|].
  rewrite (IH (S a) H). f_equal. lia.
Qed.

Lemma visit_section keys done st result :
  ContextInv keys done st ->
  snd (visit st result)
  = sectionText (keyIndex (addKey keys (referenceKey result)) (referenceKey result))
                result.
Proof.
  intros [Hseen Hkeys Hidx _ _]. destruct st as [refs seen]. simpl in *.
  assert (Hlen : List.length refs = List.length keys).
  { rewrite <- (length_map AnswerReferences.pageId), Hkeys. apply length_map. }
  unfold visit, addKey. rewrite Hlen, Hseen.
  destruct (set_has (referenceKey result) keys) eqn:E.
  - apply set_has_In in E. rewrite (map_get_combine_seq _ _ 1 E).
    pose proof (keyIndex_bounds keys _ E) as B.
    replace (1 + keyIndex keys (referenceKey result) - 1)%nat
      with (keyIndex keys (referenceKey result)) by lia.
    destruct (keyIndex keys (referenceKey result)) as [|i] eqn:K; [lia|].
    reflexivity.
  - apply set_has_notIn in E.
    rewrite (map_get_combine_notin _ _ _ E), (keyIndex_new _ _ E). reflexivity.
Qed.

Lemma addKey_In keys k : In k (addKey keys k).
Proof.
  unfold addKey. destruct (set_has k keys) eqn:E.
  - apply set_has_In. exact E.
  - apply in_or_app. right. left. reflexivity.
Qed.

Lemma visitAll_sections todo : forall keys done st,
  ContextInv keys done st ->
  snd (visitAll todo st)
  = map (fun r => sectionText
                    (keyIndex (fold_left addKey (map referenceKey todo) keys)
                              (referenceKey r)) r) todo.
Proof.
  induction todo as [|r rest IH]; intros keys done st H; simpl; [reflexivity|].
  pose proof (visit_inv keys done st r H) as H1.
  pose proof (visit_section keys done st r H) as H2.
  destruct (visit st r) as [st1 s] eqn:V. simpl in H1, H2.
  pose proof (IH _ _ _ H1) as H3.
  destruct (visitAll rest st1) as [st2 ss] eqn:W. simpl in *.
  rewrite H2, H3. f_equal.
  rewrite fold_addKey. rewrite keyIndex_app; [reflexivity|apply addKey_In].
Qed.

(** X4.  The context is made of the sections of the results, in their order
    and joined by the separator, each headed by the number of the reference
    of its page; and that reference stands at that place of the reference
    list, under the key of the result. *)
Theorem X4_context_sections_follow_references results :
  let keys := distinct (map referenceKey results) in
  let refs := snd (buildContext results) in
  fst (buildContext results)
  = join contextSeparator
      (map (fun r => sectionText (keyIndex keys (referenceKey r)) r) results)
  /\ forall r, In r results ->
       exists ref,
         nth_error refs (keyIndex keys (referenceKey r) - 1) = Some ref
         /\ AnswerReferences.pageId ref = Some (referenceKey r)
         /\ AnswerReferences.index ref = keyIndex keys (referenceKey r).
Proof.
  intros keys refs.
  assert (H0 : ContextInv [] [] ([], [])).
  { constructor; simpl; try reflexivity; intros; contradiction. }
  pose proof (visitAll_sections results [] [] ([], []) H0) as Hs.
  rewrite fold_addKey_distinct in Hs. fold keys in Hs.
  destruct (buildContext_inv results) as [_ Hkeys Hidx _ _].
  simpl in Hkeys, Hidx. fold refs keys in Hkeys, Hidx.
  split.
  - unfold buildContext.
    destruct (visitAll results ([], [])) as [[rs seen] sections]. simpl in *.
    rewrite Hs. reflexivity.
  - intros r Hr.
    assert (Hk : In (referenceKey r) keys).
    { apply distinct_In. apply in_map. exact Hr. }
    pose proof (keyIndex_nth keys _ Hk) as Hn.
    pose proof (keyIndex_bounds keys _ Hk) as Hb.
    set (i := (keyIndex keys (referenceKey r) - 1)%nat) in *.
    assert (Hp : nth_error (map AnswerReferences.pageId refs) i
                 = Some (Some (referenceKey r))).
    { rewrite Hkeys, nth_error_map, Hn. reflexivity. }
    rewrite nth_error_map in Hp.
    destruct (nth_error refs i) as [ref|] eqn:N; [|discriminate].
    simpl in Hp. injection Hp as Hp'.
    exists ref. split; [reflexivity|]. split; [exact Hp'|].
    assert (Hi : nth_error (map AnswerReferences.index refs) i
                 = Some (AnswerReferences.index ref)).
    { rewrite nth_error_map, N. reflexivity. }
    rewrite Hidx in Hi.
    assert (Hlt : (i < List.length keys)%nat) by (subst i; lia).
    rewrite (nth_error_nth' _ 0%nat) in Hi by (rewrite length_seq; exact Hlt).
    rewrite seq_nth in Hi by exact Hlt. inversion Hi. subst i. lia.
Qed.

(* ================================================================= *)
(** ** The answer of the engine *)

Lemma remoteCalls_local {Messages : Type} (evs : list (Event Messages)) :
  local evs -> remoteCalls evs = [].
Proof.
  unfold local, remoteCalls. induction 1 as [|ev evs H _ IH]; simpl; [reflexivity|].
  rewrite H. exact IH.
Qed.

Section AnswerEngine.
Variable Messages : Type.
Variable buildProviderMessages :
  string -> option string -> string -> list (string * string) -> Messages.
Variable QA_USER_PROMPT_INSTRUCTIONS : string.
Variable resolveProvider : string -> string.
Variable Stream : Type.
Variable TRACE_RETRIEVAL : bool.
Variable FALLBACK_SIMILARITY_THRESHOLD : option Q.
Variable topK : Q.
Variable defaultProvider : string.
Variable similarityThreshold : Q.
Variable store_search : nat -> string -> Q -> string + list SearchResult.t.
Variable chatCompletion : nat -> Messages -> Q -> string -> string + string.
Variable chatCompletionStream : nat -> Messages -> Q -> string -> string + Stream.

(** X5.  For a question that is not blank and a search that answers,
    [answerQuestion] makes two remote calls: the search, and then one
    completion request for the prepared messages, at the default temperature
    and for the resolved provider. When the completion gives a text, the
    answer is that text, or the fixed sentence in place of an empty text,
    hence never empty, and it comes with the references and the trace of the
    preparation; when the completion fails, its error is the outcome. *)
Theorem X5_answerQuestion_returns question chatHistory providerOverride meta log raw :
  blank question = false ->
  store_search (List.length log) question topK = inr raw ->
  let kept := fst (relevantResults similarityThreshold FALLBACK_SIMILARITY_THRESHOLD raw) in
  let rt := retrievalTrace similarityThreshold FALLBACK_SIMILARITY_THRESHOLD raw in
  let provider := resolveProvider (nullish providerOverride defaultProvider) in
  exists p evs,
    let log1 := log ++ Search Messages question topK :: evs in
    let request := ChatCompletion Messages (messages p) DEFAULT_TEMPERATURE provider in
    local evs
    /\ (forall text,
          chatCompletion (List.length log1) (messages p) DEFAULT_TEMPERATURE provider
          = inr text ->
          exists answer,
            answerQuestion buildProviderMessages QA_USER_PROMPT_INSTRUCTIONS
              resolveProvider TRACE_RETRIEVAL FALLBACK_SIMILARITY_THRESHOLD topK
              defaultProvider similarityThreshold store_search chatCompletion
              question chatHistory providerOverride meta log
            = (inr (AnswerResponse.mk answer (snd (buildContext kept)) (Some rt)),
               log1 ++ [request])
            /\ answer = (if truthy text then text else NO_ANSWER)
            /\ truthy answer = true
            /\ remoteCalls (Search Messages question topK :: evs ++ [request])
               = [Search Messages question topK; request])
    /\ (forall e,
          chatCompletion (List.length log1) (messages p) DEFAULT_TEMPERATURE provider
          = inl e ->
          answerQuestion buildProviderMessages QA_USER_PROMPT_INSTRUCTIONS
            resolveProvider TRACE_RETRIEVAL FALLBACK_SIMILARITY_THRESHOLD topK
            defaultProvider similarityThreshold store_search chatCompletion
            question chatHistory providerOverride meta log
          = (inl e, log1 ++ [request])).
Proof.
  intros Hq Hs kept rt provider. subst kept rt provider.
  destruct (prepare_returns Messages buildProviderMessages QA_USER_PROMPT_INSTRUCTIONS
              TRACE_RETRIEVAL FALLBACK_SIMILARITY_THRESHOLD topK similarityThreshold
              store_search question chatHistory meta log raw Hq Hs)
    as (p & evs & Hrun & Hlocal & Hrefs & Htrace).
  exists p, evs. cbv zeta. split; [exact Hlocal|]. split.
  - intros text Htext. eexists. split; [|split; [reflexivity|split]].
    + unfold answerQuestion, bind. rewrite Hrun. unfold call. rewrite Htext.
      unfold ret. rewrite Hrefs, Htrace. reflexivity.
    + destruct text; reflexivity.
    + unfold remoteCalls. simpl. rewrite filter_app.
      fold (remoteCalls evs). rewrite (remoteCalls_local evs Hlocal). reflexivity.
  - intros e He. unfold answerQuestion, bind. rewrite Hrun. unfold call.
    rewrite He. reflexivity.
Qed.

(** X6.  When the vector search fails for a question that is not blank,
    [answerQuestion] and [createStreamingCompletion] both fail with its
    error, the search being their only call. *)
Theorem X6_search_failure_propagates question chatHistory providerOverride meta log e :
  blank question = false ->
  store_search (List.length log) question topK = inl e ->
  answerQuestion buildProviderMessages QA_USER_PROMPT_INSTRUCTIONS
    resolveProvider TRACE_RETRIEVAL FALLBACK_SIMILARITY_THRESHOLD topK
    defaultProvider similarityThreshold store_search chatCompletion
    question chatHistory providerOverride meta log
  = (inl e, log ++ [Search Messages question topK])
  /\ createStreamingCompletion buildProviderMessages QA_USER_PROMPT_INSTRUCTIONS
       resolveProvider TRACE_RETRIEVAL FALLBACK_SIMILARITY_THRESHOLD topK
       defaultProvider similarityThreshold store_search chatCompletionStream
       question chatHistory providerOverride meta log
     = (inl e, log ++ [Search Messages question topK]).
Proof.
  intros Hq Hs. unfold answerQuestion, createStreamingCompletion, bind.
  rewrite (prepare_search_fails Messages buildProviderMessages
             QA_USER_PROMPT_INSTRUCTIONS TRACE_RETRIEVAL
             FALLBACK_SIMILARITY_THRESHOLD topK similarityThreshold store_search
             question chatHistory meta log e Hq Hs).
  split; reflexivity.
Qed.

(** X7.  What [prepare] returns and logs for a question that is not blank.
    The prompt is built from the question, the history and the one section
    [Retrieval Context]. With no result kept, the instructions are the
    fallback instructions, the section holds the fixed sentence and the
    label is [qa.prompt.fallback]; with results kept by the fallback, the
    instructions carry the caveat and the label is
    [qa.prompt.fallback-context]; otherwise they are the plain instructions
    and the label is [qa.prompt]. The prompt traced is the prompt returned,
    and the retrieval trace is logged before it exactly when
    [TRACE_RETRIEVAL] is set. *)
Theorem X7_prepared_prompt_is_traced question chatHistory meta log raw :
  blank question = false ->
  store_search (List.length log) question topK = inr raw ->
  let kept := fst (relevantResults similarityThreshold FALLBACK_SIMILARITY_THRESHOLD raw) in
  let applied := snd (relevantResults similarityThreshold FALLBACK_SIMILARITY_THRESHOLD raw) in
  let rt := retrievalTrace similarityThreshold FALLBACK_SIMILARITY_THRESHOLD raw in
  let instructions :=
    match kept with
    | [] => FALLBACK_INSTRUCTIONS QA_USER_PROMPT_INSTRUCTIONS
    | _ => if applied
           then (QA_USER_PROMPT_INSTRUCTIONS ++ newline ++
                 "- Retrieved context scored below the usual similarity threshold; treat it as suggestive, not definitive.")%string
           else QA_USER_PROMPT_INSTRUCTIONS
    end in
  let context :=
    match kept with
    | [] => "No relevant Confluence context was retrieved above the similarity threshold."
    | _ => fst (buildContext kept)
    end in
  let label :=
    traceLabel meta
      match kept with
      | [] => "qa.prompt.fallback"
      | _ => if applied then "qa.prompt.fallback-context" else "qa.prompt"
      end in
  let msgs :=
    buildProviderMessages question chatHistory instructions
      [("Retrieval Context", context)] in
  prepare buildProviderMessages QA_USER_PROMPT_INSTRUCTIONS TRACE_RETRIEVAL
          FALLBACK_SIMILARITY_THRESHOLD topK similarityThreshold store_search
          question chatHistory meta log
  = (inr (mkPrepared Messages msgs (snd (buildContext kept)) rt),
     log ++ [Search Messages question topK]
         ++ (if TRACE_RETRIEVAL then [ConsoleDebug Messages rt] else [])
         ++ [TracePrompt Messages label (traceRequestId meta) msgs]).
Proof.
  intros Hq Hs. cbv zeta. unfold prepare. rewrite truthy_trim, Hq.
  change (negb (negb false)) with false. cbv iota.
  unfold bind at 1. unfold call at 1. rewrite Hs.
  destruct (relevantResults similarityThreshold FALLBACK_SIMILARITY_THRESHOLD raw)
    as [kept applied]. simpl fst. simpl snd.
  destruct TRACE_RETRIEVAL; destruct kept as [|r0 rest];
    unfold bind, emit, ret; simpl;
    try (destruct (buildContext (r0 :: rest)) as [context refs] eqn:B; simpl);
    rewrite <- ?app_assoc; reflexivity.
Qed.
End AnswerEngine.

(* ================================================================= *)
(** ** The parameters and the modes of the graph route *)

Section GraphParameters.
Variable toNumber : string -> option Q.

(** X8.  [parseNumber] gives the number read from a parameter that is not
    empty when that number is positive; it gives the fallback in every other
    case; and its value is positive whenever the fallback is. *)
Theorem X8_parseNumber_cases value fallback :
  (forall c s n,
     value = Some (String c s) -> toNumber (String c s) = Some n -> 0 < n ->
     parseNumber toNumber value fallback = n)
  /\ (parseNumber toNumber value fallback <> fallback ->
      exists s n, value = Some s /\ toNumber s = Some n /\ 0 < n
                  /\ parseNumber toNumber value fallback = n)
  /\ (0 < fallback -> 0 < parseNumber toNumber value fallback).
Proof.
  split; [|split].
  - intros c s n -> Hn Hpos. unfold parseNumber. simpl. rewrite Hn.
    apply lt_Qlt in Hpos. rewrite Hpos. reflexivity.
  - unfold parseNumber. destruct value as [s|]; [|congruence].
    destruct (negb (truthy s)); [congruence|].
    destruct (toNumber s) as [n|] eqn:E; [|congruence].
    destruct (lt 0 n) eqn:L; [|congruence].
    intros _. exists s, n. apply lt_Qlt in L. auto.
  - apply parseNumber_pos.
Qed.

(** X9.  For [min <= max], [parseFloatInRange] gives a value of the range
    whenever a number is read from the parameter, and that number itself
    when it lies in the range; in every other case it gives the fallback, as
    it is; so its value lies in the range whenever the fallback does. *)
Theorem X9_parseFloatInRange_bounds value fallback min max :
  min <= max ->
  (min <= fallback /\ fallback <= max ->
   min <= parseFloatInRange toNumber value fallback min max
   /\ parseFloatInRange toNumber value fallback min max <= max)
  /\ (forall c s n,
        value = Some (String c s) -> toNumber (String c s) = Some n ->
        min <= parseFloatInRange toNumber value fallback min max
        /\ parseFloatInRange toNumber value fallback min max <= max
        /\ (min <= n -> n <= max ->
            parseFloatInRange toNumber value fallback min max == n))
  /\ (parseFloatInRange toNumber value fallback min max <> fallback ->
      exists s n, value = Some s /\ toNumber s = Some n).
Proof.
  intro Hmm.
  assert (Hclamp : forall n, min <= Qmax min (Qmin max n) /\ Qmax min (Qmin max n) <= max).
  { intro n. split; [apply Q.le_max_l|].
    apply Q.max_lub; [exact Hmm|apply Q.le_min_l]. }
  split; [|split].
  - intros [H1 H2]. unfold parseFloatInRange.
    destruct value as [s|]; [|split; assumption].
    destruct (negb (truthy s)); [split; assumption|].
    destruct (toNumber s) as [n|]; [apply Hclamp|split; assumption].
  - intros c s n -> Hn. unfold parseFloatInRange. simpl. rewrite Hn.
    destruct (Hclamp n) as [H1 H2]. split; [exact H1|]. split; [exact H2|].
    intros Hlo Hhi. rewrite (Q.min_r max n Hhi). apply Q.max_r. exact Hlo.
  - unfold parseFloatInRange. destruct value as [s|]; [|congruence].
    destruct (negb (truthy s)); [congruence|].
    destruct (toNumber s) as [n|] eqn:E; [|congruence].
    intros _. exists s, n. split; [reflexivity|exact E].
Qed.
End GraphParameters.

Lemma initialSize_bounds c : 1 <= initialSize c /\ initialSize c <= 10.
Proof.
  unfold initialSize. split; [apply Q.le_max_l|].
  apply Q.max_lub; [discriminate|apply Q.le_min_l].
Qed.

Lemma sizeFor_bounds log10 d c : 6 <= sizeFor log10 d c /\ sizeFor log10 d c <= 18.
Proof.
  unfold sizeFor. split; [|apply Q.le_min_l].
  apply Q.min_glb; [discriminate|apply Q.le_max_l].
Qed.

Section GraphModes.
Variable toNumber : string -> option Q.
Variable log10 : Q -> Q.
Variable pages : Pages.
Variable getPineconeStore : nat -> string + unit.
Variable store_search : nat -> option string -> Q -> string + list Hit.t.

(** X10.  Without seed, the response has no edge and no call is made; its
    nodes are those of the first pages of the cache, in the order of the
    cache, min(maxNodes, 25) of them at most and exactly 25 when maxNodes
    and the cache allow, each of a size between 1 and 10. *)
Theorem X10_browse_mode params log :
  seedless params ->
  let maxNodes := parseNumber toNumber (SearchParams.maxNodes params) 50 in
  let shown := firstn (Z.to_nat (Qfloor (Qmin maxNodes 25))) (map_values pages) in
  GET toNumber log10 pages getPineconeStore store_search params log
  = (Json200 (map (fun p => Node (nodeOfEntry p)) shown) [], log)
  /\ (List.length shown <= 25)%nat
  /\ (25 <= maxNodes -> (25 <= List.length pages)%nat -> List.length shown = 25%nat)
  /\ forall p, In p shown ->
       1 <= GraphNode.size (nodeOfEntry p) /\ GraphNode.size (nodeOfEntry p) <= 10.
Proof.
  intros Hseed maxNodes shown.
  assert (Hpos : 0 < maxNodes) by (apply parseNumber_pos; reflexivity).
  assert (Hmin : 0 <= Qmin maxNodes 25).
  { apply Q.min_glb; [apply Qlt_le_weak; exact Hpos|discriminate]. }
  assert (Hfl : (Qfloor (Qmin maxNodes 25) <= 25)%Z).
  { change 25%Z with (Qfloor 25). apply Qfloor_resp_le. apply Q.le_min_r. }
  split; [|split; [|split]].
  - unfold GET, buildGraph. fold maxNodes.
    destruct Hseed as [-> | ->]; simpl; unfold ret;
      rewrite (slice0_firstn _ _ Hmin); reflexivity.
  - unfold shown. rewrite length_firstn. lia.
  - intros Hbig Hlen. unfold shown. rewrite length_firstn.
    unfold map_values. rewrite length_map.
    assert (E : Qmin maxNodes 25 == 25) by (apply Q.min_r; exact Hbig).
    assert (Qfloor (Qmin maxNodes 25) = 25%Z).
    { rewrite E. reflexivity. }
    lia.
  - intros p _. apply initialSize_bounds.
Qed.

(** X11.  When the seed reads a value from the cache object and the vector
    store cannot be obtained, the answer is the 500 response with the error
    of the store, after that one call. *)
Theorem X11_store_failure_is_500 params c s log message :
  SearchParams.seedPageId params = Some (String c s) ->
  getProperty pages (String c s) <> Undefined ->
  getPineconeStore (List.length log) = inl message ->
  GET toNumber log10 pages getPineconeStore store_search params log
  = (Json500 message, log ++ [GetPineconeStore]).
Proof.
  intros Hseed Hown Hfail. unfold GET, buildGraph. rewrite Hseed.
  destruct (getProperty pages (String c s)); [| |contradiction];
    unfold bind at 1; unfold call at 1; rewrite Hfail; reflexivity.
Qed.
End GraphModes.

(* ================================================================= *)
(** ** Invariants of the graph builder *)

(** *** Invariants of loops *)

Lemma forOf_invariant {E A S} (I : S -> Prop) (l : list A) (body : S -> A -> M E S) :
  (forall s x log s' log', I s -> body s x log = (inr s', log') -> I s') ->
  forall s log s' log', I s -> forOf l body s log = (inr s', log') -> I s'.
Proof.
  intro Hbody. induction l as [|x r IH]; intros s log s' log' Hs; simpl.
  - unfold ret. intro H. inversion H; subst. exact Hs.
  - unfold bind. destruct (body s x log) as [[e|s1] l1] eqn:B; [discriminate|].
    apply IH. exact (Hbody s x log s1 l1 Hs B).
Qed.

Lemma fold_left_invariant {A S} (I : S -> Prop) (f : S -> A -> S) (l : list A) :
  (forall s x, I s -> I (f s x)) -> forall s, I s -> I (fold_left f l s).
Proof.
  intro Hf. induction l as [|x r IH]; intros s Hs; simpl; auto.
Qed.

Section LoopInvariants.
Variable pages : Pages.
Variable store_search : nat -> option string -> Q -> string + list Hit.t.

Lemma expandLoop_invariant (I : JsMap Q * JsMap NodeValue -> Prop)
      topK threshold seed st log st' log' :
  (forall s r, I s -> I (expandNeighbor pages threshold seed s r)) ->
  I st ->
  expandLoop pages store_search topK threshold seed st log = (inr st', log') ->
  I st'.
Proof.
  intros Hstep Hst. unfold expandLoop. apply forOf_invariant; [|exact Hst].
  intros s q l s1 l1 Hs. unfold bind, search, call.
  destruct (store_search (List.length l) (Some q) topK) as [e|results];
    [discriminate|].
  unfold ret. intro H. inversion H; subst.
  apply fold_left_invariant; assumption.
Qed.

Lemma egoLoop_invariant (I : JsMap Q -> Prop)
      topK threshold seed nodeMap pageEdges log pageEdges' log' :
  (forall pe n r, I pe -> I (connectNeighbor threshold nodeMap n pe r)) ->
  I pageEdges ->
  egoLoop pages store_search topK threshold seed nodeMap pageEdges log
  = (inr pageEdges', log') ->
  I pageEdges'.
Proof.
  intros Hstep Hst. unfold egoLoop. apply forOf_invariant; [|exact Hst].
  intros pe n l pe1 l1 Hpe.
  assert (Hsearch : forall q,
             bind (search store_search q (Qmax 3 (inject_Z (Qfloor (topK / 2)))))
                  (fun results =>
                     ret (fold_left (connectNeighbor threshold nodeMap n) results pe)) l
             = (inr pe1, l1) -> I pe1).
  { intro q. unfold bind, search, call.
    destruct (store_search (List.length l) q _) as [e|results]; [discriminate|].
    unfold ret. intro H. inversion H; subst.
    apply fold_left_invariant; [|exact Hpe]. intros; apply Hstep; assumption. }
  destruct (getProperty pages n); try apply Hsearch.
  unfold ret. intro H. inversion H; subst. exact Hpe.
Qed.
End LoopInvariants.

(** *** Facts on maps *)

Section MapInvariants.
Context {V : Type}.
Implicit Types (m : JsMap V) (k : string) (v : V).

Lemma map_get_Some_In k v m : map_get k m = Some v -> In (k, v) m.
Proof.
  induction m as [|[k0 v0] r IH]; simpl; [discriminate|].
  destruct (String.eqb_spec k k0) as [->|Hne].
  - intro H. inversion H; subst. left. reflexivity.
  - intro H. right. auto.
Qed.

Lemma map_set_Forall (P : string * V -> Prop) k v m :
  Forall P m -> P (k, v) -> Forall P (map_set k v m).
Proof.
  intros H Hkv. induction H as [|[k0 v0] r Hx Hr IH]; simpl.
  - constructor; [exact Hkv|constructor].
  - destruct (String.eqb_spec k k0) as [->|Hne]; constructor; auto.
Qed.

Lemma map_set_hd k v m x :
  hd_error m = Some x -> map_has k m = false ->
  hd_error (map_set k v m) = Some x.
Proof.
  destruct m as [|[k0 v0] r]; simpl; [discriminate|].
  intros H Hhas. unfold map_has in Hhas. simpl in Hhas.
  destruct (String.eqb k k0); [discriminate|]. exact H.
Qed.
End MapInvariants.

Lemma addWeight_bounded b key w pageEdges :
  0 <= b -> b <= w ->
  Forall (fun kw => b <= snd kw) pageEdges ->
  Forall (fun kw => b <= snd kw) (addWeight key w pageEdges).
Proof.
  intros Hb Hw Hall. unfold addWeight. apply map_set_Forall; [exact Hall|]. simpl.
  destruct (map_get key pageEdges) as [old|] eqn:G; simpl.
  - apply map_get_Some_In in G. rewrite Forall_forall in Hall.
    specialize (Hall _ G). simpl in Hall. lra.
  - lra.
Qed.

(** *** What the two loops keep *)

Lemma expandNeighbor_weights pages threshold seed st r :
  0 <= threshold ->
  Forall (fun kw => threshold * (5 # 10) <= snd kw) (fst st) ->
  Forall (fun kw => threshold * (5 # 10) <= snd kw)
         (fst (expandNeighbor pages threshold seed st r)).
Proof.
  intros Ht Hall. destruct st as [pe nm]. unfold expandNeighbor.
  destruct (String.eqb _ _); [exact Hall|].
  destruct (lt (nullish (Hit.score r) 0) threshold) eqn:L; [exact Hall|].
  assert (Hs : threshold <= nullish (Hit.score r) 0).
  { apply Qnot_lt_le. intro H. apply lt_Qlt in H. congruence. }
  assert (Hw : Forall (fun kw => threshold * (5 # 10) <= snd kw)
                      (addWeight (edgeKey (VectorCacheEntry.pageId seed) (Hit.pageId r))
                                 (nullish (Hit.score r) 0) pe)).
  { apply addWeight_bounded; [lra|lra|exact Hall]. }
  destruct (getProperty pages (Hit.pageId r));
    try destruct (map_has (Hit.pageId r) nm); exact Hw.
Qed.

Lemma connectNeighbor_weights threshold nodeMap n pe r :
  0 <= threshold ->
  Forall (fun kw => threshold * (5 # 10) <= snd kw) pe ->
  Forall (fun kw => threshold * (5 # 10) <= snd kw)
         (connectNeighbor threshold nodeMap n pe r).
Proof.
  intros Ht Hall. unfold connectNeighbor.
  destruct (_ || _); [exact Hall|].
  destruct (lt (nullish (Hit.score r) 0) threshold) eqn:L; [exact Hall|].
  assert (Hs : threshold <= nullish (Hit.score r) 0).
  { apply Qnot_lt_le. intro H. apply lt_Qlt in H. congruence. }
  apply addWeight_bounded; [lra|lra|exact Hall].
Qed.

Lemma expandNeighbor_head pages threshold seed st r x :
  hd_error (snd st) = Some x ->
  hd_error (snd (expandNeighbor pages threshold seed st r)) = Some x.
Proof.
  intro H. destruct st as [pe nm]. unfold expandNeighbor.
  destruct (String.eqb _ _); [exact H|].
  destruct (lt _ _); [exact H|].
  destruct (getProperty pages (Hit.pageId r));
    try (destruct (map_has (Hit.pageId r) nm) eqn:Hhas; simpl;
         [exact H|apply map_set_hd; assumption]);
    exact H.
Qed.

Lemma getProperty_own_id pages k entry :
  Forall (fun ke => VectorCacheEntry.pageId (snd ke) = fst ke) pages ->
  getProperty pages k = Own entry -> VectorCacheEntry.pageId entry = k.
Proof.
  intros Hwf. unfold getProperty.
  destruct (map_get k pages) as [e|] eqn:G.
  - intro H. inversion H; subst. apply map_get_Some_In in G.
    rewrite Forall_forall in Hwf. exact (Hwf _ G).
  - destruct (existsb _ _); discriminate.
Qed.

Lemma expandNeighbor_filed pages threshold seed st r :
  Forall (fun ke => VectorCacheEntry.pageId (snd ke) = fst ke) pages ->
  NoDup (map_keys (snd st)) /\ Forall filedUnderId (snd st) ->
  NoDup (map_keys (snd (expandNeighbor pages threshold seed st r)))
  /\ Forall filedUnderId (snd (expandNeighbor pages threshold seed st r)).
Proof.
  intros Hwf [Hnd Hall]. destruct st as [pe nm]. unfold expandNeighbor.
  destruct (String.eqb _ _); [split; assumption|].
  destruct (lt _ _); [split; assumption|].
  destruct (getProperty pages (Hit.pageId r)) as [entry| |] eqn:P;
    try (split; assumption);
    (destruct (map_has (Hit.pageId r) nm); simpl; [split; assumption|]);
    (split; [apply map_keys_set_NoDup; exact Hnd|]);
    (apply map_set_Forall; [exact Hall|]); unfold filedUnderId; simpl.
  - left. f_equal. exact (getProperty_own_id pages _ _ Hwf P).
  - right. reflexivity.
Qed.

(** *** Counting the calls *)

Lemma atMost_ret {A} (a : A) n log : emitsAtMost n log (@ret GraphEvent A a log).
Proof. exists []. simpl. rewrite app_nil_r. split; [reflexivity|lia]. Qed.

Lemma atMost_call {A} ev (answer : nat -> string + A) n log :
  (1 <= n)%nat -> emitsAtMost n log (call ev answer log).
Proof. intro H. exists [ev]. simpl. split; [reflexivity|exact H]. Qed.

Lemma atMost_bind {A B} n1 n2 (m : M GraphEvent A) (f : A -> M GraphEvent B) log :
  emitsAtMost n1 log (m log) ->
  (forall a l, emitsAtMost n2 l (f a l)) ->
  emitsAtMost (n1 + n2) log (bind m f log).
Proof.
  intros (e1 & E1 & L1) Hf. unfold bind.
  destruct (m log) as [[e|a] l1]; simpl in *.
  - exists e1. split; [exact E1|lia].
  - destruct (Hf a l1) as (e2 & E2 & L2). destruct (f a l1) as [r2 l2]; simpl in *.
    subst. exists (e1 ++ e2). rewrite app_assoc, length_app. split; [reflexivity|lia].
Qed.

Lemma atMost_forOf {A S} (l : list A) (body : S -> A -> M GraphEvent S) :
  (forall s x log, emitsAtMost 1 log (body s x log)) ->
  forall s log, emitsAtMost (List.length l) log (forOf l body s log).
Proof.
  intro Hbody. induction l as [|x r IH]; intros s log; simpl.
  - apply atMost_ret.
  - apply (atMost_bind 1 (List.length r)); [apply Hbody|intros; apply IH].
Qed.

Lemma atMost_weaken {A} n n' log (out : (string + A) * list GraphEvent) :
  (n <= n')%nat -> emitsAtMost n log out -> emitsAtMost n' log out.
Proof. intros H (evs & E & L). exists evs. split; [exact E|lia]. Qed.

Lemma atMost_search_then {S} store_search q k (g : list Hit.t -> S) log :
  emitsAtMost 1 log
    (bind (search store_search q k) (fun results => ret (g results)) log).
Proof.
  apply (atMost_bind 1 0).
  - apply atMost_call. lia.
  - intros. apply atMost_ret.
Qed.

Lemma neighborIds_length seed nodeMap : (List.length (neighborIds seed nodeMap) <= 10)%nat.
Proof.
  unfold neighborIds. rewrite (slice0_firstn 10) by discriminate.
  rewrite length_firstn. change (Z.to_nat (Qfloor 10)) with 10%nat. lia.
Qed.

(** *** The shape of a graph response *)

Lemma nodeIds_app a b : nodeIds (a ++ b) = nodeIds a ++ nodeIds b.
Proof. unfold nodeIds. apply flat_map_app. Qed.

Lemma nodeIds_nodeId l1 l2 : map nodeId l1 = map nodeId l2 -> nodeIds l1 = nodeIds l2.
Proof.
  revert l2. induction l1 as [|x r IH]; intros [|y s]; simpl; try discriminate.
  - reflexivity.
  - intro H. inversion H as [[Hx Hr]]. rewrite Hx. f_equal. apply IH. exact Hr.
Qed.

Lemma unsized_nodeId l1 l2 : map unsized l1 = map unsized l2 -> map nodeId l1 = map nodeId l2.
Proof.
  intro H.
  assert (E : forall l, map nodeId l
                        = map (option_map (fun t => fst (fst (fst t)))) (map unsized l)).
  { intro l. rewrite map_map. apply map_ext. intros [n|]; reflexivity. }
  rewrite (E l1), (E l2), H. reflexivity.
Qed.

Lemma nodeIds_firstn k l : NoDup (nodeIds l) -> NoDup (nodeIds (firstn k l)).
Proof.
  intro H. rewrite <- (firstn_skipn k l), nodeIds_app in H.
  exact (NoDup_app_remove_r _ _ H).
Qed.

Lemma nodeIds_filed (nodeMap : JsMap NodeValue) :
  NoDup (map_keys nodeMap) -> Forall filedUnderId nodeMap ->
  NoDup (nodeIds (map_values nodeMap)).
Proof.
  intros Hnd Hall.
  assert (Hin : forall m i, Forall filedUnderId m ->
                            In i (nodeIds (map_values m)) -> In i (map_keys m)).
  { induction m as [|[k v] r IH]; simpl; [tauto|].
    intros i Hf. inversion Hf as [|? ? Hx Hr]; subst.
    rewrite in_app_iff. intros [H|H]; [|right; apply IH; assumption].
    destruct Hx as [Hx|Hx]; simpl in Hx; rewrite Hx in H; simpl in H;
      [left; tauto|contradiction]. }
  induction nodeMap as [|[k v] r IH]; simpl; [constructor|].
  inversion Hnd as [|? ? Hk Hr]; subst. inversion Hall as [|? ? Hx Hf]; subst.
  destruct Hx as [Hx|Hx]; simpl in Hx; rewrite Hx; simpl.
  - constructor; [|apply IH; assumption].
    intro H. apply Hk. apply Hin; assumption.
  - apply IH; assumption.
Qed.

Lemma wellFormed_ids (pages : Pages) :
  Forall (fun ke => VectorCacheEntry.pageId (snd ke) = fst ke) pages ->
  nodeIds (map (fun p => Node (nodeOfEntry p)) (map_values pages)) = map_keys pages.
Proof.
  induction 1 as [|[k e] r Hx Hr IH]; simpl; [reflexivity|].
  simpl in Hx. rewrite Hx. f_equal. exact IH.
Qed.

Lemma threshold_range toNumber value :
  0 <= parseFloatInRange toNumber value (25 # 100) 0 1
  /\ parseFloatInRange toNumber value (25 # 100) 0 1 <= 1.
Proof.
  unfold parseFloatInRange.
  assert (D : 0 <= 25 # 100 /\ 25 # 100 <= 1) by (split; discriminate).
  destruct value as [s|]; [|exact D].
  destruct (negb (truthy s)); [exact D|].
  destruct (toNumber s) as [n|]; [|exact D].
  split; [apply Q.le_max_l|]. apply Q.max_lub; [discriminate|apply Q.le_min_l].
Qed.

Lemma edgeOfEntry_weight kw : GraphEdge.weight (edgeOfEntry kw) = snd kw.
Proof. unfold edgeOfEntry. destruct (keyEndpoints (fst kw)). reflexivity. Qed.

Lemma slice0_prefix {A} e (l : list A) : exists k, slice0 e l = firstn k l.
Proof. unfold slice0. destruct (_ <? _)%Z; eexists; reflexivity. Qed.

Lemma limitGraph_edges log10 maxNodes nodeMap pageEdges nodes edges e :
  limitGraph log10 maxNodes nodeMap pageEdges = Json200 nodes edges ->
  In e edges -> In e (map edgeOfEntry pageEdges).
Proof.
  unfold limitGraph. intro H. inversion H as [[Hn He]]. clear H Hn.
  destruct (slice0_prefix (Qmax 20 (maxNodes * 2))
              (sortByWeight
                 (filter (fun e => allowedHas (GraphEdge.source e)
                                     (map nodeId (slice0 maxNodes (map_values nodeMap)))
                                   && allowedHas (GraphEdge.target e)
                                     (map nodeId (slice0 maxNodes (map_values nodeMap))))
                         (map edgeOfEntry pageEdges)))) as [k ->].
  intro Hin. apply In_firstn in Hin.
  apply (Permutation_in _ (sortByWeight_perm _)) in Hin.
  apply filter_In in Hin. tauto.
Qed.

Section GraphShape.
Variable toNumber : string -> option Q.
Variable log10 : Q -> Q.
Variable pages : Pages.
Variable getPineconeStore : nat -> string + unit.
Variable store_search : nat -> option string -> Q -> string + list Hit.t.

Lemma GET_graph params c s log nodes edges log' :
  SearchParams.seedPageId params = Some (String c s) ->
  GET toNumber log10 pages getPineconeStore store_search params log
  = (Json200 nodes edges, log') ->
  exists seed pageEdges nodeMap pageEdges' l2,
    getProperty pages (String c s) = Own seed
    /\ expandLoop pages store_search
         (parseNumber toNumber (SearchParams.topK params) 5)
         (parseFloatInRange toNumber (SearchParams.threshold params) (25 # 100) 0 1)
         seed
         ([], [(VectorCacheEntry.pageId seed, Node (nodeOfEntry seed))])
         (log ++ [GetPineconeStore])
       = (inr (pageEdges, nodeMap), l2)
    /\ egoLoop pages store_search
         (parseNumber toNumber (SearchParams.topK params) 5)
         (parseFloatInRange toNumber (SearchParams.threshold params) (25 # 100) 0 1)
         seed nodeMap pageEdges l2
       = (inr pageEdges', log')
    /\ limitGraph log10 (parseNumber toNumber (SearchParams.maxNodes params) 50)
                  nodeMap pageEdges'
       = Json200 nodes edges.
Proof.
  intros Hseed. unfold GET. rewrite Hseed.
  destruct (buildGraph _ _ _ _ _ _ _ _ _ log) as [[e|r] l] eqn:B;
    intro H; inversion H; subst.
  exact (buildGraph_graph _ _ _ _ _ _ _ _ _ _ _ _ _ _ B).
Qed.

Lemma GET_browse params log :
  SearchParams.seedPageId params = None
  \/ SearchParams.seedPageId params = Some EmptyString ->
  GET toNumber log10 pages getPineconeStore store_search params log
  = (Json200 (map (fun p => Node (nodeOfEntry p))
                  (slice0 (Qmin (parseNumber toNumber (SearchParams.maxNodes params) 50) 25)
                          (map_values pages))) [], log).
Proof.
  intros [H|H]; unfold GET, buildGraph; rewrite H; reflexivity.
Qed.

Lemma GET_seed_head params c s log nodes edges log' seed :
  SearchParams.seedPageId params = Some (String c s) ->
  GET toNumber log10 pages getPineconeStore store_search params log
  = (Json200 nodes edges, log') ->
  getProperty pages (String c s) = Own seed ->
  1 <= parseNumber toNumber (SearchParams.maxNodes params) 50 ->
  exists n rest,
    nodes = Node n :: rest
    /\ GraphNode.id n = VectorCacheEntry.pageId seed
    /\ GraphNode.label n = VectorCacheEntry.pageTitle seed
    /\ GraphNode.chunkCount n = VectorCacheEntry.chunkCount seed
    /\ GraphNode.spaceKey n = VectorCacheEntry.spaceKey seed.
Proof.
  intros Hseed Hrun Hown0 Hone.
  destruct (GET_graph _ _ _ _ _ _ _ Hseed Hrun)
    as (seed' & pe & nm & pe' & l2 & Hown & Hexp & Hego & Hlim).
  rewrite Hown0 in Hown. inversion Hown; subst seed'. clear Hown.
  set (maxNodes := parseNumber toNumber (SearchParams.maxNodes params) 50) in *.
  assert (Hpos : 0 < maxNodes) by (apply parseNumber_pos; reflexivity).
  destruct (limitGraph_spec log10 maxNodes nm pe' Hpos)
    as (nodes0 & edges0 & dropped & E & Hnodes & _).
  rewrite Hlim in E. inversion E; subst nodes0 edges0. clear E.
  assert (Hhd : hd_error nm
                = Some (VectorCacheEntry.pageId seed, Node (nodeOfEntry seed))).
  { eapply (expandLoop_invariant pages store_search
              (fun st => hd_error (snd st)
                         = Some (VectorCacheEntry.pageId seed, Node (nodeOfEntry seed)))
              _ _ _ _ _ (pe, nm)); [| |exact Hexp].
    - intros st r. apply expandNeighbor_head.
    - reflexivity. }
  assert (Hk : (1 <= Z.to_nat (Qfloor maxNodes))%nat).
  { assert (1 <= Qfloor maxNodes)%Z
      by (change 1%Z with (Qfloor 1); apply Qfloor_resp_le; exact Hone).
    lia. }
  destruct (Z.to_nat (Qfloor maxNodes)) as [|k]; [lia|].
  destruct nm as [|[k0 v0] r]; [discriminate|].
  simpl in Hhd. inversion Hhd; subst.
  destruct nodes as [|[n|] rest]; simpl in Hnodes; try discriminate.
  inversion Hnodes. exists n, rest. auto.
Qed.

(** X12.  A graph built from a seed has the page read from the cache under
    the seed id as its first node whenever maxNodes is at least 1; with a
    maxNodes below 1 it has no node and no edge. *)
Theorem X12_seed_node_comes_first params c s log nodes edges log' :
  let maxNodes := parseNumber toNumber (SearchParams.maxNodes params) 50 in
  SearchParams.seedPageId params = Some (String c s) ->
  GET toNumber log10 pages getPineconeStore store_search params log
  = (Json200 nodes edges, log') ->
  exists seed,
    map_get (String c s) pages = Some seed
    /\ (1 <= maxNodes ->
        hd_error (map unsized nodes)
        = Some (Some (VectorCacheEntry.pageId seed, VectorCacheEntry.pageTitle seed,
                      VectorCacheEntry.chunkCount seed, VectorCacheEntry.spaceKey seed)))
    /\ (maxNodes < 1 -> nodes = [] /\ edges = []).
Proof.
  intros maxNodes Hseed Hrun.
  destruct (GET_graph _ _ _ _ _ _ _ Hseed Hrun)
    as (seed & pe & nm & pe' & l2 & Hown & Hexp & Hego & Hlim).
  fold maxNodes in Hlim.
  exists seed. split.
  { unfold getProperty in Hown. destruct (map_get (String c s) pages) as [e|].
    - inversion Hown; reflexivity.
    - destruct (existsb _ _); discriminate. }
  assert (Hpos : 0 < maxNodes) by (apply parseNumber_pos; reflexivity).
  destruct (limitGraph_spec log10 maxNodes nm pe' Hpos)
    as (nodes0 & edges0 & dropped & E & Hnodes & Hperm & _).
  rewrite Hlim in E. inversion E; subst nodes0 edges0. clear E.
  split.
  - intro Hone.
    destruct (GET_seed_head _ _ _ _ _ _ _ _ Hseed Hrun Hown Hone)
      as (n & rest & -> & H1 & H2 & H3 & H4).
    simpl. rewrite H1, H2, H3, H4. reflexivity.
  - intro Hlt.
    assert (Hk : Z.to_nat (Qfloor maxNodes) = 0%nat).
    { assert (Qfloor maxNodes < 1)%Z.
      { destruct (Z_lt_le_dec (Qfloor maxNodes) 1) as [L|L]; [exact L|].
        exfalso. apply (Qlt_not_le _ _ Hlt).
        apply Qle_trans with (inject_Z (Qfloor maxNodes)); [|apply Qfloor_le].
        change 1 with (inject_Z 1). rewrite <- Zle_Qle. exact L. }
      lia. }
    rewrite Hk in Hnodes. simpl in Hnodes.
    assert (Hn : nodes = []) by (destruct nodes; [reflexivity|discriminate]).
    split; [exact Hn|]. subst nodes.
    assert (Hf : filter (joins []) (map edgeOfEntry pe') = []).
    { clear. induction (map edgeOfEntry pe') as [|x r IH]; simpl; auto. }
    rewrite Hf in Hperm. apply Permutation_sym, Permutation_nil in Hperm.
    destruct edges; [reflexivity|discriminate].
Qed.

Lemma GET_ids_NoDup params log nodes edges log' :
  NoDup (map_keys pages) ->
  Forall (fun ke => VectorCacheEntry.pageId (snd ke) = fst ke) pages ->
  GET toNumber log10 pages getPineconeStore store_search params log
  = (Json200 nodes edges, log') ->
  NoDup (nodeIds nodes).
Proof.
  intros Hnd Hwf Hrun.
  destruct (SearchParams.seedPageId params) as [[|c s]|] eqn:Hseed.
  - rewrite GET_browse in Hrun by auto. inversion Hrun; subst.
    destruct (slice0_prefix
                (Qmin (parseNumber toNumber (SearchParams.maxNodes params) 50) 25)
                (map_values pages)) as [k ->].
    rewrite <- firstn_map. apply nodeIds_firstn.
    rewrite wellFormed_ids; assumption.
  - destruct (GET_graph _ _ _ _ _ _ _ Hseed Hrun)
      as (seed & pe & nm & pe' & l2 & Hown & Hexp & Hego & Hlim).
    assert (Hinv : NoDup (map_keys nm) /\ Forall filedUnderId nm).
    { eapply (expandLoop_invariant pages store_search
                (fun st => NoDup (map_keys (snd st)) /\ Forall filedUnderId (snd st))
                _ _ _ _ _ (pe, nm)); [| |exact Hexp].
      - intros st r. apply expandNeighbor_filed. exact Hwf.
      - simpl. split.
        + constructor; [intros []|constructor].
        + constructor; [left; reflexivity|constructor]. }
    destruct Hinv as [Hk Hf].
    unfold limitGraph in Hlim. inversion Hlim as [[Hn He]]. clear Hlim He.
    rewrite (nodeIds_nodeId _ (slice0 (parseNumber toNumber (SearchParams.maxNodes params) 50)
                                      (map_values nm)))
      by apply resize_nodeId.
    destruct (slice0_prefix (parseNumber toNumber (SearchParams.maxNodes params) 50)
                            (map_values nm)) as [k ->].
    apply nodeIds_firstn. apply nodeIds_filed; assumption.
  - rewrite GET_browse in Hrun by auto. inversion Hrun; subst.
    destruct (slice0_prefix
                (Qmin (parseNumber toNumber (SearchParams.maxNodes params) 50) 25)
                (map_values pages)) as [k ->].
    rewrite <- firstn_map. apply nodeIds_firstn.
    rewrite wellFormed_ids; assumption.
Qed.

(** X13.  With a cache whose entries are filed once each, under their own
    page id, no two nodes of a response have the same id. *)
Theorem X13_node_ids_unique params log nodes edges log' :
  wellFormed pages ->
  GET toNumber log10 pages getPineconeStore store_search params log
  = (Json200 nodes edges, log') ->
  NoDup (nodeIds nodes)
  /\ forall i j n m,
       nth_error nodes i = Some (Node n) -> nth_error nodes j = Some (Node m) ->
       GraphNode.id n = GraphNode.id m -> i = j.
Proof.
  intros [Hnd Hwf] Hrun.
  pose proof (GET_ids_NoDup _ _ _ _ _ Hnd Hwf Hrun) as H.
  split; [exact H|]. clear Hrun.
  induction nodes as [|v r IH]; intros i j n m Hi Hj E.
  - destruct i; discriminate.
  - assert (Hr : NoDup (nodeIds r)).
    { change (v :: r) with ([v] ++ r) in H. rewrite nodeIds_app in H.
      exact (NoDup_app_remove_l _ _ H). }
    assert (Hin : forall k x, nth_error r k = Some (Node x) ->
                              In (GraphNode.id x) (nodeIds r)).
    { intros k x Hk. apply nth_error_In in Hk. unfold nodeIds.
      apply in_flat_map. exists (Node x). split; [exact Hk|left; reflexivity]. }
    destruct i as [|i], j as [|j]; simpl in Hi, Hj.
    + reflexivity.
    + exfalso. inversion Hi; subst v. simpl in H. inversion H as [|? ? Hn _]; subst.
      apply Hn. rewrite E. exact (Hin _ _ Hj).
    + exfalso. inversion Hj; subst v. simpl in H. inversion H as [|? ? Hn _]; subst.
      apply Hn. rewrite <- E. exact (Hin _ _ Hi).
    + f_equal. exact (IH Hr i j n m Hi Hj E).
Qed.

Lemma GET_weights params log nodes edges log' e :
  GET toNumber log10 pages getPineconeStore store_search params log
  = (Json200 nodes edges, log') ->
  In e edges ->
  parseFloatInRange toNumber (SearchParams.threshold params) (25 # 100) 0 1 * (5 # 10)
  <= GraphEdge.weight e.
Proof.
  intros Hrun He.
  set (threshold :=
         parseFloatInRange toNumber (SearchParams.threshold params) (25 # 100) 0 1).
  destruct (threshold_range toNumber (SearchParams.threshold params)) as [Ht0 Ht1].
  fold threshold in Ht0, Ht1.
  destruct (SearchParams.seedPageId params) as [[|c s]|] eqn:Hseed;
    try (rewrite GET_browse in Hrun by auto; inversion Hrun; subst; contradiction).
  destruct (GET_graph _ _ _ _ _ _ _ Hseed Hrun)
    as (seed & pe & nm & pe' & l2 & Hown & Hexp & Hego & Hlim).
  fold threshold in Hexp, Hego.
  assert (H1 : Forall (fun kw => threshold * (5 # 10) <= snd kw) pe).
  { eapply (expandLoop_invariant pages store_search
              (fun st => Forall (fun kw => threshold * (5 # 10) <= snd kw) (fst st))
              _ _ _ _ _ (pe, nm)); [| |exact Hexp].
    - intros st r. apply expandNeighbor_weights. exact Ht0.
    - constructor. }
  assert (H2 : Forall (fun kw => threshold * (5 # 10) <= snd kw) pe').
  { eapply (egoLoop_invariant pages store_search
              (fun m => Forall (fun kw => threshold * (5 # 10) <= snd kw) m));
      [| |exact Hego].
    - intros m n r. apply connectNeighbor_weights. exact Ht0.
    - exact H1. }
  apply (limitGraph_edges _ _ _ _ _ _ _ Hlim) in He.
  apply in_map_iff in He. destruct He as (kw & <- & Hin).
  rewrite edgeOfEntry_weight. rewrite Forall_forall in H2. exact (H2 _ Hin).
Qed.

(** X14.  The threshold used lies between 0 and 1, and every edge returned
    weighs at least half of it, hence is never negative. *)
Theorem X14_edge_weights_bounded_below params log nodes edges log' :
  let threshold :=
    parseFloatInRange toNumber (SearchParams.threshold params) (25 # 100) 0 1 in
  GET toNumber log10 pages getPineconeStore store_search params log
  = (Json200 nodes edges, log') ->
  0 <= threshold /\ threshold <= 1
  /\ forall e, In e edges ->
       threshold * (5 # 10) <= GraphEdge.weight e /\ 0 <= GraphEdge.weight e.
Proof.
  intros threshold Hrun.
  destruct (threshold_range toNumber (SearchParams.threshold params)) as [Ht0 Ht1].
  fold threshold in Ht0, Ht1.
  split; [exact Ht0|]. split; [exact Ht1|]. intros e He.
  pose proof (GET_weights _ _ _ _ _ e Hrun He) as H. fold threshold in H.
  split; [exact H|lra].
Qed.

(** X15.  Without seed, the size of a node returned is its chunk count
    clamped to [1, 10]. With a seed, it is the size computed from the number
    of ends that the returned edges have at the node, taken as 1 when there
    is none, and it lies in [6, 18]. *)
Theorem X15_node_sizes_bounded params log nodes edges log' :
  GET toNumber log10 pages getPineconeStore store_search params log
  = (Json200 nodes edges, log') ->
  forall n, In (Node n) nodes ->
    match SearchParams.seedPageId params with
    | None | Some EmptyString =>
        GraphNode.size n = initialSize (GraphNode.chunkCount n)
        /\ 1 <= GraphNode.size n /\ GraphNode.size n <= 10
    | Some _ =>
        GraphNode.size n
        = sizeFor log10 (Nat.max 1 (finalDegree edges (GraphNode.id n)))
                  (GraphNode.chunkCount n)
        /\ 6 <= GraphNode.size n /\ GraphNode.size n <= 18
    end.
Proof.
  intros Hrun n Hn.
  assert (Hbrowse :
            SearchParams.seedPageId params = None
            \/ SearchParams.seedPageId params = Some EmptyString ->
            GraphNode.size n = initialSize (GraphNode.chunkCount n)
            /\ 1 <= GraphNode.size n /\ GraphNode.size n <= 10).
  { intro H. rewrite GET_browse in Hrun by exact H. inversion Hrun; subst.
    apply in_map_iff in Hn. destruct Hn as (p & E & _). inversion E; subst.
    simpl. split; [reflexivity|apply initialSize_bounds]. }
  destruct (SearchParams.seedPageId params) as [[|c s]|] eqn:Hseed; auto.
  destruct (GET_graph _ _ _ _ _ _ _ Hseed Hrun)
    as (seed & pe & nm & pe' & l2 & Hown & Hexp & Hego & Hlim).
  assert (Hpos : 0 < parseNumber toNumber (SearchParams.maxNodes params) 50)
    by (apply parseNumber_pos; reflexivity).
  destruct (limitGraph_spec log10 _ nm pe' Hpos)
    as (nodes0 & edges0 & dropped & E & _ & _ & _ & _ & _ & Hsize).
  rewrite Hlim in E. inversion E; subst nodes0 edges0. clear E.
  rewrite (Hsize n Hn).
  replace (Nat.max 1 (finalDegree edges (GraphNode.id n)))
    with (if (finalDegree edges (GraphNode.id n) =? 0)%nat then 1%nat
          else finalDegree edges (GraphNode.id n)).
  - split; [reflexivity|apply sizeFor_bounds].
  - destruct (finalDegree edges (GraphNode.id n)) as [|d]; simpl; [reflexivity|lia].
Qed.

(** X16.  A request makes no call at all, or it asks for the vector store
    once, first, and then makes twelve searches at most: two for the
    synthetic queries and ten for the neighbours. *)
Theorem X16_at_most_twelve_searches params log :
  exists evs,
    snd (GET toNumber log10 pages getPineconeStore store_search params log)
    = log ++ evs
    /\ (evs = []
        \/ exists probes,
             evs = GetPineconeStore :: probes
             /\ (List.length probes <= 12)%nat
             /\ Forall (fun ev => ev <> GetPineconeStore) probes).
Proof.
  assert (Hsnd : forall (out : (string + Response) * list GraphEvent),
             snd (match out with
                  | (inr response, log') => (response, log')
                  | (inl message, log') => (Json500 message, log')
                  end) = snd out).
  { intros [[e|r] l]; reflexivity. }
  unfold GET. rewrite Hsnd. unfold buildGraph.
  set (topK := parseNumber toNumber (SearchParams.topK params) 5).
  set (threshold := parseFloatInRange toNumber _ _ _ _).
  set (maxNodes := parseNumber toNumber (SearchParams.maxNodes params) 50).
  destruct (SearchParams.seedPageId params) as [[|c s]|];
    try (exists []; split; [simpl; rewrite app_nil_r; reflexivity|left; reflexivity]).
  destruct (getProperty pages (String c s)) as [seed| |];
    [| |exists []; split; [simpl; rewrite app_nil_r; reflexivity|left; reflexivity]].
  - unfold bind at 1. unfold call at 1.
    destruct (getPineconeStore (List.length log)) as [e|[]].
    + exists [GetPineconeStore]. split; [reflexivity|]. right.
      exists []. split; [reflexivity|]. split; [simpl; lia|constructor].
    + set (rest := bind (expandLoop pages store_search topK threshold seed _) _).
      assert (Hcount : emitsAtMost 12 (log ++ [GetPineconeStore])
                                   (rest (log ++ [GetPineconeStore]))).
      { unfold rest. apply (atMost_bind 2 10).
        - unfold expandLoop. apply (atMost_forOf (syntheticQueries seed)).
          intros. apply atMost_search_then.
        - intros [pe nm] l. apply (atMost_bind 10 0); [|intros; apply atMost_ret].
          apply (atMost_weaken (List.length (neighborIds seed nm)));
            [apply neighborIds_length|].
          unfold egoLoop. apply atMost_forOf. intros pe0 n l0.
          destruct (getProperty pages n);
            try apply atMost_search_then.
          apply (atMost_weaken 0); [lia|apply atMost_ret]. }
      assert (Hkind : emitsOnly (fun ev => ev <> GetPineconeStore)
                                (log ++ [GetPineconeStore])
                                (rest (log ++ [GetPineconeStore]))).
      { unfold rest. apply emits_bind.
        - intro l. unfold expandLoop. apply emits_forOf. intros st q l' _.
          apply emits_bind; [|intros; apply emits_ret].
          intro l''. apply emits_call. discriminate.
        - intros [pe nm] l. apply emits_bind; [|intros; apply emits_ret].
          intro l0. unfold egoLoop. apply emits_forOf. intros pe0 n l' _.
          destruct (getProperty pages n); try apply emits_ret;
            (apply emits_bind; [|intros; apply emits_ret]);
            intro l''; apply emits_call; discriminate. }
      destruct Hcount as (evs & E & L). destruct Hkind as (evs' & E' & K).
      rewrite E in E'. apply app_inv_head in E'. subst evs'.
      exists (GetPineconeStore :: evs). split.
      * rewrite E, <- app_assoc. reflexivity.
      * right. exists evs. auto.
  - unfold bind, call, throw.
    destruct (getPineconeStore (List.length log)) as [e|[]];
      (exists [GetPineconeStore]; split; [reflexivity|]; right;
       exists []; split; [reflexivity|]; split; [simpl; lia|constructor]).
Qed.
End GraphShape.

(* ================================================================= *)
(** ** Properties of the graph view *)

Lemma findNode_allowed id nodes :
  findNode id nodes <> None <-> allowedHas id (map nodeId nodes) = true.
Proof.
  unfold findNode. induction nodes as [|v r IH]; simpl.
  - split; [congruence|discriminate].
  - destruct (nodeId v) as [i|]; simpl.
    + rewrite (String.eqb_sym id i).
      destruct (String.eqb i id); [split; [reflexivity|discriminate]|exact IH].
    + exact IH.
Qed.

Lemma filter_all {A} (f : A -> bool) (l : list A) :
  (forall x, In x l -> f x = true) -> filter f l = l.
Proof.
  induction l as [|x r IH]; simpl; intro H; [reflexivity|].
  rewrite (H x (or_introl eq_refl)). f_equal. apply IH. auto.
Qed.

Lemma map_get_NoDup_In {V} k (v : V) (m : JsMap V) :
  NoDup (map_keys m) -> In (k, v) m -> map_get k m = Some v.
Proof.
  induction m as [|[k0 v0] r IH]; simpl; [contradiction|].
  intros Hnd [E|Hin]; inversion Hnd as [|? ? Hk Hr]; subst.
  - inversion E; subst. rewrite String.eqb_refl. reflexivity.
  - destruct (String.eqb_spec k k0) as [->|Hne]; [|auto].
    exfalso. apply Hk. apply (in_map fst) in Hin. exact Hin.
Qed.

Section GraphViewProperties.
Variable toNumber : string -> option Q.
Variable log10 : Q -> Q.
Variable pages : Pages.
Variable getPineconeStore : nat -> string + unit.
Variable store_search : nat -> option string -> Q -> string + list Hit.t.

Lemma GET_joins params log nodes edges log' e :
  GET toNumber log10 pages getPineconeStore store_search params log
  = (Json200 nodes edges, log') ->
  In e edges -> joins nodes e = true.
Proof.
  intros Hrun He.
  destruct (SearchParams.seedPageId params) as [[|c s]|] eqn:Hseed;
    try (rewrite GET_browse in Hrun by auto; inversion Hrun; subst; contradiction).
  destruct (GET_graph _ _ _ _ _ _ _ _ _ _ _ _ Hseed Hrun)
    as (seed & pe & nm & pe' & l2 & Hown & Hexp & Hego & Hlim).
  assert (Hpos : 0 < parseNumber toNumber (SearchParams.maxNodes params) 50)
    by (apply parseNumber_pos; reflexivity).
  destruct (limitGraph_spec log10 _ nm pe' Hpos)
    as (nodes0 & edges0 & dropped & E & _ & Hperm & _).
  rewrite Hlim in E. inversion E; subst nodes0 edges0. clear E.
  assert (Hin : In e (edges ++ dropped)) by (apply in_or_app; auto).
  apply (Permutation_in _ Hperm) in Hin. apply filter_In in Hin. tauto.
Qed.

Lemma GET_limits params c s log nodes edges log' :
  SearchParams.seedPageId params = Some (String c s) ->
  GET toNumber log10 pages getPineconeStore store_search params log
  = (Json200 nodes edges, log') ->
  (List.length nodes
   <= Z.to_nat (Qfloor (parseNumber toNumber (SearchParams.maxNodes params) 50)))%nat
  /\ (List.length edges
      <= Z.to_nat (Qfloor (Qmax 20 (parseNumber toNumber
                                      (SearchParams.maxNodes params) 50 * 2))))%nat.
Proof.
  intros Hseed Hrun.
  destruct (GET_graph _ _ _ _ _ _ _ _ _ _ _ _ Hseed Hrun)
    as (seed & pe & nm & pe' & l2 & Hown & Hexp & Hego & Hlim).
  assert (Hpos : 0 < parseNumber toNumber (SearchParams.maxNodes params) 50)
    by (apply parseNumber_pos; reflexivity).
  destruct (limitGraph_spec log10 _ nm pe' Hpos)
    as (nodes0 & edges0 & dropped & E & Hnodes & _ & _ & _ & Hlen & _).
  rewrite Hlim in E. inversion E; subst nodes0 edges0. clear E.
  split.
  - rewrite <- (length_map unsized nodes), Hnodes, length_firstn. lia.
  - rewrite Hlen. lia.
Qed.

Lemma GET_sizes params log nodes edges log' n :
  GET toNumber log10 pages getPineconeStore store_search params log
  = (Json200 nodes edges, log') ->
  In (Node n) nodes ->
  1 <= GraphNode.size n /\ GraphNode.size n <= 18
  /\ (SearchParams.seedPageId params = None
      \/ SearchParams.seedPageId params = Some EmptyString ->
      GraphNode.size n <= 10).
Proof.
  intros Hrun Hn.
  assert (Hbrowse :
            SearchParams.seedPageId params = None
            \/ SearchParams.seedPageId params = Some EmptyString ->
            1 <= GraphNode.size n /\ GraphNode.size n <= 10).
  { intro H. rewrite GET_browse in Hrun by exact H. inversion Hrun; subst.
    apply in_map_iff in Hn. destruct Hn as (p & E & _). inversion E; subst.
    simpl. apply initialSize_bounds. }
  destruct (SearchParams.seedPageId params) as [[|c s]|] eqn:Hseed;
    try (destruct Hbrowse as [H1 H2]; [auto|];
         split; [exact H1|split; [lra|intros _; exact H2]]).
  destruct (GET_graph _ _ _ _ _ _ _ _ _ _ _ _ Hseed Hrun)
    as (seed & pe & nm & pe' & l2 & Hown & Hexp & Hego & Hlim).
  assert (Hpos : 0 < parseNumber toNumber (SearchParams.maxNodes params) 50)
    by (apply parseNumber_pos; reflexivity).
  destruct (limitGraph_spec log10 _ nm pe' Hpos)
    as (nodes0 & edges0 & dropped & E & _ & _ & _ & _ & _ & Hsize).
  rewrite Hlim in E. inversion E; subst nodes0 edges0. clear E.
  rewrite (Hsize n Hn).
  destruct (sizeFor_bounds log10
              (if (finalDegree edges (GraphNode.id n) =? 0)%nat then 1%nat
               else finalDegree edges (GraphNode.id n))
              (GraphNode.chunkCount n)) as [H1 H2].
  split; [lra|]. split; [exact H2|]. intros [H|H]; discriminate H.
Qed.

(** X17.  Every edge of a graph response gets its line: both of its ends are
    found among the nodes of the response. *)
Theorem X17_view_draws_every_edge params log nodes edges log' :
  GET toNumber log10 pages getPineconeStore store_search params log
  = (Json200 nodes edges, log') ->
  drawnEdges nodes edges = edges.
Proof.
  intro Hrun. unfold drawnEdges. apply filter_all. intros e He.
  pose proof (GET_joins _ _ _ _ _ e Hrun He) as J.
  unfold joins in J. apply andb_true_iff in J. destruct J as [Ja Jb].
  apply findNode_allowed in Ja. apply findNode_allowed in Jb.
  destruct (findNode (GraphEdge.source e) nodes); [|congruence].
  destruct (findNode (GraphEdge.target e) nodes); [reflexivity|congruence].
Qed.

(** X18.  The radius of a node of a graph response lies between 15 and 18,
    the cap at 30 never applies, and without a seed every radius is 15. *)
Theorem X18_view_radius_range params log nodes edges log' :
  GET toNumber log10 pages getPineconeStore store_search params log
  = (Json200 nodes edges, log') ->
  forall v, In v nodes ->
    15 <= nodeRadius v /\ nodeRadius v <= 18
    /\ (forall n, v = Node n -> nodeRadius v == Qmax 15 (GraphNode.size n))
    /\ (SearchParams.seedPageId params = None
        \/ SearchParams.seedPageId params = Some EmptyString ->
        nodeRadius v == 15).
Proof.
  intros Hrun v Hv. destruct v as [n|].
  - destruct (GET_sizes _ _ _ _ _ n Hrun Hv) as (H1 & H2 & H3).
    assert (E : Qmin 30 (GraphNode.size n) == GraphNode.size n)
      by (apply Q.min_r; lra).
    assert (R : nodeRadius (Node n) == Qmax 15 (GraphNode.size n)).
    { unfold nodeRadius. rewrite E. reflexivity. }
    split; [apply Q.le_max_l|].
    split; [rewrite R; apply Q.max_lub; [discriminate|exact H2]|].
    split.
    + intros m Hm. inversion Hm; subst. exact R.
    + intro Hs. rewrite R. apply Q.max_l. specialize (H3 Hs). lra.
  - split; [discriminate|]. split; [discriminate|].
    split; [intros n Hn; discriminate Hn|]. intros _. reflexivity.
Qed.

(** X19.  The line of an edge of a graph response has an opacity between 0.3
    and 0.8 and a width of at least 1. *)
Theorem X19_view_edge_style params log nodes edges log' :
  GET toNumber log10 pages getPineconeStore store_search params log
  = (Json200 nodes edges, log') ->
  forall e, In e edges ->
    3 # 10 <= edgeOpacity e /\ edgeOpacity e <= 8 # 10
    /\ 1 <= edgeStrokeWidth e
    /\ (5 # 10 <= GraphEdge.weight e ->
        edgeOpacity e == 8 # 10 /\ edgeStrokeWidth e == GraphEdge.weight e * 2).
Proof.
  intros Hrun e He.
  pose proof (GET_weights _ _ _ _ _ _ _ _ _ _ e Hrun He) as Hw.
  destruct (threshold_range toNumber (SearchParams.threshold params)) as [Ht0 _].
  assert (H0 : 0 <= GraphEdge.weight e) by lra.
  unfold edgeOpacity, edgeStrokeWidth.
  split; [apply Q.min_glb; [discriminate|lra]|].
  split; [apply Q.le_min_l|].
  split; [apply Q.le_max_l|].
  intro Hhalf. split; [apply Q.min_l; lra|apply Q.max_r; lra].
Qed.

(** X20.  The view centres the seed: when the cache is well formed, the
    response to the request of a view with a seed starts with the seed node,
    which is the main node and the only one, and holds at most 60 nodes and
    120 edges. *)
Theorem X20_view_centres_seed c s log nodes edges log' :
  wellFormed pages ->
  toNumber "60" = Some 60 ->
  GET toNumber log10 pages getPineconeStore store_search
      (graphViewRequest (Some (String c s))) log
  = (Json200 nodes edges, log') ->
  mainNodeId (Some (String c s)) nodes = Some (String c s)
  /\ (exists n rest,
        nodes = Node n :: rest
        /\ GraphNode.id n = String c s
        /\ isMainNode (mainNodeId (Some (String c s)) nodes) (Node n) = true
        /\ forall v, In v rest ->
             isMainNode (mainNodeId (Some (String c s)) nodes) v = false)
  /\ (List.length nodes <= 60)%nat
  /\ (List.length edges <= 120)%nat.
Proof.
  intros [Hnd Hwf] H60 Hrun.
  assert (Hseed : SearchParams.seedPageId (graphViewRequest (Some (String c s)))
                  = Some (String c s)) by reflexivity.
  assert (Hmax : parseNumber toNumber
                   (SearchParams.maxNodes (graphViewRequest (Some (String c s)))) 50
                 = 60).
  { unfold parseNumber. simpl. rewrite H60. reflexivity. }
  destruct (GET_graph _ _ _ _ _ _ _ _ _ _ _ _ Hseed Hrun)
    as (seed & _ & _ & _ & _ & Hown & _).
  pose proof (getProperty_own_id _ _ _ Hwf Hown) as Hid.
  assert (Hone : 1 <= parseNumber toNumber
                        (SearchParams.maxNodes (graphViewRequest (Some (String c s)))) 50)
    by (rewrite Hmax; discriminate).
  destruct (GET_seed_head _ _ _ _ _ _ _ _ _ _ _ _ _ Hseed Hrun Hown Hone)
    as (n & rest & -> & Hn & _).
  rewrite Hid in Hn.
  assert (Hmain : mainNodeId (Some (String c s)) (Node n :: rest) = Some (String c s)).
  { unfold mainNodeId, findNode. simpl. rewrite Hn, String.eqb_refl. reflexivity. }
  split; [exact Hmain|]. split.
  - exists n, rest. split; [reflexivity|]. split; [exact Hn|]. rewrite Hmain.
    split; [unfold isMainNode; simpl; rewrite Hn; apply String.eqb_refl|].
    intros v Hv. destruct v as [m|]; [|reflexivity].
    unfold isMainNode. simpl. apply String.eqb_neq. intro E.
    pose proof (GET_ids_NoDup _ _ _ _ _ _ _ _ _ _ Hnd Hwf Hrun) as Hu.
    simpl in Hu. inversion Hu as [|? ? Hnot _]; subst. apply Hnot.
    rewrite Hn, <- E. unfold nodeIds. apply in_flat_map.
    exists (Node m). split; [exact Hv|left; reflexivity].
  - destruct (GET_limits _ _ _ _ _ _ _ Hseed Hrun) as [L1 L2].
    rewrite Hmax in L1, L2. split; [exact L1|exact L2].
Qed.
End GraphViewProperties.

(* ================================================================= *)
(** ** Properties of the chat window *)

Lemma blank_app s t : blank s = true -> blank (s ++ t)%string = blank t.
Proof.
  induction s as [s IH] using by_length. intro H.
  rewrite blank_strip in H.
  destruct (stripWhiteSpace s) as [r|] eqn:E.
  - rewrite (blank_strip (s ++ t)%string), (strip_app s r t E).
    apply IH; [exact (strip_shorter s r E)|exact H].
  - destruct s; [reflexivity|discriminate].
Qed.

(** [trimEnd] cuts a blank end off. *)
Lemma trimEnd_suffix s : exists t, s = (trimEnd s ++ t)%string /\ blank t = true.
Proof.
  induction s as [|a r IH]; [exists EmptyString; auto|].
  rewrite trimEnd_cons. destruct (blank (String a r)) eqn:B.
  - exists (String a r). auto.
  - destruct IH as (t & E & Ht). exists t. simpl. rewrite <- E. auto.
Qed.

Lemma blank_trimEnd s : blank (trimEnd s) = blank s.
Proof.
  destruct (blank s) eqn:B.
  - apply trimEnd_empty in B. rewrite B. reflexivity.
  - destruct (blank (trimEnd s)) eqn:B'; [|reflexivity].
    destruct (trimEnd_suffix s) as (t & E & Ht).
    rewrite E, (blank_app _ _ B'), Ht in B. discriminate.
Qed.

Lemma blank_trim s : blank (trim s) = blank s.
Proof. unfold trim. rewrite blank_trimEnd. apply blank_trimStart. Qed.

Lemma trimEnd_idempotent s : trimEnd (trimEnd s) = trimEnd s.
Proof.
  induction s as [|a r IH]; [reflexivity|].
  rewrite trimEnd_cons. destruct (blank (String a r)) eqn:B; [reflexivity|].
  rewrite trimEnd_cons, IH.
  assert (H : blank (String a (trimEnd r)) = false).
  { rewrite <- B, <- (blank_trimEnd (String a r)), trimEnd_cons, B. reflexivity. }
  rewrite H. reflexivity.
Qed.

Lemma trimStart_trimEnd s :
  stripWhiteSpace s = None -> trimStart (trimEnd s) = trimEnd s.
Proof.
  intro H. rewrite trimStart_strip.
  destruct (stripWhiteSpace (trimEnd s)) as [r|] eqn:E; [|reflexivity].
  destruct (trimEnd_suffix s) as (t & Es & _).
  apply (strip_app _ _ t) in E. rewrite <- Es in E. congruence.
Qed.

Lemma trim_idempotent s : trim (trim s) = trim s.
Proof.
  unfold trim. rewrite (trimStart_trimEnd _ (strip_trimStart s)).
  apply trimEnd_idempotent.
Qed.

(** X21.  The three ways to send do the same; a message is sent only when
    the window is not loading and the input is not blank; it is the trimmed
    input, hence neither blank nor padded, and the input is cleared; and
    when nothing is sent the input is left as it is. *)
Theorem X21_sent_message_is_trimmed input isLoading :
  onKeyDown "Enter" false input isLoading = handleSubmit input isLoading
  /\ onClick input isLoading = handleSubmit input isLoading
  /\ (forall key shiftKey,
        key <> "Enter" \/ shiftKey = true ->
        onKeyDown key shiftKey input isLoading = (input, None))
  /\ match handleSubmit input isLoading with
     | (input', Some m) =>
         isLoading = false /\ blank input = false /\ input' = EmptyString
         /\ m = trim input /\ blank m = false /\ trim m = m
     | (input', None) =>
         input' = input /\ (isLoading = true \/ blank input = true)
     end.
Proof.
  unfold onKeyDown, onClick, handleSubmit. rewrite truthy_trim.
  split; [|split; [|split]].
  - destruct (blank input), isLoading; reflexivity.
  - destruct (blank input), isLoading; reflexivity.
  - intros key shiftKey [H|H].
    + apply String.eqb_neq in H. rewrite H. reflexivity.
    + rewrite H, andb_false_r. reflexivity.
  - destruct (blank input) eqn:B, isLoading; simpl; auto.
    rewrite blank_trim, trim_idempotent. repeat split. exact B.
Qed.

(** *** A sent message as a question *)

Section ChatToEngine.
Variable Messages : Type.
Variable buildProviderMessages :
  string -> option string -> string -> list (string * string) -> Messages.
Variable QA_USER_PROMPT_INSTRUCTIONS : string.
Variable TRACE_RETRIEVAL : bool.
Variable FALLBACK_SIMILARITY_THRESHOLD : option Q.
Variable topK : Q.
Variable similarityThreshold : Q.
Variable store_search : nat -> string -> Q -> string + list SearchResult.t.

(** X22.  A message sent by the chat window, taken as the question, is never
    refused as empty by the engine: the vector search is made for it. *)
Theorem X22_sent_message_is_searched input isLoading input' m chatHistory meta log :
  handleSubmit input isLoading = (input', Some m) ->
  exists outcome evs,
    prepare buildProviderMessages QA_USER_PROMPT_INSTRUCTIONS TRACE_RETRIEVAL
            FALLBACK_SIMILARITY_THRESHOLD topK similarityThreshold store_search
            m chatHistory meta log
    = (outcome, log ++ Search Messages m topK :: evs).
Proof.
  unfold handleSubmit. rewrite truthy_trim.
  destruct (blank input) eqn:B; simpl; [discriminate|].
  destruct isLoading; simpl; [discriminate|].
  intro H. inversion H; subst. clear H.
  assert (Hb : blank (trim input) = false) by (rewrite blank_trim; exact B).
  destruct (store_search (List.length log) (trim input) topK) as [e|raw] eqn:S.
  - exists (inl e), []. apply prepare_search_fails; assumption.
  - destruct (prepare_returns Messages buildProviderMessages QA_USER_PROMPT_INSTRUCTIONS
                TRACE_RETRIEVAL FALLBACK_SIMILARITY_THRESHOLD topK similarityThreshold
                store_search (trim input) chatHistory meta log raw Hb S)
      as (p & evs & E & _).
    exists (inr p), evs. exact E.
Qed.
End ChatToEngine.

(* ================================================================= *)
(** ** Properties of the related documents *)

Lemma slice0_5 {A} (l : list A) : slice0 5 l = firstn 5 l.
Proof. apply (slice0_firstn 5). discriminate. Qed.

(** X23.  At most five related pages are made of the references, in their
    order; the score shown is never zero: it is the score of the reference
    unless that is missing or zero, and then it is 0.5. *)
Theorem X23_related_pages_of_references references :
  List.length (relatedFromReferences references)
  = Nat.min 5 (List.length references)
  /\ (forall i p,
        nth_error (relatedFromReferences references) i = Some p ->
        (i < 5)%nat
        /\ ~ RelatedPage.score p == 0
        /\ exists ref,
             nth_error references i = Some ref
             /\ RelatedPage.pageId p
                = orElse (StreamReference.pageId ref) (StreamReference.id ref)
             /\ match StreamReference.score ref with
                | Some q => if Qeq_bool q 0 then RelatedPage.score p = 5 # 10
                            else RelatedPage.score p = q
                | None => RelatedPage.score p = 5 # 10
                end).
Proof.
  unfold relatedFromReferences. rewrite slice0_5. split.
  - rewrite length_map, length_firstn. reflexivity.
  - intros i p Hp.
    assert (Hi : (i < 5)%nat).
    { apply nth_error_lt in Hp. rewrite length_map, length_firstn in Hp. lia. }
    split; [exact Hi|].
    rewrite nth_error_map in Hp.
    destruct (nth_error (firstn 5 references) i) as [ref|] eqn:E; [|discriminate].
    rewrite nth_error_firstn in E.
    destruct (i <? 5)%nat eqn:L; [|apply Nat.ltb_ge in L; lia].
    simpl in Hp. inversion Hp; subst. simpl. split.
    + unfold scoreOr. destruct (StreamReference.score ref) as [q|]; [|discriminate].
      destruct (Qeq_bool q 0) eqn:Z; [discriminate|].
      intro H. apply Qeq_bool_iff in H. congruence.
    + exists ref. split; [exact E|]. split; [reflexivity|].
      unfold scoreOr. destruct (StreamReference.score ref) as [q|]; [|reflexivity].
      destruct (Qeq_bool q 0); reflexivity.
Qed.

(* ================================================================= *)
(** ** The seed that is not found, and the seed of the fallback *)

Section SeedLookup.
Variable toNumber : string -> option Q.
Variable log10 : Q -> Q.
Variable pages : Pages.
Variable getPineconeStore : nat -> string + unit.
Variable store_search : nat -> option string -> Q -> string + list Hit.t.

Lemma getProperty_undefined k :
  getProperty pages k = Undefined
  <-> map_get k pages = None /\ ~ In k objectPrototypeMembers.
Proof.
  unfold getProperty. destruct (map_get k pages) as [e|].
  - split; [discriminate|]. intros [H _]. discriminate H.
  - destruct (existsb (String.eqb k) objectPrototypeMembers) eqn:E.
    + split; [discriminate|]. intros [_ H]. exfalso. apply H.
      apply existsb_exists in E. destruct E as (x & Hx & E).
      apply String.eqb_eq in E. subst x. exact Hx.
    + split; [|reflexivity]. intros _. split; [reflexivity|]. intro Hin.
      assert (existsb (String.eqb k) objectPrototypeMembers = true).
      { apply existsb_exists. exists k. split; [exact Hin|apply String.eqb_refl]. }
      congruence.
Qed.

Lemma GET_404 params log message :
  fst (GET toNumber log10 pages getPineconeStore store_search params log)
  = Json404 message ->
  exists c s,
    SearchParams.seedPageId params = Some (String c s)
    /\ getProperty pages (String c s) = Undefined.
Proof.
  unfold GET, buildGraph.
  destruct (SearchParams.seedPageId params) as [[|c s]|]; try discriminate.
  destruct (getProperty pages (String c s)) as [seed| |] eqn:P.
  - unfold bind at 1. unfold call at 1.
    destruct (getPineconeStore (List.length log)) as [e|[]]; [discriminate|].
    unfold bind at 1.
    destruct (expandLoop _ _ _ _ _ _ _) as [[e|[pe nm]] l2]; [discriminate|].
    unfold bind at 1.
    destruct (egoLoop _ _ _ _ _ _ _ _) as [[e|pe'] l3]; [discriminate|].
    unfold ret, limitGraph. discriminate.
  - unfold bind, call, throw.
    destruct (getPineconeStore (List.length log)); discriminate.
  - intros _. exists c, s. auto.
Qed.


(** X25.  When the references are empty the related pages come from the
    cache: with a well-formed cache they are its first five pages at most,
    each with the score 0.5; and the page that seeds the graph view is a
    page of the cache, so that the request of the view is never answered
    with 404. *)
Theorem X25_fallback_seed_is_cached log :
  wellFormed pages ->
  toNumber "5" = Some 5 ->
  exists nodes,
    GET toNumber log10 pages getPineconeStore store_search fallbackRequest log
    = (Json200 nodes [], log)
    /\ List.length (relatedFromNodes nodes) = Nat.min 5 (List.length pages)
    /\ (forall p, In p (relatedFromNodes nodes) ->
          RelatedPage.score p = 5 # 10
          /\ exists k entry,
               RelatedPage.pageId p = Some k
               /\ map_get k pages = Some entry
               /\ RelatedPage.title p = Some (VectorCacheEntry.pageTitle entry))
    /\ (forall seed, viewSeed (relatedFromNodes nodes) = Some seed ->
          exists k entry rest,
            pages = (k, entry) :: rest /\ seed = Some k
            /\ (truthy k = true ->
                forall log2 message,
                  fst (GET toNumber log10 pages getPineconeStore store_search
                           (graphViewRequest seed) log2)
                  <> Json404 message)).
Proof.
  intros [Hnd Hwf] H5.
  assert (Hmax : parseNumber toNumber (SearchParams.maxNodes fallbackRequest) 50 = 5).
  { unfold parseNumber. simpl. rewrite H5. reflexivity. }
  exists (map (fun p => Node (nodeOfEntry p)) (firstn 5 (map_values pages))).
  assert (Hrel : relatedFromNodes
                   (map (fun p => Node (nodeOfEntry p)) (firstn 5 (map_values pages)))
                 = map (fun e => RelatedPage.mk
                                   (Some (VectorCacheEntry.pageId e))
                                   (Some (VectorCacheEntry.pageTitle e))
                                   (5 # 10)
                                   (nodeContent (Node (nodeOfEntry e))))
                       (firstn 5 (map_values pages))).
  { unfold relatedFromNodes. rewrite slice0_5, firstn_map, firstn_firstn.
    rewrite map_map. reflexivity. }
  assert (Hkey : forall k e, In (k, e) pages ->
                             VectorCacheEntry.pageId e = k /\ map_get k pages = Some e).
  { intros k e Hin. split.
    - rewrite Forall_forall in Hwf. exact (Hwf _ Hin).
    - apply map_get_NoDup_In; assumption. }
  split; [|split; [|split]].
  - rewrite GET_browse by (left; reflexivity). rewrite Hmax.
    rewrite (slice0_firstn (Qmin 5 25)) by discriminate. reflexivity.
  - rewrite Hrel, length_map, length_firstn. unfold map_values.
    rewrite length_map. reflexivity.
  - intros p Hp. rewrite Hrel in Hp. apply in_map_iff in Hp.
    destruct Hp as (e & <- & He). simpl. split; [reflexivity|].
    apply In_firstn in He. unfold map_values in He. apply in_map_iff in He.
    destruct He as ([k e'] & E & Hin). simpl in E. subst e'.
    destruct (Hkey k e Hin) as [Hid Hget].
    exists k, e. rewrite Hid. auto.
  - intros seed Hs. rewrite Hrel in Hs.
    assert (Hcase : forall pg : Pages,
               pg = [] \/ exists k e rest, pg = (k, e) :: rest).
    { intros [|[k e] rest]; eauto. }
    destruct (Hcase pages) as [Hp|(k & e & rest & Hp)];
      rewrite Hp in Hs; simpl in Hs; [discriminate|].
    inversion Hs; subst seed. clear Hs.
    assert (Hin : In (k, e) pages) by (rewrite Hp; left; reflexivity).
    destruct (Hkey k e Hin) as [Hid Hget].
    exists k, e, rest. split; [exact Hp|]. split; [f_equal; exact Hid|].
    intros Hk log2 message H404. rewrite Hid in H404.
    destruct (GET_404 _ _ _ H404) as (c & s & Hseed & Hu).
    unfold graphViewRequest in Hseed. rewrite Hk in Hseed. simpl in Hseed.
    inversion Hseed; subst k. apply getProperty_undefined in Hu.
    destruct Hu as [Hnone _]. congruence.
Qed.
End SeedLookup.

(* ================================================================= *)
(** ** Edge keys read back *)

(** X26.  The key written for two ids without bar is read back as the two
    ids, the smaller one as the source, with the weight filed under the key.
    *)
Theorem X26_edge_endpoints_round_trip a b w :
  barFree a -> barFree b ->
  let e := edgeOfEntry (edgeKey a b, w) in
  GraphEdge.weight e = w
  /\ String.leb (GraphEdge.source e) (GraphEdge.target e) = true
  /\ ((GraphEdge.source e = a /\ GraphEdge.target e = b)
      \/ (GraphEdge.source e = b /\ GraphEdge.target e = a)).
Proof.
  intros Ha Hb e. subst e.
  destruct (edgeKey_ordered a b) as (x & y & E & Hle & Hxy).
  assert (Hbar : barFree x /\ barFree y).
  { destruct Hxy as [[-> ->]|[-> ->]]; auto. }
  destruct Hbar as [Hx Hy].
  unfold edgeOfEntry. simpl fst. rewrite E, (keyEndpoints_bar x y Hx Hy). simpl.
  split; [reflexivity|]. split; [exact Hle|exact Hxy].
Qed.

(* ================================================================= *)
(** ** The default threshold of the engine *)

(** X27.  The default similarity threshold lies between 0 and 1: a
    configured finite number is clamped into that range and kept if it lies
    in it, and 0.2 is taken otherwise. *)
Theorem X27_default_threshold_range D :
  0 <= defaultSimilarityThreshold D /\ defaultSimilarityThreshold D <= 1
  /\ (forall d, D = Some d ->
        (0 <= d -> d <= 1 -> defaultSimilarityThreshold D == d)
        /\ (d < 0 -> defaultSimilarityThreshold D == 0)
        /\ (1 < d -> defaultSimilarityThreshold D == 1))
  /\ (D = None -> defaultSimilarityThreshold D = 2 # 10).
Proof.
  unfold defaultSimilarityThreshold. destruct D as [d|].
  - split; [apply Q.min_glb; [apply Q.le_max_r|discriminate]|].
    split; [apply Q.le_min_r|].
    split; [|discriminate].
    intros d' E. inversion E; subst d'. split; [|split].
    + intros H0 H1. rewrite (Q.max_l d 0 H0). apply Q.min_l. exact H1.
    + intro H. rewrite (Q.max_r d 0) by (apply Qlt_le_weak; exact H).
      apply Q.min_l. discriminate.
    + intro H. apply Q.min_r.
      apply Qle_trans with d; [apply Qlt_le_weak; exact H|apply Q.le_max_l].
  - split; [discriminate|]. split; [discriminate|].
    split; [discriminate|reflexivity].
Qed.

(* ================================================================= *)
(** ** Properties of the message bubble and of the graph page *)

(** X28.  The related documents are rendered for the messages of the
    assistant alone, and not for the one being streamed, which shows the
    cursor instead; a message of any other role shows neither; and a message
    of the assistant shows its action bar exactly when it shows the related
    documents. *)
Theorem X28_related_documents_shown_iff isLoading count index role :
  (relatedDocumentsAt isLoading count index role = true
   <-> role = "assistant" /\ (isLoading = false \/ index <> (count - 1)%nat))
  /\ (cursorAt isLoading count index role = true
      <-> role = "assistant" /\ isLoading = true /\ index = (count - 1)%nat)
  /\ (role = "assistant" ->
      relatedDocumentsAt isLoading count index role
      = negb (cursorAt isLoading count index role)
      /\ rendersActions role
           (bubbleIsStreaming (isStreamingAt isLoading count index role) role)
         = relatedDocumentsAt isLoading count index role).
Proof.
  unfold relatedDocumentsAt, cursorAt, rendersRelatedDocuments, rendersCursor,
    rendersActions, bubbleIsStreaming, bubbleShowRelatedDocuments, isStreamingAt.
  destruct (String.eqb_spec role "assistant") as [->|Hne].
  - simpl. rewrite !andb_true_r.
    destruct (Nat.eqb_spec index (count - 1)) as [E|E], isLoading; simpl;
      (split; [|split; [|intros _; split; reflexivity]]); split;
      try discriminate; try tauto; try (intros [_ [H|H]]; congruence);
      try (intros (_ & H & _); congruence); try (intros (_ & _ & H); congruence).
  - rewrite !andb_false_r. simpl.
    destruct (String.eqb role "user"); simpl;
      (split; [|split; [|intro; contradiction]]); split;
      try discriminate; intros [H _]; contradiction.
Qed.

Section GraphPage.
Variable toNumber : string -> option Q.
Variable log10 : Q -> Q.
Variable pages : Pages.
Variable getPineconeStore : nat -> string + unit.
Variable store_search : nat -> option string -> Q -> string + list Hit.t.

(** X29.  The graph page passes its input as the seed unless it is empty,
    without trimming it; with an empty input the view shows the first 25
    pages of the cache at most, and no call is made. *)
Theorem X29_graph_page_request input log :
  toNumber "60" = Some 60 ->
  SearchParams.seedPageId (graphViewRequest (graphPageSeed input))
  = (if truthy input then Some input else None)
  /\ (input = EmptyString ->
      GET toNumber log10 pages getPineconeStore store_search
          (graphViewRequest (graphPageSeed input)) log
      = (Json200 (map (fun p => Node (nodeOfEntry p)) (firstn 25 (map_values pages)))
                 [], log))
  /\ (forall c s, input = String c s ->
      map_get input pages = None -> ~ In input objectPrototypeMembers ->
      GET toNumber log10 pages getPineconeStore store_search
          (graphViewRequest (graphPageSeed input)) log
      = (Json404 "seedPageId not found in vector cache", log)).
Proof.
  intro H60. split; [|split].
  - unfold graphViewRequest, graphPageSeed. destruct (truthy input) eqn:T; simpl;
      [rewrite T|]; reflexivity.
  - intros ->. rewrite GET_browse by (left; reflexivity).
    assert (Hmax : parseNumber toNumber
                     (SearchParams.maxNodes (graphViewRequest (graphPageSeed ""))) 50
                   = 60).
    { unfold parseNumber. simpl. rewrite H60. reflexivity. }
    rewrite Hmax. rewrite (slice0_firstn (Qmin 60 25)) by discriminate. reflexivity.
  - intros c s -> Hnone Hnin.
    apply (unknown_seed_404 _ _ _ _ _ _ c s log); [reflexivity|exact Hnone|exact Hnin].
Qed.
End GraphPage.

(* ================================================================= *)
(** ** The properties on the inputs above *)

(** The scenarios of the specification for the retrieval policy, with
    threshold 0.75 and fallback threshold 0.6. *)
Example scenario_primary :
  relevantResults (75 # 100) (Some (6 # 10)) mixedResults
  = ([exampleResult "c1" "p1" (9 # 10)], false).
Proof. reflexivity. Qed.

Example scenario_fallback :
  let raw := [ exampleResult "c1" "p1" (65 # 100); exampleResult "c2" "p2" (5 # 10) ] in
  relevantResults (75 # 100) (Some (6 # 10)) raw
  = ([exampleResult "c1" "p1" (65 # 100)], true)
  /\ RetrievalTrace.fallbackThreshold (retrievalTrace (75 # 100) (Some (6 # 10)) raw)
     = Some (6 # 10).
Proof. split; reflexivity. Qed.

Example scenario_top_result :
  relevantResults (75 # 100) (Some (6 # 10)) weakResults
  = ([exampleResult "c1" "p1" (4 # 10)], true)
  /\ map RetrievalTraceEntry.included
         (RetrievalTrace.results (retrievalTrace (75 # 100) (Some (6 # 10)) weakResults))
     = [true; false].
Proof. split; reflexivity. Qed.

(** Without seed and with an empty cache the graph is empty, and no call is
    made. *)
Example scenario_empty_cache :
  GET decimalNumber wholeLog10 [] storeReady noHits
      (SearchParams.mk None None None None None) []
  = (Json200 [] [], []).
Proof. reflexivity. Qed.

(** What [trim] strips goes beyond the spaces of one byte: an input of one
    ideographic space sends nothing, and such spaces are cut from both
    ends of a message but not inside it. *)
Example scenario_ideographic_space :
  handleSubmit "　" false = ("　", None)
  /\ handleSubmit "　 How　so? " false = (EmptyString, Some "How　so?").
Proof. split; reflexivity. Qed.

(** C1 on raw scores [0.4, 0.3]: both filters are empty and the first
    result alone is kept, with [fallbackApplied]. *)
Lemma C1_retrieval_policy_witness :
  blank "How?" = false
  /\ storeReturning weakResults 0 "How?" 5 = inr weakResults
  /\ exists p,
       fst (examplePrepare weakResults "How?" None None []) = inr p
       /\ RetrievalTrace.fallbackApplied (preparedTrace p) = true
       /\ fst (relevantResults (75 # 100) (Some (6 # 10)) weakResults)
          = [exampleResult "c1" "p1" (4 # 10)].
Proof.
  split; [reflexivity|]. split; [reflexivity|].
  destruct (C1_retrieval_policy ExampleMessages exampleBuildMessages "Instructions." false
              (Some (6 # 10)) 5 (75 # 100) (storeReturning weakResults)
              "How?" None None [] weakResults eq_refl eq_refl)
    as (p & evs & Hrun & Hrefs & Hmem & Hprimary & Hfallback & Hinvalid & Hempty).
  exists p. unfold examplePrepare. rewrite Hrun. split; [reflexivity|].
  assert (Hraw : weakResults <> []) by discriminate.
  destruct (Hfallback (6 # 10) eq_refl eq_refl eq_refl eq_refl Hraw)
    as (Happlied & _ & _ & Htop).
  split; [exact Happlied|].
  destruct (Htop eq_refl) as (top & rest & Eraw & Eused & _).
  rewrite Eused. inversion Eraw. reflexivity.
Defined.

(** C2 on the same results: the first entry is included and keeps its
    score. *)
Lemma C2_retrieval_trace_witness :
  NoDup (map chunkId weakResults)
  /\ exists e,
       nth_error (RetrievalTrace.results
                    (retrievalTrace (75 # 100) (Some (6 # 10)) weakResults)) 0
       = Some e
       /\ RetrievalTraceEntry.included e = true
       /\ RetrievalTraceEntry.score e == 4 # 10.
Proof.
  assert (Hnd : NoDup (map chunkId weakResults)).
  { repeat constructor; simpl; intuition discriminate. }
  split; [exact Hnd|].
  destruct (C2_retrieval_trace (75 # 100) (Some (6 # 10)) weakResults)
    as [_ H].
  destruct (H 0%nat (exampleResult "c1" "p1" (4 # 10)) eq_refl)
    as (e & He & _ & _ & _ & Hscore & _ & _ & Hincluded).
  exists e. split; [exact He|]. split.
  - apply (Hincluded Hnd). vm_compute. left. reflexivity.
  - rewrite Hscore. vm_compute. reflexivity.
Defined.


(** C7 on a question made of a space, a no-break space (U+00A0), an
    ideographic space (U+3000) and an em space (U+2003). *)
Lemma C7_blank_question_witness :
  blank "  　 " = true
  /\ answerQuestion exampleBuildMessages "Instructions." (fun p => p) false
       (Some (6 # 10)) 5 "openai" (75 # 100) (storeReturning weakResults)
       exampleCompletion "  　 " None None None []
     = (inl "Question must not be empty", []).
Proof.
  split; [reflexivity|].
  exact (proj1 (C7_blank_question ExampleMessages exampleBuildMessages
                  "Instructions." (fun p => p) (list string) false
                  (Some (6 # 10)) 5 "openai" (75 # 100)
                  (storeReturning weakResults) exampleCompletion exampleStream
                  "  　 " None None None [] eq_refl)).
Defined.

(** C9 on raw scores [0.9, 0.6, 0.3]: the structure returned holds the
    reference of the one result kept and the stream of the provider. *)
Lemma C9_metadata_before_stream_witness :
  blank "How?" = false
  /\ storeReturning mixedResults 0 "How?" 5 = inr mixedResults
  /\ exists r log,
       createStreamingCompletion exampleBuildMessages "Instructions." (fun p => p)
         false (Some (6 # 10)) 5 "openai" (75 # 100) (storeReturning mixedResults)
         exampleStream "How?" None None None []
       = (inr r, log)
       /\ streamReferences r = snd (buildContext [exampleResult "c1" "p1" (9 # 10)])
       /\ stream r = ["An "; "answer."].
Proof.
  split; [reflexivity|]. split; [reflexivity|].
  destruct (C9_metadata_before_stream ExampleMessages exampleBuildMessages
              "Instructions." (fun p => p) (list string) false (Some (6 # 10)) 5 "openai" (75 # 100)
              (storeReturning mixedResults) exampleStream
              "How?" None None None [] mixedResults eq_refl eq_refl)
    as (p & evs & _ & _ & _ & _ & Hrun).
  cbv zeta in Hrun. rewrite Hrun. unfold exampleStream.
  eexists. eexists. split; [reflexivity|]. split; reflexivity.
Defined.

(** C5 fails as stated: the seed of a build without edges has no end of a
    returned edge, and its size is 7, not the 6 of degree 0. *)
Lemma C5_isolated_node_counterexample :
  exists n log',
    GET decimalNumber wholeLog10 lonePage storeReady noHits (seedRequest "S") []
    = (Json200 [Node n] [], log')
    /\ finalDegree [] (GraphNode.id n) = 0%nat
    /\ GraphNode.size n == 7
    /\ sizeFor wholeLog10 0 (GraphNode.chunkCount n) == 6
    /\ ~ GraphNode.size n == sizeFor wholeLog10 0 (GraphNode.chunkCount n).
Proof.
  eexists. eexists. split; [vm_compute; reflexivity|].
  split; [reflexivity|]. split; [reflexivity|]. split; [reflexivity|].
  vm_compute. discriminate.
Qed.

(** C6 fails as stated: one probe succeeds, the next one fails, and the
    request answers 500 instead of a graph. *)
Lemma C6_partial_failure_counterexample :
  secondProbeFails 1 (Some "Seed") 5 = inr [Hit.mk "N" (Some (5 # 10))]
  /\ secondProbeFails 2 (Some "Seed") 5 = inl "upstream unavailable"
  /\ GET decimalNumber wholeLog10 twoPages storeReady secondProbeFails
         (seedRequest "S") []
     = (Json500 "upstream unavailable",
        [ GetPineconeStore; StoreSearch (Some "Seed") 5; StoreSearch (Some "Seed") 5 ]).
Proof. repeat split. Qed.

(** C4 on the build in which the probes of [A] and of [B] find each
    other: the hits of the two probes of the second loop are those of the
    store, and the two of them land on the entry of the pair. *)
Lemma C4_canonical_edge_keys_witness :
  SearchParams.seedPageId (seedRequest "S") = Some "S"
  /\ (exists nodes edges log',
        GET decimalNumber wholeLog10 threePages storeReady crossProbes
            (seedRequest "S") []
        = (Json200 nodes edges, log'))
  /\ (exists answers1 answers2,
        answered crossProbes 1 [Some "Seed"; Some "Seed"] 5 answers1
        /\ answered crossProbes 3 [Some "Alpha"; Some "Beta"] 3 answers2)
  /\ "A" <> "B"
  /\ 25 # 100 <= hitScore (Hit.mk "A" (Some (6 # 10)))
  /\ 25 # 100 <= hitScore (Hit.mk "B" (Some (8 # 10)))
  /\ map_get (edgeKey "A" "B")
       (connectNeighbor (25 # 100) [("S", Untyped); ("A", Untyped); ("B", Untyped)] "B"
          (connectNeighbor (25 # 100) [("S", Untyped); ("A", Untyped); ("B", Untyped)]
             "A" [] (Hit.mk "B" (Some (8 # 10))))
          (Hit.mk "A" (Some (6 # 10))))
     = Some (0 + (8 # 10) * (5 # 10) + (6 # 10) * (5 # 10)).
Proof.
  assert (Hne : "A" <> "B") by discriminate.
  assert (Ha : 25 # 100 <= hitScore (Hit.mk "A" (Some (6 # 10)))).
  { vm_compute. discriminate. }
  assert (Hb : 25 # 100 <= hitScore (Hit.mk "B" (Some (8 # 10)))).
  { vm_compute. discriminate. }
  destruct C4_canonical_edge_keys as (_ & _ & _ & _ & _ & _ & Hloops & Hpair & _).
  split; [reflexivity|].
  split; [eexists; eexists; eexists; exact crossProbes_run|].
  split.
  - pose proof (Hloops decimalNumber wholeLog10 threePages storeReady crossProbes
                  (seedRequest "S") "S"%char "" [] _ _ _ eq_refl crossProbes_run)
      as H.
    cbv zeta in H. destruct H as (seed & answers1 & answers2 & Hown & H1 & H2 & _).
    inversion Hown; subst seed.
    exists answers1, answers2. split; [exact H1|].
    destruct answers1 as [|h1 [|h2 [|h3 t]]]; simpl in H1;
      try (exfalso; tauto).
    destruct H1 as (E1 & E2 & _). inversion E1; inversion E2; subst h1 h2.
    exact H2.
  - split; [exact Hne|]. split; [exact Ha|]. split; [exact Hb|].
    exact (proj1 (Hpair (25 # 100) [("S", Untyped); ("A", Untyped); ("B", Untyped)]
                        "A" "B" [] (Hit.mk "A" (Some (6 # 10)))
                        (Hit.mk "B" (Some (8 # 10)))
                        eq_refl eq_refl Hne eq_refl eq_refl Ha Hb)).
Defined.

(** C5 on the build with one neighbour found twice. *)
Lemma C5_final_response_witness :
  SearchParams.seedPageId (seedRequest "S") = Some "S"
  /\ allAnswer storeReady sameNeighbourTwice
  /\ exists nodes edges log',
       GET decimalNumber wholeLog10 twoPages storeReady sameNeighbourTwice
           (seedRequest "S") []
       = (Json200 nodes edges, log')
       /\ StronglySorted heavierFirst edges
       /\ forall n, In (Node n) nodes ->
            GraphNode.size n =
              sizeFor wholeLog10
                (if (finalDegree edges (GraphNode.id n) =? 0)%nat then 1%nat
                 else finalDegree edges (GraphNode.id n))
                (GraphNode.chunkCount n).
Proof.
  assert (Hall : allAnswer storeReady sameNeighbourTwice).
  { split.
    - intro i. exists tt. reflexivity.
    - intros [|[|[|i]]] q k; eexists; reflexivity. }
  split; [reflexivity|]. split; [exact Hall|].
  destruct (C5_final_response decimalNumber wholeLog10 twoPages storeReady
              sameNeighbourTwice (seedRequest "S") "S"%char "" eq_refl)
    as [Hreturns Hgraph].
  destruct (Hreturns [] (VectorCacheEntry.mk "S" "Seed" None 4 []) Hall eq_refl)
    as (nodes & edges & log' & Hrun).
  exists nodes, edges, log'. split; [exact Hrun|].
  destruct (Hgraph [] nodes edges log' Hrun)
    as (seed & pe & nm & pe' & l2 & dropped
        & _ & _ & _ & _ & _ & Hsorted & _ & _ & Hsize).
  split; [exact Hsorted|exact Hsize].
Defined.

(** C6 on the build whose second probe fails. *)
Lemma C6_failed_probe_aborts_witness :
  nth_error (snd (GET decimalNumber wholeLog10 twoPages storeReady secondProbeFails
                      (seedRequest "S") [])) 2
  = Some (StoreSearch (Some "Seed") 5)
  /\ (List.length (@nil GraphEvent) <= 2)%nat
  /\ secondProbeFails 2 (Some "Seed") 5 = inl "upstream unavailable"
  /\ fst (GET decimalNumber wholeLog10 twoPages storeReady secondProbeFails
              (seedRequest "S") [])
     = Json500 "upstream unavailable".
Proof.
  assert (H1 : nth_error
                 (snd (GET decimalNumber wholeLog10 twoPages storeReady
                           secondProbeFails (seedRequest "S") [])) 2
               = Some (StoreSearch (Some "Seed") 5)).
  { vm_compute. reflexivity. }
  assert (H2 : (List.length (@nil GraphEvent) <= 2)%nat) by (simpl; lia).
  split; [exact H1|]. split; [exact H2|]. split; [reflexivity|].
  exact (proj1 (C6_failed_probe_aborts decimalNumber wholeLog10 twoPages
                  storeReady secondProbeFails (seedRequest "S") [] 2
                  (Some "Seed") 5 "upstream unavailable" H1 H2 eq_refl)).
Defined.

(** C8 on the two-page cache. *)
Lemma C8_inherited_member_is_not_404_witness :
  map_get "constructor" twoPages = None
  /\ exists message,
       GET decimalNumber wholeLog10 twoPages storeReady noHits
           (seedRequest "constructor") []
       = (Json500 message, [GetPineconeStore]).
Proof.
  split; [reflexivity|].
  exact (C8_inherited_member_is_not_404 decimalNumber wholeLog10 twoPages
           storeReady noHits [] eq_refl).
Defined.

(** C10 on the build with one neighbour found twice. *)
Lemma C10_maxSeeds_unused_witness :
  getProperty twoPages "S" = Own (VectorCacheEntry.mk "S" "Seed" None 4 [])
  /\ exists evs,
       snd (buildGraph wholeLog10 twoPages storeReady sameNeighbourTwice
              (Some "S") 5 5 (25 # 100) 50 [])
       = [] ++ evs
       /\ Forall (buildEvent twoPages (VectorCacheEntry.mk "S" "Seed" None 4 [])) evs.
Proof.
  split; [reflexivity|].
  destruct (C10_maxSeeds_unused decimalNumber wholeLog10 twoPages storeReady
              sameNeighbourTwice) as (_ & _ & Hq).
  exact (Hq "S"%char "" (VectorCacheEntry.mk "S" "Seed" None 4 [])
            5 5 (25 # 100) 50 [] eq_refl).
Defined.

(* ----------------------------------------------------------------- *)
(** *** The further properties on the inputs above *)

(** X1 on raw scores [0.4, 0.3]: the fallback is applied and keeps a
    result. *)
Lemma X1_kept_results_by_branch_witness :
  snd (relevantResults (75 # 100) (Some (6 # 10)) weakResults) = true
  /\ fst (relevantResults (75 # 100) (Some (6 # 10)) weakResults) <> [].
Proof.
  split; [reflexivity|].
  pose proof (X1_kept_results_by_branch (75 # 100) (Some (6 # 10)) weakResults) as H.
  cbv zeta in H. destruct H as (_ & _ & H & _).
  exact (proj1 (H eq_refl)).
Defined.

(** X2 on the same results: the fallback threshold recorded is 0.6. *)
Lemma X2_trace_header_witness :
  RetrievalTrace.fallbackThreshold
    (retrievalTrace (75 # 100) (Some (6 # 10)) weakResults) = Some (6 # 10)
  /\ 0 < 6 # 10 /\ 6 # 10 < 1.
Proof.
  split; [reflexivity|].
  pose proof (X2_trace_header (75 # 100) (Some (6 # 10)) weakResults) as H.
  cbv zeta in H. destruct H as (_ & _ & H & _).
  exact (H (6 # 10) eq_refl).
Defined.

(** X3 on the same results: one entry is included, one result is kept. *)
Lemma X3_trace_counts_kept_results_witness :
  NoDup (map chunkId weakResults)
  /\ List.length (filter RetrievalTraceEntry.included
                    (RetrievalTrace.results
                       (retrievalTrace (75 # 100) (Some (6 # 10)) weakResults)))
     = List.length (fst (relevantResults (75 # 100) (Some (6 # 10)) weakResults)).
Proof.
  assert (Hnd : NoDup (map chunkId weakResults)).
  { repeat constructor; simpl; intuition discriminate. }
  split; [exact Hnd|].
  exact (X3_trace_counts_kept_results (75 # 100) (Some (6 # 10)) weakResults Hnd).
Defined.

(** X4 on three results of two pages: the third result is of the first
    page, and its section is headed by the reference 1. *)
Lemma X4_context_sections_follow_references_witness :
  In (exampleResult "c3" "p1" (3 # 10)) mixedResults
  /\ exists ref,
       nth_error (snd (buildContext mixedResults)) 0 = Some ref
       /\ AnswerReferences.pageId ref = Some "p1"
       /\ AnswerReferences.index ref = 1%nat.
Proof.
  assert (Hin : In (exampleResult "c3" "p1" (3 # 10)) mixedResults).
  { right. right. left. reflexivity. }
  split; [exact Hin|].
  pose proof (X4_context_sections_follow_references mixedResults) as H.
  cbv zeta in H. destruct H as [_ H].
  exact (H _ Hin).
Defined.

(** X5 on raw scores [0.4, 0.3] and a provider that answers. *)
Lemma X5_answerQuestion_returns_witness :
  blank "How?" = false
  /\ storeReturning weakResults 0 "How?" 5 = inr weakResults
  /\ exists r log,
       answerQuestion exampleBuildMessages "Instructions." (fun p => p) false
         (Some (6 # 10)) 5 "openai" (75 # 100) (storeReturning weakResults)
         exampleCompletion "How?" None None None []
       = (inr r, log)
       /\ AnswerResponse.answer r = "An answer.".
Proof.
  split; [reflexivity|]. split; [reflexivity|].
  pose proof (X5_answerQuestion_returns ExampleMessages exampleBuildMessages
                "Instructions." (fun p => p) false (Some (6 # 10)) 5 "openai"
                (75 # 100) (storeReturning weakResults) exampleCompletion
                "How?" None None None [] weakResults eq_refl eq_refl) as H.
  cbv zeta in H. destruct H as (p & evs & _ & Htext & _).
  destruct (Htext "An answer." eq_refl) as (answer & Hrun & Hanswer & _).
  rewrite Hrun. eexists. eexists. split; [reflexivity|]. exact Hanswer.
Defined.

(** X6 on a store that fails. *)
Lemma X6_search_failure_propagates_witness :
  blank "How?" = false
  /\ storeFailing 0 "How?" 5 = inl "index unavailable"
  /\ answerQuestion exampleBuildMessages "Instructions." (fun p => p) false
       (Some (6 # 10)) 5 "openai" (75 # 100) storeFailing
       exampleCompletion "How?" None None None []
     = (inl "index unavailable", [Search ExampleMessages "How?" 5]).
Proof.
  split; [reflexivity|]. split; [reflexivity|].
  exact (proj1 (X6_search_failure_propagates ExampleMessages exampleBuildMessages
                  "Instructions." (fun p => p) (list string) false (Some (6 # 10)) 5
                  "openai" (75 # 100) storeFailing exampleCompletion exampleStream
                  "How?" None None None [] "index unavailable" eq_refl eq_refl)).
Defined.

(** X7 on raw scores [0.4, 0.3]: the prompt carries the caveat. *)
Lemma X7_prepared_prompt_is_traced_witness :
  blank "How?" = false
  /\ storeReturning weakResults 0 "How?" 5 = inr weakResults
  /\ exists p msgs,
       examplePrepare weakResults "How?" None None []
       = (inr p,
          [ Search ExampleMessages "How?" 5;
            TracePrompt ExampleMessages "qa.prompt.fallback-context" None msgs ])
       /\ messages p = msgs.
Proof.
  split; [reflexivity|]. split; [reflexivity|].
  pose proof (X7_prepared_prompt_is_traced ExampleMessages exampleBuildMessages
                "Instructions." false (Some (6 # 10)) 5 (75 # 100)
                (storeReturning weakResults) "How?" None None [] weakResults
                eq_refl eq_refl) as H.
  cbv zeta in H. unfold examplePrepare. rewrite H.
  eexists. eexists. split; reflexivity.
Defined.

(** X8 on the parameter [7]. *)
Lemma X8_parseNumber_cases_witness :
  decimalNumber "7" = Some 7 /\ 0 < 7
  /\ parseNumber decimalNumber (Some "7") 50 = 7.
Proof.
  assert (H0 : 0 < 7) by reflexivity.
  split; [reflexivity|]. split; [exact H0|].
  exact (proj1 (X8_parseNumber_cases decimalNumber (Some "7") 50)
               "7"%char "" 7 eq_refl eq_refl H0).
Defined.

(** X9 on the parameter [7], which is clamped to 1. *)
Lemma X9_parseFloatInRange_bounds_witness :
  0 <= 1 /\ decimalNumber "7" = Some 7
  /\ parseFloatInRange decimalNumber (Some "7") (25 # 100) 0 1 <= 1.
Proof.
  assert (H01 : 0 <= 1) by discriminate.
  split; [exact H01|]. split; [reflexivity|].
  destruct (X9_parseFloatInRange_bounds decimalNumber (Some "7") (25 # 100) 0 1 H01)
    as (_ & H & _).
  exact (proj1 (proj2 (H "7"%char "" 7 eq_refl eq_refl))).
Defined.

(** X10 on a cache of thirty pages: 25 nodes are shown. *)
Lemma X10_browse_mode_witness :
  seedless (SearchParams.mk None None None None None)
  /\ exists nodes,
       GET decimalNumber wholeLog10 manyPages storeReady noHits
           (SearchParams.mk None None None None None) []
       = (Json200 nodes [], [])
       /\ List.length nodes = 25%nat.
Proof.
  assert (Hs : seedless (SearchParams.mk None None None None None))
    by (left; reflexivity).
  split; [exact Hs|].
  pose proof (X10_browse_mode decimalNumber wholeLog10 manyPages storeReady noHits
                (SearchParams.mk None None None None None) [] Hs) as H.
  cbv zeta in H. destruct H as (Hrun & _ & Hlen & _).
  eexists. split; [exact Hrun|].
  rewrite length_map. apply Hlen; [discriminate|vm_compute; lia].
Defined.

(** X11 on a store that cannot be obtained. *)
Lemma X11_store_failure_is_500_witness :
  getProperty twoPages "S" <> Undefined
  /\ storeDown 0 = inl "store unavailable"
  /\ GET decimalNumber wholeLog10 twoPages storeDown noHits (seedRequest "S") []
     = (Json500 "store unavailable", [GetPineconeStore]).
Proof.
  assert (H : getProperty twoPages "S" <> Undefined) by discriminate.
  split; [exact H|]. split; [reflexivity|].
  exact (X11_store_failure_is_500 decimalNumber wholeLog10 twoPages storeDown noHits
           (seedRequest "S") "S"%char "" [] "store unavailable" eq_refl H eq_refl).
Defined.

(** X12 on the build with one neighbour found twice. *)
Lemma X12_seed_node_comes_first_witness :
  1 <= parseNumber decimalNumber None 50
  /\ exists nodes edges log',
       GET decimalNumber wholeLog10 twoPages storeReady sameNeighbourTwice
           (seedRequest "S") []
       = (Json200 nodes edges, log')
       /\ hd_error (map unsized nodes) = Some (Some ("S", "Seed", 4%nat, None)).
Proof.
  assert (H1 : 1 <= parseNumber decimalNumber None 50) by discriminate.
  split; [exact H1|].
  pose proof (X12_seed_node_comes_first decimalNumber wholeLog10 twoPages storeReady
                sameNeighbourTwice (seedRequest "S") "S"%char "" [] _ _ _
                eq_refl sameNeighbourTwice_run) as H.
  cbv zeta in H. destruct H as (seed & Hseed & Hhd & _).
  eexists. eexists. eexists. split; [exact sameNeighbourTwice_run|].
  inversion Hseed; subst seed. exact (Hhd H1).
Defined.

(** X13 on the same build. *)
Lemma X13_node_ids_unique_witness :
  wellFormed twoPages
  /\ exists nodes edges log',
       GET decimalNumber wholeLog10 twoPages storeReady sameNeighbourTwice
           (seedRequest "S") []
       = (Json200 nodes edges, log')
       /\ NoDup (nodeIds nodes).
Proof.
  assert (Hwf : wellFormed twoPages).
  { split; repeat constructor; simpl; intuition discriminate. }
  split; [exact Hwf|].
  eexists. eexists. eexists. split; [exact sameNeighbourTwice_run|].
  exact (proj1 (X13_node_ids_unique decimalNumber wholeLog10 twoPages storeReady
                  sameNeighbourTwice (seedRequest "S") [] _ _ _
                  Hwf sameNeighbourTwice_run)).
Defined.

(** X14 on the same build: the one edge weighs 0.9, above 0.125. *)
Lemma X14_edge_weights_bounded_below_witness :
  exists nodes edges log' e,
    GET decimalNumber wholeLog10 twoPages storeReady sameNeighbourTwice
        (seedRequest "S") []
    = (Json200 nodes edges, log')
    /\ In e edges
    /\ (25 # 100) * (5 # 10) <= GraphEdge.weight e.
Proof.
  pose proof (X14_edge_weights_bounded_below decimalNumber wholeLog10 twoPages
                storeReady sameNeighbourTwice (seedRequest "S") [] _ _ _
                sameNeighbourTwice_run) as H.
  cbv zeta in H. destruct H as (_ & _ & H).
  assert (Hin : In (GraphEdge.mk "N" "S" (90 # 100)) [GraphEdge.mk "N" "S" (90 # 100)])
    by (left; reflexivity).
  eexists. eexists. eexists. exists (GraphEdge.mk "N" "S" (90 # 100)).
  split; [exact sameNeighbourTwice_run|]. split; [exact Hin|].
  exact (proj1 (H _ Hin)).
Defined.

(** X15 on the same build: the seed node has a size between 6 and 18. *)
Lemma X15_node_sizes_bounded_witness :
  exists nodes edges log' n,
    GET decimalNumber wholeLog10 twoPages storeReady sameNeighbourTwice
        (seedRequest "S") []
    = (Json200 nodes edges, log')
    /\ In (Node n) nodes
    /\ 6 <= GraphNode.size n /\ GraphNode.size n <= 18.
Proof.
  assert (Hin : In (Node (GraphNode.mk "S" "Seed" 6 4 None))
                   [ Node (GraphNode.mk "S" "Seed" 6 4 None);
                     Node (GraphNode.mk "N" "Neighbour" 6 3 None) ])
    by (left; reflexivity).
  pose proof (X15_node_sizes_bounded decimalNumber wholeLog10 twoPages
                storeReady sameNeighbourTwice (seedRequest "S") [] _ _ _
                sameNeighbourTwice_run _ Hin) as H.
  simpl in H.
  eexists. eexists. eexists. eexists.
  split; [exact sameNeighbourTwice_run|]. split; [exact Hin|]. exact (proj2 H).
Defined.

(** X17 on the same build: its edge is drawn. *)
Lemma X17_view_draws_every_edge_witness :
  exists nodes edges log',
    GET decimalNumber wholeLog10 twoPages storeReady sameNeighbourTwice
        (seedRequest "S") []
    = (Json200 nodes edges, log')
    /\ drawnEdges nodes edges = [GraphEdge.mk "N" "S" (90 # 100)].
Proof.
  eexists. eexists. eexists. split; [exact sameNeighbourTwice_run|].
  exact (X17_view_draws_every_edge decimalNumber wholeLog10 twoPages storeReady
           sameNeighbourTwice (seedRequest "S") [] _ _ _ sameNeighbourTwice_run).
Defined.

(** X18 on the same build: the seed node is drawn with a radius between 15
    and 18. *)
Lemma X18_view_radius_range_witness :
  exists nodes edges log' v,
    GET decimalNumber wholeLog10 twoPages storeReady sameNeighbourTwice
        (seedRequest "S") []
    = (Json200 nodes edges, log')
    /\ In v nodes
    /\ 15 <= nodeRadius v /\ nodeRadius v <= 18.
Proof.
  assert (Hin : In (Node (GraphNode.mk "S" "Seed" 6 4 None))
                   [ Node (GraphNode.mk "S" "Seed" 6 4 None);
                     Node (GraphNode.mk "N" "Neighbour" 6 3 None) ])
    by (left; reflexivity).
  destruct (X18_view_radius_range decimalNumber wholeLog10 twoPages storeReady
              sameNeighbourTwice (seedRequest "S") [] _ _ _
              sameNeighbourTwice_run _ Hin) as (H1 & H2 & _).
  eexists. eexists. eexists. eexists.
  split; [exact sameNeighbourTwice_run|]. split; [exact Hin|].
  split; [exact H1|exact H2].
Defined.

(** X19 on the same build: the edge of weight 0.9 is drawn with the
    opacity 0.8. *)
Lemma X19_view_edge_style_witness :
  exists nodes edges log' e,
    GET decimalNumber wholeLog10 twoPages storeReady sameNeighbourTwice
        (seedRequest "S") []
    = (Json200 nodes edges, log')
    /\ In e edges
    /\ 5 # 10 <= GraphEdge.weight e
    /\ edgeOpacity e == 8 # 10.
Proof.
  assert (Hin : In (GraphEdge.mk "N" "S" (90 # 100)) [GraphEdge.mk "N" "S" (90 # 100)])
    by (left; reflexivity).
  assert (Hw : 5 # 10 <= GraphEdge.weight (GraphEdge.mk "N" "S" (90 # 100)))
    by discriminate.
  destruct (X19_view_edge_style decimalNumber wholeLog10 twoPages storeReady
              sameNeighbourTwice (seedRequest "S") [] _ _ _
              sameNeighbourTwice_run _ Hin) as (_ & _ & _ & H).
  eexists. eexists. eexists. eexists.
  split; [exact sameNeighbourTwice_run|]. split; [exact Hin|].
  split; [exact Hw|]. exact (proj1 (H Hw)).
Defined.

(** X20 on the request of a view seeded with the page [S]. *)
Lemma X20_view_centres_seed_witness :
  wellFormed twoPages
  /\ decimalNumber "60" = Some 60
  /\ exists nodes edges log',
       GET decimalNumber wholeLog10 twoPages storeReady sameNeighbourTwice
           (graphViewRequest (Some "S")) []
       = (Json200 nodes edges, log')
       /\ mainNodeId (Some "S") nodes = Some "S".
Proof.
  assert (Hwf : wellFormed twoPages).
  { split; repeat constructor; simpl; intuition discriminate. }
  assert (Hrun : exists nodes edges log',
             GET decimalNumber wholeLog10 twoPages storeReady sameNeighbourTwice
                 (graphViewRequest (Some "S")) []
             = (Json200 nodes edges, log')).
  { vm_compute. eexists. eexists. eexists. reflexivity. }
  destruct Hrun as (nodes & edges & log' & Hrun).
  split; [exact Hwf|]. split; [reflexivity|].
  exists nodes, edges, log'. split; [exact Hrun|].
  exact (proj1 (X20_view_centres_seed decimalNumber wholeLog10 twoPages storeReady
                  sameNeighbourTwice "S"%char "" [] nodes edges log'
                  Hwf eq_refl Hrun)).
Defined.

(** X21 on a key that is not [Enter]. *)
Lemma X21_sent_message_is_trimmed_witness :
  ("a" <> "Enter" \/ false = true)
  /\ onKeyDown "a" false " How? " false = (" How? ", None).
Proof.
  assert (H : "a" <> "Enter" \/ false = true) by (left; discriminate).
  split; [exact H|].
  destruct (X21_sent_message_is_trimmed " How? " false) as (_ & _ & Hkey & _).
  exact (Hkey "a" false H).
Defined.

(** X22 on a padded question. *)
Lemma X22_sent_message_is_searched_witness :
  handleSubmit " How? " false = (EmptyString, Some "How?")
  /\ exists outcome evs,
       examplePrepare weakResults "How?" None None []
       = (outcome, [] ++ Search ExampleMessages "How?" 5 :: evs).
Proof.
  split; [reflexivity|].
  exact (X22_sent_message_is_searched ExampleMessages exampleBuildMessages
           "Instructions." false (Some (6 # 10)) 5 (75 # 100)
           (storeReturning weakResults) " How? " false EmptyString "How?"
           None None [] eq_refl).
Defined.

(** X23 on a reference of score 0: the page shows 0.5. *)
Lemma X23_related_pages_of_references_witness :
  let refs := [StreamReference.mk (Some "p1") None (Some "Page p1") None (Some 0)] in
  exists p,
    nth_error (relatedFromReferences refs) 0 = Some p
    /\ ~ RelatedPage.score p == 0
    /\ RelatedPage.pageId p = Some "p1".
Proof.
  intro refs.
  destruct (X23_related_pages_of_references refs) as [_ H].
  eexists. split; [reflexivity|].
  destruct (H 0%nat _ eq_refl) as (_ & Hscore & _).
  split; [exact Hscore|reflexivity].
Defined.


(** X25 on the two-page cache: two related pages, and the page [S] seeds
    the view. *)
Lemma X25_fallback_seed_is_cached_witness :
  wellFormed twoPages
  /\ decimalNumber "5" = Some 5
  /\ exists nodes,
       GET decimalNumber wholeLog10 twoPages storeReady noHits fallbackRequest []
       = (Json200 nodes [], [])
       /\ List.length (relatedFromNodes nodes) = 2%nat.
Proof.
  assert (Hwf : wellFormed twoPages).
  { split; repeat constructor; simpl; intuition discriminate. }
  split; [exact Hwf|]. split; [reflexivity|].
  destruct (X25_fallback_seed_is_cached decimalNumber wholeLog10 twoPages storeReady
              noHits [] Hwf eq_refl) as (nodes & Hrun & Hlen & _).
  exists nodes. split; [exact Hrun|exact Hlen].
Defined.

(** X26 on the ids [S] and [N]. *)
Lemma X26_edge_endpoints_round_trip_witness :
  barFree "S" /\ barFree "N"
  /\ GraphEdge.weight (edgeOfEntry (edgeKey "S" "N", 9 # 10)) = 9 # 10.
Proof.
  assert (Hs : barFree "S") by reflexivity.
  assert (Hn : barFree "N") by reflexivity.
  split; [exact Hs|]. split; [exact Hn|].
  exact (proj1 (X26_edge_endpoints_round_trip "S" "N" (9 # 10) Hs Hn)).
Defined.

(** X27 on a configured threshold of 1.5. *)
Lemma X27_default_threshold_range_witness :
  1 < 15 # 10 /\ defaultSimilarityThreshold (Some (15 # 10)) == 1.
Proof.
  assert (H : 1 < 15 # 10) by reflexivity.
  split; [exact H|].
  destruct (X27_default_threshold_range (Some (15 # 10))) as (_ & _ & Hd & _).
  destruct (Hd (15 # 10) eq_refl) as (_ & _ & H1).
  exact (H1 H).
Defined.

(** X28 on the answer being streamed, the last of two messages. *)
Lemma X28_related_documents_shown_iff_witness :
  relatedDocumentsAt true 2 1 "assistant" = negb (cursorAt true 2 1 "assistant").
Proof.
  destruct (X28_related_documents_shown_iff true 2 1 "assistant") as (_ & _ & H).
  exact (proj1 (H eq_refl)).
Defined.

(** X29 on the empty input. *)
Lemma X29_graph_page_request_witness :
  decimalNumber "60" = Some 60
  /\ GET decimalNumber wholeLog10 twoPages storeReady noHits
         (graphViewRequest (graphPageSeed EmptyString)) []
     = (Json200 (map (fun p => Node (nodeOfEntry p)) (firstn 25 (map_values twoPages)))
                [], []).
Proof.
  split; [reflexivity|].
  destruct (X29_graph_page_request decimalNumber wholeLog10 twoPages storeReady noHits
              EmptyString [] eq_refl) as (_ & H & _).
  exact (H eq_refl).
Defined.
